(** * nps-explorer-v2: the aggregation and recommendation engine

    A shallow embedding of the parts of [mcp-worker/services/recGovService.ts]
    (identifier resolution, trail aggregation, attribute decoding) and of the
    [planParkVisit] tool (weather scoring, ranking, closure filter, trip
    window) together with the properties the specification states about
    them.

    Conventions of the embedding.
    - JavaScript strings are [string]s; [toLowerCase] folds the ASCII
      letters, which is what the engine does on the needles used here.
    - JavaScript numbers are rationals ([Q]); where the code can see
      [NaN] or an infinity the type [number] adds them.  The sum and the
      quotient of the scorer's average are rounded as doubles are
      ([round64]); numbers that are only read, compared or printed are
      taken as they are.
    - [await]ed calls are values of [result]: [Ok v] for a fulfilled
      promise, [Throw e] for a rejected one; [try]/[catch] is [try_catch].
    - The text of a tool response is kept as the sequence of template
      fragments appended to it ([piece]), literal text apart from
      interpolated values. *)

From Stdlib Require Import ZArith QArith List String Ascii Bool Lia.
From Stdlib Require Import Permutation Sorted Qround Qabs Qpower.
Import ListNotations.

Local Open Scope string_scope.
Local Open Scope Z_scope.

(* ================================================================== *)
(** ** Host primitives *)
(* ================================================================== *)

Module JS.

(** Exceptions the modelled code can observe. *)
Inductive error : Type :=
| TypeError (msg : string)
| SyntaxError (msg : string)
| HttpError (msg : string).

Definition message (e : error) : string :=
  match e with
  | TypeError m => m
  | SyntaxError m => m
  | HttpError m => m
  end.

(** Outcome of evaluating an expression or awaiting a promise. *)
Inductive result (A : Type) : Type :=
| Ok (a : A)
| Throw (e : error).
Arguments Ok {A} a.
Arguments Throw {A} e.

Definition bind {A B : Type} (r : result A) (k : A -> result B) : result B :=
  match r with
  | Ok a => k a
  | Throw e => Throw e
  end.

(** [try { body } catch (e) { handler e }] *)
Definition try_catch {A : Type} (body : result A) (handler : error -> result A)
  : result A :=
  match body with
  | Ok a => Ok a
  | Throw e => handler e
  end.

(** *** Strings *)

Definition lower_ascii (c : ascii) : ascii :=
  let n := nat_of_ascii c in
  if (Nat.leb 65 n && Nat.leb n 90)%bool then ascii_of_nat (n + 32) else c.

(** [String.prototype.toLowerCase] *)
Fixpoint toLowerCase (s : string) : string :=
  match s with
  | EmptyString => EmptyString
  | String c s' => String (lower_ascii c) (toLowerCase s')
  end.

(** [String.prototype.startsWith] *)
Fixpoint startsWith (s p : string) : bool :=
  match p, s with
  | EmptyString, _ => true
  | String _ _, EmptyString => false
  | String b p', String a s' => Ascii.eqb a b && startsWith s' p'
  end.

(** [String.prototype.includes] *)
Fixpoint includes (s sub : string) : bool :=
  startsWith s sub ||
  match s with
  | EmptyString => false
  | String _ s' => includes s' sub
  end.

(** [String.prototype.substring(0, n)] *)
Fixpoint substring0 (n : nat) (s : string) : string :=
  match n, s with
  | O, _ => EmptyString
  | _, EmptyString => EmptyString
  | S n', String c s' => String c (substring0 n' s')
  end.

(** Truthiness of a string value: the empty string is falsy. *)
Definition truthy_string (s : string) : bool :=
  negb (String.eqb s EmptyString).

(** Truthiness of a possibly undefined string. *)
Definition truthy_ostring (o : option string) : bool :=
  match o with
  | Some s => truthy_string s
  | None => false
  end.

(** [a === b] for a possibly undefined [a] and a string [b]. *)
Definition strict_eq (a : option string) (b : string) : bool :=
  match a with
  | Some s => String.eqb s b
  | None => false
  end.

Definition is_space (c : ascii) : bool :=
  let n := nat_of_ascii c in
  (Nat.leb 9 n && Nat.leb n 13)%bool || Nat.eqb n 32.

Fixpoint trimStart (s : string) : string :=
  match s with
  | String c s' => if is_space c then trimStart s' else s
  | EmptyString => EmptyString
  end.

Fixpoint trimEnd (s : string) : string :=
  match s with
  | EmptyString => EmptyString
  | String c s' =>
      match trimEnd s' with
      | EmptyString => if is_space c then EmptyString else String c EmptyString
      | t => String c t
      end
  end.

(** [String.prototype.trim] *)
Definition trim (s : string) : string := trimEnd (trimStart s).

(** [s.split(',')]: the accumulator [cur] holds the token being read. *)
Fixpoint split_comma_aux (cur : string) (s : string) : list string :=
  match s with
  | EmptyString => [cur]
  | String c s' =>
      if Ascii.eqb c "," then cur :: split_comma_aux EmptyString s'
      else split_comma_aux (cur ++ String c EmptyString) s'
  end.

Definition split_comma (s : string) : list string := split_comma_aux EmptyString s.

(** *** Numbers *)

Inductive number : Type :=
| NaN
| NegInfinity
| Fin (q : Q)
| Infinity.

(** Truthiness of a number: [0] and [NaN] are falsy. *)
Definition truthy_number (n : number) : bool :=
  match n with
  | NaN => false
  | Fin q => negb (Qeq_bool q 0)
  | _ => true
  end.

(** Truthiness of a possibly undefined finite number. *)
Definition truthy_oQ (o : option Q) : bool :=
  match o with
  | Some q => negb (Qeq_bool q 0)
  | None => false
  end.

(** [a <= b]; every comparison with [NaN] is false. *)
Definition num_le (a b : number) : bool :=
  match a, b with
  | NaN, _ | _, NaN => false
  | NegInfinity, _ => true
  | _, Infinity => true
  | Fin x, Fin y => Qle_bool x y
  | _, _ => false
  end.

(** [a >= b] *)
Definition num_ge (a b : number) : bool := num_le b a.

(** *** Arithmetic of doubles

    The result of an arithmetic operation is the exact result rounded
    to the nearest binary64 number, ties to the even significand; the
    sign of a zero is not kept. *)

Definition pow2 (k : Z) : Q := (2 ^ k)%Q.

(** The exponent [e] with [2^e <= a < 2^(e+1)], for a positive [a]. *)
Definition floor_log2 (a : Q) : Z :=
  let e := Z.log2 (Qnum a) - Z.log2 (Zpos (Qden a)) in
  if Qle_bool (pow2 e) a then e else e - 1.

(** The integer nearest to [x], the even one of two that are equally
    near. *)
Definition round_half_even (x : Q) : Z :=
  let f := Qfloor x in
  match (x - inject_Z f ?= 1 # 2)%Q with
  | Lt => f
  | Gt => f + 1
  | Eq => if Z.even f then f else f + 1
  end.

(** Rounding to binary64: 53 significant bits, exponents from -1022
    (below which the spacing stays that of the subnormal numbers) to
    1023 (above which the result is an infinity). *)
Definition round64 (q : Q) : number :=
  if Qeq_bool q 0 then Fin 0
  else
    let a := Qabs q in
    let e := Z.max (floor_log2 a) (-1022) in
    let ulp := pow2 (e - 52) in
    let r := (inject_Z (round_half_even (a / ulp)) * ulp)%Q in
    if Qle_bool (pow2 1024) r
    then (if Qle_bool 0 q then Infinity else NegInfinity)
    else Fin (Qred (if Qle_bool 0 q then r else - r)).

(** [a + b] on finite numbers. *)
Definition num_add (a b : Q) : number := round64 (a + b).

(** [a / 2] *)
Definition num_half (a : number) : number :=
  match a with
  | Fin x => round64 (x / 2)
  | other => other
  end.

(** [a || d] on numbers. *)
Definition num_or (a : option number) (d : number) : number :=
  match a with
  | Some n => if truthy_number n then n else d
  | None => d
  end.

Definition is_digit (c : ascii) : bool :=
  let n := nat_of_ascii c in (Nat.leb 48 n && Nat.leb n 57)%bool.

Definition digit_val (c : ascii) : Z := Z.of_nat (nat_of_ascii c) - 48.

(** Reads the longest run of decimal digits: its value when continuing
    from [acc], how many digits were read, and the rest. *)
Fixpoint read_digits (acc : Z) (cnt : nat) (s : string) : Z * nat * string :=
  match s with
  | String c s' =>
      if is_digit c then read_digits (10 * acc + digit_val c) (S cnt) s'
      else (acc, cnt, s)
  | EmptyString => (acc, cnt, s)
  end.

Definition pow10 (e : Z) : Q :=
  if e <? 0 then 1 # Pos.pow 10 (Z.to_pos (- e))
  else inject_Z (10 ^ e).

(** The exponent part [e[+-]ddd], when one is present. *)
Definition read_exponent (s : string) : Z :=
  match s with
  | String c s' =>
      if (Ascii.eqb c "e" || Ascii.eqb c "E")%bool then
        let '(neg, s'') :=
          match s' with
          | String sg t =>
              if Ascii.eqb sg "-" then (true, t)
              else if Ascii.eqb sg "+" then (false, t)
              else (false, s')
          | EmptyString => (false, s')
          end in
        let '(e, cnt, _) := read_digits 0 0 s'' in
        match cnt with
        | O => 0
        | _ => if neg then - e else e
        end
      else 0
  | EmptyString => 0
  end.

(** The unsigned part of a decimal literal. *)
Definition read_unsigned (s : string) : number :=
  if startsWith s "Infinity" then Infinity
  else
    let '(ip, icnt, rest) := read_digits 0 0 s in
    let '(m, fcnt, rest') :=
      match rest with
      | String c t =>
          if Ascii.eqb c "." then
            let '(m, fcnt, r) := read_digits ip 0 t in (m, fcnt, r)
          else (ip, O, rest)
      | EmptyString => (ip, O, rest)
      end in
    match icnt, fcnt with
    | O, O => NaN
    | _, _ =>
        Fin (inject_Z m * pow10 (read_exponent rest' - Z.of_nat fcnt))
    end.

Definition num_neg (n : number) : number :=
  match n with
  | NaN => NaN
  | NegInfinity => Infinity
  | Infinity => NegInfinity
  | Fin q => Fin (- q)
  end.

(** [parseFloat]: leading white space is skipped, then the longest
    prefix that is a decimal literal is read; [NaN] when there is none. *)
Definition parseFloat (s : string) : number :=
  match trimStart s with
  | String c t =>
      if Ascii.eqb c "-" then num_neg (read_unsigned t)
      else if Ascii.eqb c "+" then read_unsigned t
      else read_unsigned (String c t)
  | EmptyString => NaN
  end.

(** [Number.prototype.toString] on an integer. *)
Definition digit_char (d : Z) : ascii := ascii_of_nat (Z.to_nat d + 48).

Fixpoint nat_digits (fuel : nat) (n : Z) (acc : string) : string :=
  match fuel with
  | O => acc
  | S f =>
      let acc' := String (digit_char (n mod 10)) acc in
      if n <? 10 then acc' else nat_digits f (n / 10) acc'
  end.

Definition int_toString (n : Z) : string :=
  if n <? 0 then String "-" (nat_digits (Z.to_nat (- n)) (- n) EmptyString)
  else nat_digits (S (Z.to_nat n)) n EmptyString.

End JS.
Import JS.


(** Services the engine does not implement itself: parsing of date
    strings by [new Date(s)] and of JSON text by [JSON.parse].  The
    properties below hold whatever the host does here. *)

(** One element of a parsed JSON array, as far as [mapTrailResponse]
    inspects it: a string, an object, [null], or any other value
    (numbers, booleans, nested arrays), on which member reads give
    [undefined].  An object is followed through its [name] and [id]
    members when these are strings or missing; a member of another
    type is read as missing, where the program would push the value
    itself, so statements about every value of the list are made for
    arrays without objects. *)
Inductive jsonItem : Type :=
| ItemString (s : string)
| ItemObject (name id : option string)
| ItemNull
| ItemOther.

Inductive parsed : Type :=
| ParsedArray (items : list jsonItem)
| ParsedOther
| ParseFailure.

Class Host : Type := {
  (** [new Date(s).valueOf()]: milliseconds since the epoch, [None] for
      an invalid date (whose comparisons are all false). *)
  Date_parse : string -> option Z;
  (** [JSON.parse(s)] *)
  JSON_parse : string -> parsed;
  (** [new Date().toISOString().split('T')[0]], and the same for the
      date fourteen days later. *)
  Date_today : string;
  Date_in_two_weeks : string
}.

(** [a <= b] on dates. *)
Definition date_le (a b : option Z) : bool :=
  match a, b with
  | Some x, Some y => x <=? y
  | _, _ => false
  end.

(** [a >= b] on dates. *)
Definition date_ge (a b : option Z) : bool := date_le b a.

(** [Array.prototype.sort(cmp)].  ECMAScript requires the sort to be
    stable; it is modelled by the insertion sort engines use on short
    arrays: going from the right, each element is put before the first
    element of the sorted rest that it does not compare greater than. *)
Section ArraySort.
Context {A : Type} (cmp : A -> A -> Z).

Fixpoint sort_insert (x : A) (l : list A) : list A :=
  match l with
  | [] => [x]
  | y :: l' => if 0 <? cmp x y then y :: sort_insert x l' else x :: l
  end.

Fixpoint Array_sort (l : list A) : list A :=
  match l with
  | [] => []
  | x :: l' => sort_insert x (Array_sort l')
  end.
End ArraySort.

(** [Array.prototype.slice(0, n)] is [firstn n]. *)

(** [obj[key]] on an object literal used as a table, for the keys that
    name none of the members every object inherits: the members the
    literal lists.  A key of [objectPrototypeKeys] finds the member of
    [Object.prototype] of that name, which is truthy, where [lookup]
    finds nothing; statements about keys the tables do not list are
    made for keys that [inheritedKey] rejects. *)
Fixpoint lookup {V : Type} (key : string) (table : list (string * V)) : option V :=
  match table with
  | [] => None
  | (k, v) :: rest => if String.eqb k key then Some v else lookup key rest
  end.

(** The names of the members of [Object.prototype]. *)
Definition objectPrototypeKeys : list string :=
  ["constructor"; "hasOwnProperty"; "isPrototypeOf"; "propertyIsEnumerable";
   "toLocaleString"; "toString"; "valueOf"; "__proto__";
   "__defineGetter__"; "__defineSetter__"; "__lookupGetter__"; "__lookupSetter__"].

Definition inheritedKey (key : string) : bool :=
  existsb (String.eqb key) objectPrototypeKeys.

(* ================================================================== *)
(** ** The planParkVisit tool: scorer, ranking and report *)
(* ================================================================== *)

Module Visit.
Local Open Scope list_scope.

(** Modelled from the spec: the weather service's [ForecastDay]
    ({date, minTemp, maxTemp, chanceOfRain, conditionText}), with the
    member names [planParkVisit] reads. *)
Record ForecastDay : Type := {
  date : string;
  minTempF : Q;
  maxTempF : Q;
  condition : string;
  chanceOfRain : Q
}.

(** [Park] and [Alert] of npsService.ts, the members the tool reads. *)
Record Park : Type := {
  name : string;
  parkCode : option string;
  parkDescription : option string;
  latitude : option Q;
  longitude : option Q
}.

Record Alert : Type := {
  title : string;
  description : string;
  category : string
}.

(** [Event] and [Campground] of npsService.ts, the members
    [getParkOverview] reads. *)
Module Event.
Record t : Type := {
  title : string;
  dateStart : string;
  location : string
}.
End Event.

Module Campground.
Record t : Type := {
  name : string;
  totalSites : option Q
}.
End Campground.

(** A fragment of response text. *)
Inductive piece : Type :=
| Lit (s : string)      (* literal text of a template *)
| Str (s : string)      (* an interpolated string value *)
| Num (q : Q)           (* an interpolated number *)
| Nl.                   (* a line feed *)

Definition text : Type := list piece.

(** An entry of [goodWeatherDays]. *)
Record ScoredDay : Type := {
  sd_date : string;
  score : Z;
  conditions : text
}.

Definition goodConditions : list string := ["sunny"; "clear"; "partly cloudy"].

(** The body of the [detailedForecast.forEach] callback. *)
Definition scoreDay (day : ForecastDay) : ScoredDay :=
  let score := 0 in
  let avgTemp := num_half (num_add (maxTempF day) (minTempF day)) in
  let score :=
    if num_ge avgTemp (Fin 65) && num_le avgTemp (Fin 80) then score + 3
    else if num_ge avgTemp (Fin 50) && num_le avgTemp (Fin 85) then score + 2
    else score + 1 in
  let score :=
    if negb (Qle_bool 20 (chanceOfRain day)) then score + 3
    else if negb (Qle_bool 40 (chanceOfRain day)) then score + 2
    else if negb (Qle_bool 60 (chanceOfRain day)) then score + 1
    else score in
  let score :=
    if existsb (fun c => includes (toLowerCase (condition day)) c) goodConditions
    then score + 2 else score in
  {| sd_date := date day;
     score := score;
     conditions := [Num (minTempF day); Lit "°F to "; Num (maxTempF day);
                    Lit "°F, "; Str (condition day); Lit ", ";
                    Num (chanceOfRain day); Lit "% chance of rain"] |}.

(** [goodWeatherDays] after the scoring loop. *)
Definition scoreDays (detailedForecast : option (list ForecastDay)) : list ScoredDay :=
  match detailedForecast with
  | Some (d :: ds) => map scoreDay (d :: ds)
  | _ => []
  end.

(** The comparator [(a, b) => b.score - a.score]. *)
Definition byScoreDesc (a b : ScoredDay) : Z := score b - score a.

(** [goodWeatherDays] after [sort]. *)
Definition rankDays (detailedForecast : option (list ForecastDay)) : list ScoredDay :=
  Array_sort byScoreDesc (scoreDays detailedForecast).

(** The predicate of [alerts.filter] *)
Definition isClosureAlert (a : Alert) : bool :=
  includes (toLowerCase (title a)) "closure" ||
  includes (toLowerCase (title a)) "closed" ||
  includes (toLowerCase (category a)) "closure".

Definition closureAlerts (alerts : list Alert) : list Alert :=
  filter isClosureAlert alerts.

Definition forecastLine (day : ForecastDay) : text :=
  [Lit "- **"; Str (date day); Lit "**: "; Num (minTempF day); Lit "°F to ";
   Num (maxTempF day); Lit "°F, "; Str (condition day); Nl].

Definition alertsSection (alerts : list Alert) : text :=
  match closureAlerts alerts with
  | [] => []
  | cl =>
      [Lit "## ⚠️ Important Alerts"; Nl] ++
      flat_map (fun alert =>
                  [Lit "- **"; Str (title alert); Lit "**: ";
                   Str (substring0 100 (description alert)); Lit "..."; Nl]) cl ++
      [Nl]
  end.

Definition outlookSection (forecast : option (list ForecastDay)) : text :=
  [Lit "## 7-Day Weather Outlook"; Nl] ++
  match forecast with
  | None | Some [] => [Lit "Weather forecast not available."; Nl; Nl]
  | Some fc => flat_map forecastLine fc ++ [Nl]
  end.

Fixpoint recommendedLines (index : Z) (days : list ScoredDay) : text :=
  match days with
  | [] => []
  | day :: rest =>
      [Num (inject_Z (index + 1)); Lit ". **"; Str (sd_date day); Lit "**: "]
      ++ conditions day ++ [Nl] ++ recommendedLines (index + 1) rest
  end.

Definition recommendedSection (goodWeatherDays : list ScoredDay) : text :=
  match goodWeatherDays with
  | [] => []
  | _ =>
      [Lit "## Recommended Visit Days"; Nl;
       Lit "Based on the weather forecast, here are the best days to visit:"; Nl; Nl]
      ++ recommendedLines 0 (firstn 3 goodWeatherDays) ++ [Nl]
  end.

Definition tipsSection (park : Park) : text :=
  [Lit "## Planning Tips"; Nl] ++
  (if strict_eq (parkCode park) "yose" then
     [Lit "- Yosemite's waterfalls are typically most impressive in spring and early summer"; Nl;
      Lit "- The Tioga Road (Highway 120 through the park) is typically closed November through May"; Nl;
      Lit "- Reservations are required during peak summer months"; Nl]
   else if strict_eq (parkCode park) "grca" then
     [Lit "- The North Rim is typically open May 15 through October 15"; Nl;
      Lit "- Summer temperatures at the bottom of the canyon can exceed 100°F"; Nl;
      Lit "- Winter brings snow to the rims but mild weather in the canyon"; Nl]
   else
     [Lit "- Check for any entrance reservation requirements"; Nl;
      Lit "- Visit early morning or late afternoon to avoid crowds"; Nl;
      Lit "- Check the official park website for seasonal road closures"; Nl])
  ++ [Nl].

Definition overlapNote : piece :=
  Lit "We have some weather forecast data for your trip dates!".
Definition outsideNote : piece :=
  Lit "Your trip dates are outside our current 3-day forecast window.".

Section Trip.
Context `{Host}.

(** [tripStartDate <= forecastEndDate && tripEndDate >= forecastStartDate] *)
Definition overlaps (tripStartDate tripEndDate forecastStartDate forecastEndDate : option Z)
  : bool :=
  date_le tripStartDate forecastEndDate && date_ge tripEndDate forecastStartDate.

(** The predicate of [forecast.filter] in the trip branch. *)
Definition inTrip (tripStartDate tripEndDate : option Z) (day : ForecastDay) : bool :=
  let dayDate := Date_parse (date day) in
  date_ge dayDate tripStartDate && date_le dayDate tripEndDate.

Definition tripForecast (tripStartDate tripEndDate : option Z)
           (forecast : list ForecastDay) : list ForecastDay :=
  filter (inTrip tripStartDate tripEndDate) forecast.

(** What the trip branch appends when the forecast is not empty;
    [first] is [forecast[0]]. *)
Definition tripBody (startDate endDate : string)
           (first : ForecastDay) (forecast : list ForecastDay) : text :=
  let tripStartDate := Date_parse startDate in
  let tripEndDate := Date_parse endDate in
  let forecastStartDate := Date_parse (date first) in
  let forecastEndDate := Date_parse (date (last forecast first)) in
  if overlaps tripStartDate tripEndDate forecastStartDate forecastEndDate then
    [overlapNote; Nl; Nl] ++
    match tripForecast tripStartDate tripEndDate forecast with
    | [] => [outsideNote; Nl]
    | tf => [Lit "Weather during your visit:"; Nl] ++ flat_map forecastLine tf
    end
  else [outsideNote; Nl].

(** The branch [if (startDate && endDate)]. *)
Definition tripSection (startDate endDate : option string)
           (forecast : option (list ForecastDay)) : text :=
  match startDate, endDate with
  | Some sd, Some ed =>
      if truthy_string sd && truthy_string ed then
        [Lit "## Your Trip: "; Str sd; Lit " to "; Str ed; Nl] ++
        match forecast with
        | Some (first :: rest) => tripBody sd ed first (first :: rest)
        | _ => []
        end
      else []
  | _, _ => []
  end.
End Trip.

(** The methods of the NPS and weather services the tools await.
    [getParkById] may resolve to a falsy value, which the tools check
    for; the events are asked for a window of dates. *)
Record Services : Type := {
  getParkById : string -> result (option Park);
  getAlertsByPark : string -> result (list Alert);
  getEventsByPark : string -> string -> string -> result (list Event.t);
  getCampgroundsByPark : string -> result (list Campground.t);
  get7DayForecastByLocation : string -> result (option (list ForecastDay));
  getDetailedForecast : string -> result (option (list ForecastDay))
}.

Section Tool.
Context `{Host} (svc : Services).

(** The body of the [try] block. *)
Definition planParkVisit_try (code : string) (startDate endDate : option string)
  : result text :=
  bind (getParkById svc code) (fun park =>
  match park with
  | None => Ok [Lit "Could not find park with code: "; Str code]
  | Some park =>
      bind (getAlertsByPark svc code) (fun alerts =>
      bind (get7DayForecastByLocation svc (name park)) (fun forecast =>
      bind (getDetailedForecast svc (name park)) (fun detailedForecast =>
      let goodWeatherDays := rankDays detailedForecast in
      Ok ([Lit "# Visit Planning for "; Str (name park); Nl; Nl]
          ++ alertsSection alerts
          ++ outlookSection forecast
          ++ recommendedSection goodWeatherDays
          ++ tipsSection park
          ++ tripSection startDate endDate forecast))))
  end).

Definition errorText (e : error) : text :=
  [Lit "Error planning park visit: "; Str (message e)].

(** The text of the tool's response; the [catch] turns every
    exception into an error text. *)
Definition planParkVisit (code : string) (startDate endDate : option string) : text :=
  match planParkVisit_try code startDate endDate with
  | Ok t => t
  | Throw e => errorText e
  end.
End Tool.

(** *** The getParkOverview tool *)

Definition count {A : Type} (l : list A) : piece :=
  Num (inject_Z (Z.of_nat (List.length l))).

(** [- Plus ${l.length - n} more <what>] when there are more than [n]. *)
Definition plusMore {A : Type} (n : nat) (what : string) (l : list A) : text :=
  if Nat.ltb n (List.length l) then
    [Lit "- Plus "; Num (inject_Z (Z.of_nat (List.length l) - Z.of_nat n));
     Lit what; Nl]
  else [].

Definition noAlerts : piece := Lit "No current alerts for this park.".
Definition noEvents : piece := Lit "No upcoming events in the next 14 days.".
Definition noCampgrounds : piece := Lit "No campgrounds available in this park.".

Definition overviewAbout (park : Park) : text :=
  [Lit "## About"; Nl;
   (if truthy_ostring (parkDescription park)
    then Str (match parkDescription park with Some d => d | None => EmptyString end)
    else Lit "No description available."); Nl; Nl] ++
  (if truthy_oQ (latitude park) && truthy_oQ (longitude park) then
     match latitude park, longitude park with
     | Some la, Some lo => [Lit "**Location**: "; Num la; Lit ", "; Num lo; Nl; Nl]
     | _, _ => []
     end
   else []).

Definition overviewAlerts (alerts : list Alert) : text :=
  [Lit "## Current Alerts ("; count alerts; Lit ")"; Nl] ++
  match alerts with
  | [] => [noAlerts; Nl; Nl]
  | _ =>
      flat_map (fun alert =>
                  [Lit "- **"; Str (title alert); Lit "** ("; Str (category alert);
                   Lit "): "; Str (substring0 100 (description alert)); Lit "..."; Nl])
               (firstn 3 alerts)
      ++ plusMore 3 " more alerts" alerts ++ [Nl]
  end.

Definition overviewForecast (forecast : option (list ForecastDay)) : text :=
  [Lit "## 7-Day Weather Forecast"; Nl] ++
  match forecast with
  | None | Some [] => [Lit "Weather forecast not available."; Nl; Nl]
  | Some fc => flat_map forecastLine fc ++ [Nl]
  end.

Definition overviewEvents (events : list Event.t) : text :=
  [Lit "## Upcoming Events ("; count events; Lit ")"; Nl] ++
  match events with
  | [] => [noEvents; Nl; Nl]
  | _ =>
      flat_map (fun event =>
                  [Lit "- **"; Str (Event.title event); Lit "** (";
                   Str (Event.dateStart event); Lit "): ";
                   Str (Event.location event); Nl])
               (firstn 5 events)
      ++ plusMore 5 " more events" events ++ [Nl]
  end.

Definition overviewCampgrounds (campgrounds : list Campground.t) : text :=
  [Lit "## Camping Options ("; count campgrounds; Lit ")"; Nl] ++
  match campgrounds with
  | [] => [noCampgrounds; Nl; Nl]
  | _ =>
      flat_map (fun campground =>
                  [Lit "- **"; Str (Campground.name campground); Lit "**"] ++
                  (match Campground.totalSites campground with
                   | Some n =>
                       if truthy_oQ (Some n) then [Lit " ("; Num n; Lit " sites)"] else []
                   | None => []
                   end) ++ [Nl])
               (firstn 3 campgrounds)
      ++ plusMore 3 " more campgrounds" campgrounds
  end.

Section Overview.
Context `{Host} (svc : Services).

(** The body of the [try] block of [getParkOverview]. *)
Definition getParkOverview_try (code : string) : result text :=
  bind (getParkById svc code) (fun park =>
  match park with
  | None => Ok [Lit "Could not find park with code: "; Str code]
  | Some park =>
      bind (getAlertsByPark svc code) (fun alerts =>
      bind (get7DayForecastByLocation svc (name park)) (fun forecast =>
      bind (getEventsByPark svc code Date_today Date_in_two_weeks) (fun events =>
      bind (getCampgroundsByPark svc code) (fun campgrounds =>
      Ok ([Lit "# "; Str (name park); Lit " Overview"; Nl; Nl]
          ++ overviewAbout park
          ++ overviewAlerts alerts
          ++ overviewForecast forecast
          ++ overviewEvents events
          ++ overviewCampgrounds campgrounds)))))
  end).

Definition overviewErrorText (e : error) : text :=
  [Lit "Error retrieving park overview: "; Str (message e)].

(** The text of the tool's response. *)
Definition getParkOverview (code : string) : text :=
  match getParkOverview_try code with
  | Ok t => t
  | Throw e => overviewErrorText e
  end.
End Overview.

End Visit.

(* ================================================================== *)
(** ** recGovService.ts: resolver, aggregator and attribute decoder *)
(* ================================================================== *)

Module RecGov.
Local Open Scope list_scope.

(** One entry of an attribute list. *)
Record Attribute : Type := {
  AttributeName : option string;
  AttributeKey : option string;
  AttributeValue : option string
}.

(** The [Attributes] member of a facility record: missing, an array of
    entries, or some other object, of which only the member
    [ATTRIBUTES] matters (given here when it is an array). *)
Inductive Attributes : Type :=
| AttrUndefined
| AttrArray (entries : list Attribute)
| AttrObject (ATTRIBUTES : option (list Attribute)).

(** An element of [RECDATA] as the facility endpoints return it. *)
Record RawFacility : Type := {
  FacilityID : Z;
  FacilityName : option string;
  FacilityTypeDescription : option string;
  FacilityDescription : option string;
  FacilityLatitude : option Q;
  FacilityLongitude : option Q;
  facilityAttributes : Attributes
}.

Record RecArea : Type := {
  RecAreaID : Z;
  RecAreaName : string
}.

Record Trailhead : Type := {
  latitude : Q;
  longitude : Q;
  trailheadName : option string
}.

(** The exported [Trail] interface. *)
Record Trail : Type := {
  id : string;
  name : option string;
  parkCode : string;
  length : option number;
  difficulty : option string;
  description : option string;
  elevationGain : option number;
  trailType : option string;
  surfaceType : option string;
  trailUse : list string;
  trailhead : option Trailhead
}.

(** The optional [query] argument of [getTrailsByPark]. *)
Record Query : Type := {
  trailId : option string;
  queryDifficulty : option string;
  minLength : option number;
  maxLength : option number
}.

(** The injected [HttpClient], one member per URL the service builds
    with [this.http.get]; the argument is what the URL is built from
    and the value is the [RECDATA] member of the decoded body ([None]
    when it is missing).
    - [/recareas?query=<name>]
    - [/recareas/<id>/facilities]
    - [/facilities?query=<text>]
    - [/facilities/<id>], whose [RECDATA] is reduced to its
      [ATTRIBUTES] member. *)
Record HttpClient : Type := {
  get_recareas_query : string -> result (option (list RecArea));
  get_recarea_facilities : Z -> result (option (list RawFacility));
  get_facilities_query : string -> result (option (list RawFacility));
  get_facility : Z -> result (option Attributes)
}.

(** *** Identifier resolution *)

Definition knownMappings : list (string * Z) :=
  [
    ("yose", 2991); ("grca", 2733); ("zion", 3042); ("yell", 3039);
    ("glac", 2725); ("romo", 2959); ("seki", 2979); ("olym", 2918);
    ("acad", 2674); ("grsm", 2734)
  ].

Definition parkMap : list (string * string) :=
  [
    ("yose", "Yosemite"); ("grca", "Grand Canyon"); ("zion", "Zion");
    ("yell", "Yellowstone"); ("glac", "Glacier"); ("romo", "Rocky Mountain");
    ("seki", "Sequoia Kings Canyon"); ("olym", "Olympic"); ("acad", "Acadia");
    ("grsm", "Great Smoky Mountains"); ("dena", "Denali");
    ("jotr", "Joshua Tree"); ("arch", "Arches"); ("brca", "Bryce Canyon");
    ("cany", "Canyonlands"); ("care", "Capitol Reef");
    ("cave", "Carlsbad Caverns"); ("chis", "Channel Islands");
    ("crla", "Crater Lake"); ("depo", "Death Valley"); ("ever", "Everglades");
    ("gumo", "Guadalupe Mountains"); ("havo", "Hawaii Volcanoes");
    ("hosp", "Hot Springs"); ("isro", "Isle Royale"); ("kefj", "Kenai Fjords");
    ("lavo", "Lassen Volcanic"); ("maca", "Mammoth Cave");
    ("meve", "Mesa Verde"); ("mora", "Mount Rainier");
    ("noca", "North Cascades"); ("pefo", "Petrified Forest");
    ("redw", "Redwood"); ("sagu", "Saguaro"); ("shen", "Shenandoah");
    ("thro", "Theodore Roosevelt"); ("voya", "Voyageurs"); ("wica", "Wind Cave");
    ("wrst", "Wrangell St Elias")
  ].

(** [getParkNameFromCode] *)
Definition getParkNameFromCode (code : string) : result (option string) :=
  match lookup code parkMap with
  | Some n => if truthy_string n then Ok (Some n) else Ok None
  | None => Ok None
  end.

(** The first [find] of [parkToRecAreaId]. *)
Definition exactMatch (parkName : string) (area : RecArea) : bool :=
  String.eqb (toLowerCase (RecAreaName area)) (toLowerCase parkName) ||
  includes (toLowerCase (RecAreaName area))
           (toLowerCase parkName ++ " national park")%string.

(** The second [find]. *)
Definition containsMatch (parkName : string) (area : RecArea) : bool :=
  includes (toLowerCase (RecAreaName area)) (toLowerCase parkName).

Definition or_else {A : Type} (a b : option A) : option A :=
  match a with
  | Some x => Some x
  | None => b
  end.

(** The body of the [try] block of [parkToRecAreaId]. *)
Definition searchRecArea (http : HttpClient) (code : string) : result (option Z) :=
  bind (getParkNameFromCode code) (fun parkName =>
  match parkName with
  | None => Ok None
  | Some parkName =>
      bind (get_recareas_query http parkName) (fun RECDATA =>
      match RECDATA with
      | None | Some [] => Ok None
      | Some areas =>
          let bestMatch := find (exactMatch parkName) areas in
          let bestMatch := or_else bestMatch (find (containsMatch parkName) areas) in
          let bestMatch := or_else bestMatch (hd_error areas) in
          Ok (option_map RecAreaID bestMatch)
      end)
  end).

(** [parkToRecAreaId]: [None] is the [null] result. *)
Definition parkToRecAreaId (http : HttpClient) (code : string) : result (option Z) :=
  match lookup code knownMappings with
  | Some i => if i =? 0 then try_catch (searchRecArea http code) (fun _ => Ok None)
              else Ok (Some i)
  | None => try_catch (searchRecArea http code) (fun _ => Ok None)
  end.

(** *** Attribute decoding *)

Definition named (attributeName : string) (a : Attribute) : bool :=
  strict_eq (AttributeName a) attributeName.

Definition namedOrKeyed (attributeName : string) (a : Attribute) : bool :=
  strict_eq (AttributeName a) attributeName || strict_eq (AttributeKey a) attributeName.

Definition valueOf (attr : option Attribute) : option string :=
  match attr with
  | Some a => AttributeValue a
  | None => None
  end.

(** The private method [getAttributeValue(facility, attributeName)]. *)
Definition getAttributeValue (facility : RawFacility) (attributeName : string)
  : option string :=
  match facilityAttributes facility with
  | AttrUndefined => None
  | AttrArray entries => valueOf (find (namedOrKeyed attributeName) entries)
  | AttrObject (Some entries) => valueOf (find (namedOrKeyed attributeName) entries)
  | AttrObject None => None
  end.

(** The closure [getAttributeValue] local to [mapTrailResponse]:
    [trail.Attributes?.find(...)] calls [find] on whatever
    [Attributes] is, once it is neither [undefined] nor [null]. *)
Definition localAttributeValue (trail : RawFacility) (attributeName : string)
  : result (option string) :=
  match facilityAttributes trail with
  | AttrUndefined => Ok None
  | AttrArray entries => Ok (valueOf (find (named attributeName) entries))
  | AttrObject _ => Throw (TypeError "trail.Attributes?.find is not a function")
  end.

(** The activity names tested one by one. *)
Definition officialActivities : list string :=
  [
    "Arts and Culture"; "Astronomy"; "Auto and ATV"; "Biking"; "Boating";
    "Camping"; "Canyoneering"; "Caving"; "Climbing"; "Compass and GPS";
    "Dog Sledding"; "Fishing"; "Flying"; "Food"; "Golf"; "Guided Tours";
    "Hands-On"; "Hiking"; "Horse Trekking"; "Hunting and Gathering";
    "Ice Skating"; "Junior Ranger Program"; "Living History"; "Museum Exhibits";
    "Paddling"; "Park Film"; "Playground"; "SCUBA Diving"; "Shopping"; "Skiing";
    "Snorkeling"; "Snow Play"; "Snowmobiling"; "Snowshoeing"; "Surfing";
    "Swimming"; "Team Sports"; "Tubing"; "Water Skiing"; "Wildlife Watching"
  ].

Definition activityIdMap : list (string * string) :=
  [
    ("09DF0950-D319-4557-A57E-04CD2F63FF42", "Arts and Culture");
    ("13A57703-BB1A-41A2-94B8-53B692EB7238", "Astronomy");
    ("5F723BAD-7359-48FC-98FA-631592256E35", "Auto and ATV");
    ("7CE6E935-F839-4FEC-A63E-052B1DEF39D2", "Biking");
    ("071BA73C-1D3C-46D4-A53C-00D5602F7F0E", "Boating");
    ("A59947B7-3376-49B4-AD02-C0423E08C5F7", "Camping");
    ("07CBCA6A-46B8-413F-8B6C-ABEDEBF9853E", "Canyoneering");
    ("BA316D0F-92AE-4E00-8C80-DBD605DC58C3", "Caving");
    ("B12FAAB9-713F-4B38-83E4-A273F5A43C77", "Climbing");
    ("C11D3746-5063-4BD0-B245-7178D1AD866C", "Compass and GPS");
    ("8C495067-8E94-4D78-BBD4-3379DACF6550", "Dog Sledding");
    ("AE42B46C-E4B7-4889-A122-08FE180371AE", "Fishing");
    ("D72206E4-6CD1-4441-A355-F8F1827466B1", "Flying");
    ("1DFACD97-1B9C-4F5A-80F2-05593604799E", "Food");
    ("3F3ABD16-2C52-4EAA-A1F6-4235DE5686F0", "Golf");
    ("B33DC9B6-0B7D-4322-BAD7-A13A34C584A3", "Guided Tours");
    ("42FD78B9-2B90-4AA9-BC43-F10E9FEA8B5A", "Hands-On");
    ("BFF8C027-7C8F-480B-A5F8-CD8CE490BFBA", "Hiking");
    ("0307955A-B65C-4CE4-A780-EB36BAAADF0B", "Horse Trekking");
    ("8386EEAF-985F-4DE8-9037-CCF91975AC94", "Hunting and Gathering");
    ("5FF5B286-E9C3-430E-B612-3380D8138600", "Ice Skating");
    ("DF4A35E0-7983-4A3E-BC47-F37B872B0F25", "Junior Ranger Program");
    ("B204DE60-5A24-43DD-8902-C81625A09A74", "Living History");
    ("C8F98B28-3C10-41AE-AA99-092B3B398C43", "Museum Exhibits");
    ("4D224BCA-C127-408B-AC75-A51563C42411", "Paddling");
    ("0C0D142F-06B5-4BE1-8B44-491B90F93DEB", "Park Film");
    ("7779241F-A70B-49BC-86F0-829AE332C708", "Playground");
    ("42CF4021-8524-428E-866A-D33097A4A764", "SCUBA Diving");
    ("24380E3F-AD9D-4E38-BF13-C8EEB21893E7", "Shopping");
    ("F9B1D433-6B86-4804-AED7-B50A519A3B7C", "Skiing");
    ("3EBF7EAC-68FC-4754-B6A4-0C38A1583D45", "Snorkeling");
    ("C38B3C62-1BBF-4EA1-A1A2-35DE21B74C17", "Snow Play");
    ("7C912B83-1B1B-4807-9B66-97C12211E48E", "Snowmobiling");
    ("01D717BC-18BB-4FE4-95BA-6B13AD702038", "Snowshoeing");
    ("AE3C95F5-E05B-4A28-81DD-1C5FD4BE88E2", "Surfing");
    ("587BB2D3-EC35-41B2-B3F7-A39E2B088AEE", "Swimming");
    ("94369BFD-F186-477E-8713-AE2A745154DA", "Team Sports");
    ("4D06CEED-90C6-4B69-B264-32CC90B69BA6", "Tubing");
    ("8A1C7B17-C2C6-4F7C-9539-EA1E19971D80", "Water Skiing");
    ("0B685688-3405-4E2A-ABBA-E3069492EC50", "Wildlife Watching")
  ].

(** [trailUses.includes(x)] *)
Definition uses_includes (trailUses : list string) (x : string) : bool :=
  existsb (String.eqb x) trailUses.

(** [trailUses.push(x)] *)
Definition push (trailUses : list string) (x : string) : list string :=
  trailUses ++ [x].

(** The forty statements
    [if (getAttributeValue(n) === "Yes") trailUses.push(n)]. *)
Fixpoint usesByName (trail : RawFacility) (names : list string)
         (trailUses : list string) : result (list string) :=
  match names with
  | [] => Ok trailUses
  | n :: rest =>
      bind (localAttributeValue trail n) (fun v =>
      usesByName trail rest (if strict_eq v "Yes" then push trailUses n else trailUses))
  end.

(** [Object.entries(activityIdMap).forEach(...)] *)
Fixpoint usesById (trail : RawFacility) (entries : list (string * string))
         (trailUses : list string) : result (list string) :=
  match entries with
  | [] => Ok trailUses
  | (i, n) :: rest =>
      bind (localAttributeValue trail i) (fun v =>
      usesById trail rest
               (if strict_eq v "Yes" && negb (uses_includes trailUses n)
                then push trailUses n else trailUses))
  end.

(** [x && !trailUses.includes(x)]: the value [x] when the test holds. *)
Definition notYetUsed (trailUses : list string) (x : option string) : option string :=
  match x with
  | Some s => if truthy_string s && negb (uses_includes trailUses s) then Some s else None
  | None => None
  end.

(** [activities.forEach(...)] on a parsed array.  The array
    [trailUses] is updated in place, so what was pushed before an
    exception stays: the result is the array together with the
    exception, if any. *)
Fixpoint usesFromJson (items : list jsonItem) (trailUses : list string)
  : list string * option error :=
  match items with
  | [] => (trailUses, None)
  | ItemString s :: rest =>
      usesFromJson rest (if negb (uses_includes trailUses s)
                         then push trailUses s else trailUses)
  | ItemObject oname oid :: rest =>
      match notYetUsed trailUses oname with
      | Some n => usesFromJson rest (push trailUses n)
      | None =>
          let mapped :=
            match oid with
            | Some i => if truthy_string i then lookup i activityIdMap else None
            | None => None
            end in
          match notYetUsed trailUses mapped with
          | Some m => usesFromJson rest (push trailUses m)
          | None => usesFromJson rest trailUses
          end
      end
  | ItemNull :: _ =>
      (trailUses, Some (TypeError "Cannot read properties of null (reading 'name')"))
  | ItemOther :: rest => usesFromJson rest trailUses
  end.

(** The [catch] branch: [activitiesAttribute.split(',').forEach(...)] *)
Fixpoint usesFromTokens (tokens : list string) (trailUses : list string) : list string :=
  match tokens with
  | [] => trailUses
  | activity :: rest =>
      let trimmedActivity := trim activity in
      usesFromTokens rest
        (if truthy_string trimmedActivity && negb (uses_includes trailUses trimmedActivity)
         then push trailUses trimmedActivity else trailUses)
  end.

Section Decoder.
Context `{Host}.

(** The block [if (activitiesAttribute) { try ... catch ... }]. *)
Definition usesFromActivities (activitiesAttribute : option string)
           (trailUses : list string) : list string :=
  match activitiesAttribute with
  | Some a =>
      if truthy_string a then
        match JSON_parse a with
        | ParsedArray items =>
            match usesFromJson items trailUses with
            | (u, None) => u
            | (u, Some _) => usesFromTokens (split_comma a) u
            end
        | ParsedOther => trailUses
        | ParseFailure => usesFromTokens (split_comma a) trailUses
        end
      else trailUses
  | None => trailUses
  end.

(** [x ? parseFloat(x) : undefined] *)
Definition parseOptional (x : option string) : option number :=
  match x with
  | Some s => if truthy_string s then Some (parseFloat s) else None
  | None => None
  end.

Definition mapTrailhead (trail : RawFacility) : option Trailhead :=
  match FacilityLatitude trail, FacilityLongitude trail with
  | Some la, Some lo =>
      if truthy_oQ (Some la) && truthy_oQ (Some lo) then
        Some {| latitude := la; longitude := lo; trailheadName := FacilityName trail |}
      else None
  | _, _ => None
  end.

(** [mapTrailResponse(trail, parkCode)] *)
Definition mapTrailResponse (trail : RawFacility) (code : string) : result Trail :=
  bind (localAttributeValue trail "Trail Length") (fun len =>
  bind (localAttributeValue trail "Trail Difficulty") (fun diff =>
  bind (localAttributeValue trail "Elevation Gain") (fun gain =>
  bind (localAttributeValue trail "Trail Surface") (fun surface =>
  bind (usesByName trail officialActivities []) (fun trailUses =>
  bind (usesById trail activityIdMap trailUses) (fun trailUses =>
  bind (localAttributeValue trail "Activities") (fun activitiesAttribute =>
  let trailUses := usesFromActivities activitiesAttribute trailUses in
  bind (localAttributeValue trail "Trail Type") (fun ttype =>
  Ok {| id := int_toString (FacilityID trail);
        name := FacilityName trail;
        parkCode := code;
        length := parseOptional len;
        difficulty := diff;
        description := FacilityDescription trail;
        elevationGain := parseOptional gain;
        trailType := ttype;
        surfaceType := surface;
        trailUse := trailUses;
        trailhead := mapTrailhead trail |})))))))).
End Decoder.

(** *** Trail aggregation *)

(** The predicate of both [RECDATA.filter] calls. *)
Definition isTrailFacility (facility : RawFacility) : bool :=
  strict_eq (FacilityTypeDescription facility) "Trail" ||
  match FacilityName facility with
  | Some n => truthy_string n && includes (toLowerCase n) "trail"
  | None => false
  end.

Definition withAttributes (trail : RawFacility) (a : Attributes) : RawFacility :=
  {| FacilityID := FacilityID trail;
     FacilityName := FacilityName trail;
     FacilityTypeDescription := FacilityTypeDescription trail;
     FacilityDescription := FacilityDescription trail;
     FacilityLatitude := FacilityLatitude trail;
     FacilityLongitude := FacilityLongitude trail;
     facilityAttributes := a |}.

(** One turn of the loop [for (const trail of trails)]: what is pushed
    on [detailedTrails]. *)
Definition fetchDetail (http : HttpClient) (trail : RawFacility) : RawFacility :=
  match get_facility http (FacilityID trail) with
  | Ok (Some attributes) => withAttributes trail attributes
  | Ok None => trail
  | Throw _ => trail
  end.

Definition detailTrails (http : HttpClient) (trails : list RawFacility)
  : list RawFacility :=
  map (fetchDetail http) trails.

(** The four optional filters. *)
Definition byTrailId (q : Query) (l : list RawFacility) : list RawFacility :=
  match trailId q with
  | Some t =>
      if truthy_string t
      then filter (fun trail => String.eqb (int_toString (FacilityID trail)) t) l
      else l
  | None => l
  end.

Definition byDifficulty (q : Query) (l : list RawFacility) : list RawFacility :=
  match queryDifficulty q with
  | Some d =>
      if truthy_string d
      then filter (fun trail =>
                     match getAttributeValue trail "Trail Difficulty" with
                     | Some difficultyAttr =>
                         truthy_string difficultyAttr &&
                         includes (toLowerCase difficultyAttr) (toLowerCase d)
                     | None => false
                     end) l
      else l
  | None => l
  end.

(** The callback of the [minLength] filter. *)
Definition longEnough (q : Query) (trail : RawFacility) : bool :=
  match getAttributeValue trail "Trail Length" with
  | Some lengthAttr =>
      truthy_string lengthAttr &&
      num_ge (parseFloat lengthAttr) (num_or (minLength q) (Fin 0))
  | None => false
  end.

(** The callback of the [maxLength] filter. *)
Definition shortEnough (q : Query) (trail : RawFacility) : bool :=
  match getAttributeValue trail "Trail Length" with
  | Some lengthAttr =>
      truthy_string lengthAttr &&
      num_le (parseFloat lengthAttr) (num_or (maxLength q) Infinity)
  | None => false
  end.

Definition truthy_onumber (n : option number) : bool :=
  match n with
  | Some x => truthy_number x
  | None => false
  end.

Definition byMinLength (q : Query) (l : list RawFacility) : list RawFacility :=
  if truthy_onumber (minLength q) then filter (longEnough q) l else l.

Definition byMaxLength (q : Query) (l : list RawFacility) : list RawFacility :=
  if truthy_onumber (maxLength q) then filter (shortEnough q) l else l.

(** The block [if (query) { ... }]. *)
Definition applyQuery (query : option Query) (detailedTrails : list RawFacility)
  : list RawFacility :=
  match query with
  | Some q => byMaxLength q (byMinLength q (byDifficulty q (byTrailId q detailedTrails)))
  | None => detailedTrails
  end.

(** [array.map(f)] with a callback that can throw. *)
Fixpoint mapM {A B : Type} (f : A -> result B) (l : list A) : result (list B) :=
  match l with
  | [] => Ok []
  | x :: rest =>
      bind (f x) (fun y => bind (mapM f rest) (fun ys => Ok (y :: ys)))
  end.

Section Aggregator.
Context `{Host} (http : HttpClient).

(** The candidates: the trail facilities of the area, or those of
    the fallback search when there are none. *)
Definition trailCandidates (code : string) (RECDATA : list RawFacility)
  : result (list RawFacility) :=
  match filter isTrailFacility RECDATA with
  | [] =>
      bind (getParkNameFromCode code) (fun parkName =>
      match parkName with
      | Some parkName =>
          bind (get_facilities_query http (parkName ++ " trail")%string)
               (fun searchData =>
          match searchData with
          | Some l => Ok (filter isTrailFacility l)
          | None =>
              Throw (TypeError "Cannot read properties of undefined (reading 'filter')")
          end)
      | None => Ok []
      end)
  | trails => Ok trails
  end.

(** [getTrailsByPark]; its [catch] logs and rethrows. *)
Definition getTrailsByPark (code : string) (query : option Query)
  : result (list Trail) :=
  try_catch
    (bind (parkToRecAreaId http code) (fun recAreaId =>
     match recAreaId with
     | None => Ok []
     | Some recAreaId =>
         if recAreaId =? 0 then Ok [] else
         bind (get_recarea_facilities http recAreaId) (fun RECDATA =>
         match RECDATA with
         | None | Some [] => Ok []
         | Some facilities =>
             bind (trailCandidates code facilities) (fun trails =>
             let detailedTrails := detailTrails http trails in
             let filteredTrails := applyQuery query detailedTrails in
             mapM (fun trail => mapTrailResponse trail code) filteredTrails)
         end)
     end))
    (fun e => Throw e).
End Aggregator.

End RecGov.

(* ================================================================== *)
(** ** A host for the worked examples *)
(* ================================================================== *)

Module IsoHost.

(** Days from 1970-01-01 to the given civil date (proleptic Gregorian
    calendar). *)
Definition days_from_civil (y m d : Z) : Z :=
  let y := if m <=? 2 then y - 1 else y in
  let era := y / 400 in
  let yoe := y - era * 400 in
  let doy := (153 * (if 2 <? m then m - 3 else m + 9) + 2) / 5 + d - 1 in
  let doe := yoe * 365 + yoe / 4 - yoe / 100 + doy in
  era * 146097 + doe - 719468.

Definition is_leap (y : Z) : bool :=
  ((y mod 4 =? 0) && negb (y mod 100 =? 0)) || (y mod 400 =? 0).

Definition days_in_month (y m : Z) : Z :=
  if m =? 2 then (if is_leap y then 29 else 28)
  else if (m =? 4) || (m =? 6) || (m =? 9) || (m =? 11) then 30
  else 31.

(** Reads exactly [n] decimal digits. *)
Fixpoint read_fixed (n : nat) (acc : Z) (s : string) : option (Z * string) :=
  match n with
  | O => Some (acc, s)
  | S n' =>
      match s with
      | String c s' =>
          if is_digit c then read_fixed n' (10 * acc + digit_val c) s' else None
      | EmptyString => None
      end
  end.

Definition expect_dash (s : string) : option string :=
  match s with
  | String c s' => if Ascii.eqb c "-" then Some s' else None
  | EmptyString => None
  end.

(** [new Date("YYYY-MM-DD").valueOf()] for a calendar date in the ISO
    form, which engines read as midnight UTC; anything else is taken
    as an invalid date. *)
Definition parse_iso_date (s : string) : option Z :=
  match read_fixed 4 0 s with
  | Some (y, s1) =>
      match expect_dash s1 with
      | Some s2 =>
          match read_fixed 2 0 s2 with
          | Some (m, s3) =>
              match expect_dash s3 with
              | Some s4 =>
                  match read_fixed 2 0 s4 with
                  | Some (d, EmptyString) =>
                      if (1 <=? m) && (m <=? 12) && (1 <=? d) && (d <=? days_in_month y m)
                      then Some (days_from_civil y m d * 86400000)
                      else None
                  | _ => None
                  end
              | None => None
              end
          | None => None
          end
      | None => None
      end
  | None => None
  end.

Definition quote : ascii := ascii_of_nat 34.
Definition backslash : ascii := ascii_of_nat 92.

(** Reads a JSON string literal without escapes, after its opening
    quote: the content and the rest after the closing quote. *)
Fixpoint read_plain_string (acc : string) (s : string) : option (string * string) :=
  match s with
  | EmptyString => None
  | String c s' =>
      if Ascii.eqb c quote then Some (acc, s')
      else if Ascii.eqb c backslash then None
      else read_plain_string (acc ++ String c EmptyString) s'
  end.

(** The elements of an array of plain string literals, after the
    opening bracket; [fuel] bounds the number of elements. *)
Fixpoint read_string_items (fuel : nat) (s : string) : option (list jsonItem) :=
  match fuel with
  | O => None
  | S fuel' =>
      match trimStart s with
      | String c s' =>
          if Ascii.eqb c quote then
            match read_plain_string EmptyString s' with
            | Some (str, rest) =>
                match trimStart rest with
                | String c' rest' =>
                    if Ascii.eqb c' "," then
                      option_map (cons (ItemString str)) (read_string_items fuel' rest')
                    else if Ascii.eqb c' "]" then
                      match trimStart rest' with
                      | EmptyString => Some [ItemString str]
                      | _ => None
                      end
                    else None
                | EmptyString => None
                end
            | None => None
            end
          else None
      | EmptyString => None
      end
  end.

(** [JSON.parse] on the texts the examples use: a non-empty array of
    plain string literals is read as such, and text that does not
    start a JSON value is rejected.  Other JSON text is not used with
    this host. *)
Definition parse_string_array (s : string) : parsed :=
  match trimStart s with
  | String c s' =>
      if Ascii.eqb c "[" then
        match read_string_items (S (String.length s)) s' with
        | Some items => ParsedArray items
        | None => ParseFailure
        end
      else ParseFailure
  | EmptyString => ParseFailure
  end.

#[export] Instance host : Host := {
  Date_parse := parse_iso_date;
  JSON_parse := parse_string_array;
  Date_today := "2024-05-01";
  Date_in_two_weeks := "2024-05-15"
}.

End IsoHost.

(* ================================================================== *)
(** ** The specification's vocabulary *)
(* ================================================================== *)

Module Spec.
Import Visit.

(** [text] contains [needle] without regard to case: some substring
    of [text] equals [needle] once both are lower-cased. *)
Definition containsIgnoringCase (text needle : string) : Prop :=
  exists pre mid post,
    text = (pre ++ mid ++ post)%string /\ toLowerCase mid = toLowerCase needle.

(** The average of the minimum and maximum temperature of a day. *)
Definition averageTemp (day : ForecastDay) : Q :=
  ((minTempF day + maxTempF day) / 2)%Q.

(** A number lies in the interval from [lo] to [hi]; an infinity or
    [NaN] lies in none. *)
Definition within (lo hi : Q) (x : number) : Prop :=
  exists q, x = Fin q /\ (lo <= q /\ q <= hi)%Q.

(** The temperature term for an average given as a number of the
    program: 3 in [65,80], else 2 in [50,85], else 1. *)
Inductive temperature_term_of (avg : number) : Z -> Prop :=
| temp_of_ideal : within 65 80 avg -> temperature_term_of avg 3
| temp_of_fair : ~ within 65 80 avg -> within 50 85 avg -> temperature_term_of avg 2
| temp_of_poor : ~ within 65 80 avg -> ~ within 50 85 avg -> temperature_term_of avg 1.

(** Temperature term: 3 in [65,80], else 2 in [50,85], else 1. *)
Inductive temperature_term (avg : Q) : Z -> Prop :=
| temp_ideal :
    (65 <= avg /\ avg <= 80)%Q -> temperature_term avg 3
| temp_fair :
    ~ (65 <= avg /\ avg <= 80)%Q -> (50 <= avg /\ avg <= 85)%Q ->
    temperature_term avg 2
| temp_poor :
    ~ (65 <= avg /\ avg <= 80)%Q -> ~ (50 <= avg /\ avg <= 85)%Q ->
    temperature_term avg 1.

(** Precipitation term: 3 below 20, 2 below 40, 1 below 60, else 0. *)
Inductive precipitation_term (rain : Q) : Z -> Prop :=
| rain_low : (rain < 20)%Q -> precipitation_term rain 3
| rain_some : ~ (rain < 20)%Q -> (rain < 40)%Q -> precipitation_term rain 2
| rain_more : ~ (rain < 40)%Q -> (rain < 60)%Q -> precipitation_term rain 1
| rain_high : ~ (rain < 60)%Q -> precipitation_term rain 0.

Definition goodCondition (cond : string) : Prop :=
  containsIgnoringCase cond "sunny" \/
  containsIgnoringCase cond "clear" \/
  containsIgnoringCase cond "partly cloudy".

(** Condition bonus: 2 for a good condition, else 0. *)
Inductive condition_bonus (cond : string) : Z -> Prop :=
| bonus_good : goodCondition cond -> condition_bonus cond 2
| bonus_none : ~ goodCondition cond -> condition_bonus cond 0.

(** The closure subset as the specification words it: title or
    category containing "closure" or "closed". *)
Definition closureAsSpecified (a : Alert) : Prop :=
  containsIgnoringCase (title a) "closure" \/
  containsIgnoringCase (title a) "closed" \/
  containsIgnoringCase (category a) "closure" \/
  containsIgnoringCase (category a) "closed".

(** The trail signal as the specification words it: type descriptor
    or name containing "trail", case-insensitively. *)
Definition trailAsSpecified (f : RecGov.RawFacility) : Prop :=
  (exists t, RecGov.FacilityTypeDescription f = Some t /\ containsIgnoringCase t "trail") \/
  (exists n, RecGov.FacilityName f = Some n /\ containsIgnoringCase n "trail").

(** [a <= b] on dates that are both valid. *)
Definition dateLe (a b : option Z) : Prop :=
  exists x y, a = Some x /\ b = Some y /\ x <= y.

End Spec.

(* ================================================================== *)
(** ** Auxiliary definitions and example data *)
(* ================================================================== *)

Import Visit.
Local Open Scope list_scope.

(** The worked examples run on the host of [IsoHost]; every general
    statement below is made for an arbitrary host. *)
#[local] Existing Instance IsoHost.host.

(** The average as the scorer computes it: the sum of the two
    temperatures, rounded, then halved. *)
Definition computedAverage (day : ForecastDay) : number :=
  num_half (num_add (maxTempF day) (minTempF day)).

(** The three summands of [scoreDay], in the order the code adds them. *)
Definition tempPoints (day : ForecastDay) : Z :=
  let avgTemp := computedAverage day in
  if num_ge avgTemp (Fin 65) && num_le avgTemp (Fin 80) then 3
  else if num_ge avgTemp (Fin 50) && num_le avgTemp (Fin 85) then 2 else 1.

Definition rainPoints (day : ForecastDay) : Z :=
  if negb (Qle_bool 20 (chanceOfRain day)) then 3
  else if negb (Qle_bool 40 (chanceOfRain day)) then 2
  else if negb (Qle_bool 60 (chanceOfRain day)) then 1 else 0.

Definition conditionPoints (day : ForecastDay) : Z :=
  if existsb (fun c => includes (toLowerCase (condition day)) c) goodConditions
  then 2 else 0.

(** The two days of the specification's examples. *)
Definition sunnyDay : ForecastDay :=
  {| date := "2024-05-03"; minTempF := 60; maxTempF := 80;
     condition := "Sunny"; chanceOfRain := 10 |}.

Definition stormyDay : ForecastDay :=
  {| date := "2024-05-04"; minTempF := 90; maxTempF := 100;
     condition := "Stormy"; chanceOfRain := 80 |}.

(** A day with the temperatures 80 and 80.00000000000001, the double
    next above 80, which is 80 + 2^-46. *)
Definition roundingDay : ForecastDay :=
  {| date := "2024-05-05"; minTempF := 80;
     maxTempF := 5629499534213121 # 70368744177664;
     condition := "Sunny"; chanceOfRain := 10 |}.

Definition scoreAtLeast (a b : ScoredDay) : Prop := score a >= score b.



(** A complete report opens with the heading of the park. *)
Definition reportHeading (park : Park) : text :=
  [Lit "# Visit Planning for "; Str (name park); Nl; Nl].

Definition isReport (park : Park) (t : text) : Prop :=
  exists rest, t = reportHeading park ++ rest.

(** The "not available" notice of the weather outlook. *)
Definition forecastUnavailable : piece := Lit "Weather forecast not available.".

(** The heading of the alerts section. *)
Definition alertsHeading : piece := Lit "## ⚠️ Important Alerts".

Definition tripHeading (startDate endDate : string) : text :=
  [Lit "## Your Trip: "; Str startDate; Lit " to "; Str endDate; Nl].

Definition yosemite : Park :=
  {| name := "Yosemite National Park"; parkCode := Some "yose";
     parkDescription := None; latitude := None; longitude := None |}.

(** The heading of an overview. *)
Definition overviewHeading (park : Park) : text :=
  [Lit "# "; Str (name park); Lit " Overview"; Nl; Nl].

Definition isOverview (park : Park) (t : text) : Prop :=
  exists rest, t = overviewHeading park ++ rest.

Definition mildDay (d : string) : ForecastDay :=
  {| date := d; minTempF := 55; maxTempF := 75; condition := "Partly cloudy";
     chanceOfRain := 15 |}.

(** The forecast of the specification's trip-window examples:
    2024-05-03 to 2024-05-10. *)
Definition mayForecast : list ForecastDay :=
  map mildDay ["2024-05-03"; "2024-05-04"; "2024-05-05"; "2024-05-06";
               "2024-05-07"; "2024-05-08"; "2024-05-09"; "2024-05-10"].

(** Services that all answer. *)
Definition servicesUp (alerts : list Alert) (forecast : option (list ForecastDay)) : Services :=
  {| getParkById := fun _ => Ok (Some yosemite);
     getAlertsByPark := fun _ => Ok alerts;
     getEventsByPark := fun _ _ _ => Ok [];
     getCampgroundsByPark := fun _ => Ok [];
     get7DayForecastByLocation := fun _ => Ok forecast;
     getDetailedForecast := fun _ => Ok forecast |}.

(** Services whose alert request is rejected, all else being well. *)
Definition alertsDown : Services :=
  {| getParkById := fun _ => Ok (Some yosemite);
     getAlertsByPark := fun _ => Throw (HttpError "HTTP 503");
     getEventsByPark := fun _ _ _ => Ok [];
     getCampgroundsByPark := fun _ => Ok [];
     get7DayForecastByLocation := fun _ => Ok (Some mayForecast);
     getDetailedForecast := fun _ => Ok (Some mayForecast) |}.

(** An alert that is a closure by its category only. *)
Definition closedByCategory : Alert :=
  {| title := "Tioga Road"; description := "No access until further notice.";
     category := "Closed" |}.

Import RecGov.




(** A query with one of its length bounds removed. *)
Definition withoutMinLength (q : Query) : Query :=
  {| trailId := trailId q; queryDifficulty := queryDifficulty q;
     minLength := None; maxLength := maxLength q |}.

Definition withoutMaxLength (q : Query) : Query :=
  {| trailId := trailId q; queryDifficulty := queryDifficulty q;
     minLength := minLength q; maxLength := None |}.

(** Example data. *)
Definition attribute (n v : string) : Attribute :=
  {| AttributeName := Some n; AttributeKey := None; AttributeValue := Some v |}.

Definition facility (i : Z) (n : string) (ty : option string) (a : Attributes)
  : RawFacility :=
  {| FacilityID := i; FacilityName := Some n; FacilityTypeDescription := ty;
     FacilityDescription := None; FacilityLatitude := None;
     FacilityLongitude := None; facilityAttributes := a |}.

(** The flat lists of the specification's decoding example. *)
Definition mistTrail : RawFacility :=
  facility 101 "Mist Trail" (Some "Trail") (AttrArray [attribute "Trail Length" "4.5"]).

Definition garbledTrail : RawFacility :=
  facility 102 "Panorama Trail" (Some "Trail") (AttrArray [attribute "Trail Length" "abc"]).

(** The same list inside a container object. *)
Definition nestedTrail : RawFacility :=
  facility 103 "Mist Trail" (Some "Trail")
           (AttrObject (Some [attribute "Trail Length" "4.5"])).

(** A facility whose type says trail and whose name does not. *)
Definition hikingTrailByType : RawFacility :=
  facility 104 "Bright Angel" (Some "Hiking Trail") AttrUndefined.

Definition networkDown : error := HttpError "fetch failed".

(** A client for which every request fails. *)
Definition httpDown : HttpClient :=
  {| get_recareas_query := fun _ => Throw networkDown;
     get_recarea_facilities := fun _ => Throw networkDown;
     get_facilities_query := fun _ => Throw networkDown;
     get_facility := fun _ => Throw networkDown |}.

(** A client whose area search finds nothing. *)
Definition httpNoAreas : HttpClient :=
  {| get_recareas_query := fun _ => Ok (Some []);
     get_recarea_facilities := fun _ => Ok (Some []);
     get_facilities_query := fun _ => Ok (Some []);
     get_facility := fun _ => Ok None |}.

(** Three trails in Yosemite; the detail request of the second fails. *)
Definition threeTrails : list RawFacility :=
  [facility 101 "Mist Trail" (Some "Trail") AttrUndefined;
   facility 102 "Panorama Trail" (Some "Trail") AttrUndefined;
   facility 105 "Valley Loop" (Some "Trail") AttrUndefined].

Definition httpOneDetailFails : HttpClient :=
  {| get_recareas_query := fun _ => Ok (Some []);
     get_recarea_facilities := fun _ => Ok (Some threeTrails);
     get_facilities_query := fun _ => Ok (Some []);
     get_facility := fun i =>
       if i =? 101 then Ok (Some (AttrArray [attribute "Trail Length" "4.5";
                                             attribute "Hiking" "Yes"]))
       else if i =? 102 then Throw networkDown
       else Ok (Some (AttrArray [attribute "Trail Length" "7"])) |}.




(** Trails already detailed, one of them without a length. *)
Definition lengthQuery (lo hi : option number) : Query :=
  {| trailId := None; queryDifficulty := None; minLength := lo; maxLength := hi |}.

Definition unmeasuredTrail : RawFacility :=
  facility 106 "Cook's Meadow Trail" (Some "Trail")
           (AttrArray [attribute "Trail Difficulty" "Easy"]).

(** A client whose detail records carry their attributes inside a
    container object. *)
Definition httpNestedDetail : HttpClient :=
  {| get_recareas_query := fun _ => Ok (Some []);
     get_recarea_facilities := fun _ => Ok (Some threeTrails);
     get_facilities_query := fun _ => Ok (Some []);
     get_facility := fun _ =>
       Ok (Some (AttrObject (Some [attribute "Trail Length" "4.5"]))) |}.

Definition findNotAFunction : error :=
  TypeError "trail.Attributes?.find is not a function".

(** A client for an area without trail facilities, whose keyword search
    finds a trail and a facility that only its type calls a trail. *)
Definition httpFallback : HttpClient :=
  {| get_recareas_query := fun _ => Ok (Some []);
     get_recarea_facilities :=
       fun _ => Ok (Some [facility 201 "Valley Visitor Center" (Some "Facility") AttrUndefined]);
     get_facilities_query := fun _ => Ok (Some [mistTrail; hikingTrailByType]);
     get_facility := fun _ => Ok None |}.

(** A string literal of JSON text. *)
Definition quoted (s : string) : string :=
  (String IsoHost.quote s ++ String IsoHost.quote EmptyString)%string.

(** A trail whose activities come as JSON text and as a list of words. *)
Definition jsonActivities : Attributes :=
  AttrArray [attribute "Hiking" "Yes";
             attribute "Activities"
                       ("[" ++ quoted "Biking" ++ ", " ++ quoted "Hiking" ++ "]")%string].

Definition wordActivities : Attributes :=
  AttrArray [attribute "Activities" "Fishing, Hiking ,Fishing"].

(* ================================================================== *)
(** ** Further example data *)
(* ================================================================== *)

(** Two days that differ in their chance of rain only. *)
Definition drizzlyDay : ForecastDay :=
  {| date := "2024-05-06"; minTempF := 60; maxTempF := 80;
     condition := "Sunny"; chanceOfRain := 45 |}.

Definition dryDay : ForecastDay :=
  {| date := "2024-05-06"; minTempF := 60; maxTempF := 80;
     condition := "Sunny"; chanceOfRain := 5 |}.

Definition visitListing : piece := Lit "Weather during your visit:".



(** Attribute containers none of whose entries carries a key. *)
Definition keyless (a : Attributes) : Prop :=
  match a with
  | AttrArray entries => Forall (fun e => AttributeKey e = None) entries
  | _ => True
  end.

Definition missingFilter : error :=
  TypeError "Cannot read properties of undefined (reading 'filter')".

(** A client for Yosemite whose request for the facilities fails. *)
Definition httpFacilitiesDown : HttpClient :=
  {| get_recareas_query := fun _ => Ok (Some []);
     get_recarea_facilities := fun _ => Throw networkDown;
     get_facilities_query := fun _ => Ok (Some []);
     get_facility := fun _ => Ok None |}.

(** Three trails with their lengths and difficulties. *)
Definition measuredTrails : list RawFacility :=
  [facility 301 "Mist Trail" (Some "Trail")
            (AttrArray [attribute "Trail Length" "5.4";
                        attribute "Trail Difficulty" "Strenuous"]);
   facility 302 "Lower Fall Trail" (Some "Trail")
            (AttrArray [attribute "Trail Length" "1";
                        attribute "Trail Difficulty" "Easy"]);
   facility 303 "Mirror Lake Trail" (Some "Trail")
            (AttrArray [attribute "Trail Difficulty" "Moderate"])].

Definition httpMeasured : HttpClient :=
  {| get_recareas_query := fun _ => Ok (Some []);
     get_recarea_facilities := fun _ => Ok (Some measuredTrails);
     get_facilities_query := fun _ => Ok (Some []);
     get_facility := fun _ => Ok None |}.

(** No string of the list occurs twice. *)
Fixpoint distinct (l : list string) : bool :=
  match l with
  | [] => true
  | x :: rest => negb (existsb (String.eqb x) rest) && distinct rest
  end.

Definition twoMiles : Query := lengthQuery (Some (Fin 2)) None.

(** An item of a parsed array that is an object. *)
Definition isObjectItem (i : jsonItem) : bool :=
  match i with
  | ItemObject _ _ => true
  | _ => false
  end.

(** The "Activities" attribute of a record, when it parses to an
    array, holds strings, [null], numbers, booleans and arrays only:
    no object. *)
Definition withoutObjectItems `{Host} (trail : RawFacility) : Prop :=
  forall a items,
    localAttributeValue trail "Activities" = Ok (Some a) ->
    JSON_parse a = ParsedArray items ->
    existsb isObjectItem items = false.

(** A trail flagged for hiking by name and for biking by id, with a
    list of words for its other activities. *)
Definition flaggedTrail : RawFacility :=
  facility 304 "Four Mile Trail" (Some "Trail")
           (AttrArray [attribute "Hiking" "Yes";
                       attribute "7CE6E935-F839-4FEC-A63E-052B1DEF39D2" "Yes";
                       attribute "Biking" "Yes";
                       attribute "Activities" "Hiking, Stargazing"]).

(* ================================================================== *)
(** ** npsService.ts: the park requests *)
(* ================================================================== *)

Module Nps.

(** An element of [data] in the answer of the parks endpoint.  The
    array members ([activities], [topics], [entranceFees],
    [operatingHours], [images]), which [mapParkResponse] copies as they
    are, are left out here and in [Park]. *)
Module Raw.
Record Park : Type := {
  id : string;
  fullName : string;
  description : option string;
  url : option string;
  parkCode : option string;
  states : option string;
  latitude : option string;
  longitude : option string
}.
End Raw.

(** The exported [Park] interface. *)
Record Park : Type := {
  id : string;
  name : string;
  description : option string;
  url : option string;
  parkCode : option string;
  states : option string;
  latitude : option number;
  longitude : option number
}.

(** [parseFloat(s) || undefined]; [parseFloat(undefined)] is [NaN]. *)
Definition coordinate (s : option string) : option number :=
  let n := match s with
           | Some s => parseFloat s
           | None => NaN
           end in
  if truthy_number n then Some n else None.

(** [mapParkResponse] *)
Definition mapParkResponse (p : Raw.Park) : Park :=
  {| id := Raw.id p;
     name := Raw.fullName p;
     description := Raw.description p;
     url := Raw.url p;
     parkCode := Raw.parkCode p;
     states := Raw.states p;
     latitude := coordinate (Raw.latitude p);
     longitude := coordinate (Raw.longitude p) |}.

(** The request [/parks?parkCode=<id>] of the injected [HttpClient];
    the value is the [data] member of the decoded body ([None] when it
    is missing). *)
Record HttpClient : Type := {
  get_parks_by_code : string -> result (option (list Raw.Park))
}.

Definition undefinedIndex : error :=
  TypeError "Cannot read properties of undefined (reading '0')".
Definition undefinedId : error :=
  TypeError "Cannot read properties of undefined (reading 'id')".

(** [getParkById]: [mapParkResponse(resp.data[0])] reads the members
    of [undefined] when no park is returned. *)
Definition getParkById (http : HttpClient) (i : string) : result Park :=
  bind (get_parks_by_code http i) (fun data =>
  match data with
  | None => Throw undefinedIndex
  | Some [] => Throw undefinedId
  | Some (park :: _) => Ok (mapParkResponse park)
  end).

End Nps.

(* ================================================================== *)
(** ** The weather tools of the MCP agent *)
(* ================================================================== *)

Module Tools.
Local Open Scope list_scope.

Definition noForecastData : piece := Lit "No forecast data available.".
Definition bullet : piece := Lit "• ".

(** [formatWeatherForecast(forecast, locationName)] *)
Definition formatWeatherForecast (forecast : option (list ForecastDay))
           (locationName : option string) : text :=
  let header :=
    match locationName with
    | Some n =>
        if truthy_string n then [Lit "3-Day Forecast for "; Str n; Lit ":"; Nl; Nl]
        else [Lit "7-Day Forecast:"; Nl; Nl]
    | None => [Lit "7-Day Forecast:"; Nl; Nl]
    end in
  match forecast with
  | None | Some [] => header ++ [noForecastData]
  | Some days =>
      header ++
      flat_map (fun day =>
                  [bullet; Str (date day); Lit ": "; Num (minTempF day); Lit "°F to ";
                   Num (maxTempF day); Lit "°F, "; Str (condition day); Nl]) days
  end.

Definition notFoundText (code : string) : text :=
  [Lit "Could not find park with code: "; Str code].

(** The [getParkWeatherForecast] tool. *)
Definition getParkWeatherForecast_try (svc : Services) (code : string) : result text :=
  bind (getParkById svc code) (fun park =>
  match park with
  | None => Ok (notFoundText code)
  | Some park =>
      bind (get7DayForecastByLocation svc (Visit.name park)) (fun forecast =>
      match forecast with
      | None | Some [] =>
          Ok [Lit "Found park "; Str (Visit.name park);
              Lit ", but could not retrieve weather forecast."]
      | Some days =>
          Ok ([Lit "Weather forecast for "; Str (Visit.name park); Lit ":"; Nl; Nl]
              ++ formatWeatherForecast (Some days) (Some (Visit.name park)))
      end)
  end).

Definition getParkWeatherForecast (svc : Services) (code : string) : text :=
  match getParkWeatherForecast_try svc code with
  | Ok t => t
  | Throw e => [Lit "Error retrieving park weather forecast: "; Str (message e)]
  end.

(** The bullets of a text. *)
Definition isBullet (p : piece) : bool :=
  match p with
  | Lit s => String.eqb s "• "
  | _ => false
  end.

End Tools.

(** A view of a park of the service as the tools read it, for the
    examples: coordinates that are not finite are dropped. *)
Definition finiteCoordinate (n : option number) : option Q :=
  match n with
  | Some (Fin q) => Some q
  | _ => None
  end.

Definition parkView (p : Nps.Park) : Park :=
  {| Visit.name := Nps.name p;
     Visit.parkCode := Nps.parkCode p;
     Visit.parkDescription := Nps.description p;
     Visit.latitude := finiteCoordinate (Nps.latitude p);
     Visit.longitude := finiteCoordinate (Nps.longitude p) |}.

(** The tools' services with [getParkById] taken from the NPS service. *)
Definition servicesOver (http : Nps.HttpClient) : Services :=
  {| Visit.getParkById :=
       fun c => bind (Nps.getParkById http c) (fun p => Ok (Some (parkView p)));
     getAlertsByPark := fun _ => Ok [];
     getEventsByPark := fun _ _ _ => Ok [];
     getCampgroundsByPark := fun _ => Ok [];
     get7DayForecastByLocation := fun _ => Ok (Some mayForecast);
     getDetailedForecast := fun _ => Ok (Some mayForecast) |}.

(** A parks endpoint that knows no park. *)
Definition npsNoPark : Nps.HttpClient :=
  {| Nps.get_parks_by_code := fun _ => Ok (Some []) |}.

(* ================================================================== *)
(** ** recGovService.ts: campground availability *)
(* ================================================================== *)

(** [date.toISOString().split('T')[0]] for a date of the given time
    value, left to the host like the parsing of dates. *)
Class IsoDates : Type := {
  Date_isoDay : Z -> string
}.

Module Camp.
Local Open Scope list_scope.

(** The length of a day in milliseconds.  The worker's local time is
    UTC, so [d.setDate(d.getDate() + k)] adds [k] days of this length
    to the time value of [d]. *)
Definition msPerDay : Z := 1000 * 3600 * 24.

(** The [Facility] interface, the members the availability check reads. *)
Record Facility : Type := {
  facilityID : Z;
  facilityName : option string;
  facilityReservationUrl : option string
}.

(** [RECDATA] of the request [/facilities/<id>], the members that
    [mapFacilityResponse] copies to the members above. *)
Record FacilityRecord : Type := {
  FacilityID : Z;
  FacilityName : option string;
  FacilityReservationURL : option string
}.

(** [mapFacilityResponse], on these members. *)
Definition mapFacilityResponse (f : FacilityRecord) : Facility :=
  {| facilityID := FacilityID f;
     facilityName := FacilityName f;
     facilityReservationUrl := FacilityReservationURL f |}.

(** The request [/facilities/<id>] of the injected client; [None] is a
    body without [RECDATA]. *)
Record DetailClient : Type := {
  get_facility_record : Z -> result (option FacilityRecord)
}.

(** [getFacilityDetails]: [null] when the record is missing or the
    request fails. *)
Definition getFacilityDetails (http : DetailClient) (facilityId : Z)
  : result (option Facility) :=
  try_catch
    (bind (get_facility_record http facilityId) (fun RECDATA =>
     match RECDATA with
     | None => Ok None
     | Some r => Ok (Some (mapFacilityResponse r))
     end))
    (fun _ => Ok None).

Inductive Status : Type := Available | NotAvailable | Reserved.

(** The [Availability] interface. *)
Record Availability : Type := {
  availFacilityID : Z;
  campSiteID : Z;
  availableDate : string;
  availableStatus : Status;
  price : Z;
  siteType : string
}.

(** [Math.ceil(a / b)] for integers with [b] positive. *)
Definition ceil_div (a b : Z) : Z := - ((- a) / b).

Section Mock.
Context `{Host} `{IsoDates}.

(** The outcomes of the successive calls of [Math.random()], each in
    [0, 1). *)
Variable random : nat -> Q.

(** The entry pushed for site [siteId] of day [i]; [call] counts the
    calls of [Math.random()] made before. *)
Definition mockSite (facilityId dateStart : Z) (i : Z) (siteId : Z) (call : nat)
  : Availability :=
  {| availFacilityID := facilityId;
     campSiteID := facilityId * 1000 + siteId;
     availableDate := Date_isoDay (dateStart + i * msPerDay);
     availableStatus :=
       if negb (Qle_bool (random call) (6 # 10)) then Available else Reserved;
     price := Qfloor (random (S call) * 30) + 20;
     siteType := "campsite" |}.

(** The loop [for (let i = 0; i < daysDiff; i++)], from [i] on, with
    its three sites for each day; [todo] is the number of days left. *)
Fixpoint mockDays (facilityId dateStart : Z) (i : Z) (todo : nat) (call : nat)
  : list Availability :=
  match todo with
  | O => []
  | S todo' =>
      mockSite facilityId dateStart i 1 call
      :: mockSite facilityId dateStart i 2 (call + 2)
      :: mockSite facilityId dateStart i 3 (call + 4)
      :: mockDays facilityId dateStart (i + 1) todo' (call + 6)
  end.

(** [mockAvailabilityCheck]; with a date that is not valid [daysDiff]
    is [NaN] and the loop is not entered. *)
Definition mockAvailabilityCheck (facilityId : Z) (startDate endDate : string)
  : list Availability :=
  match Date_parse startDate, Date_parse endDate with
  | Some dateStart, Some dateEnd =>
      let daysDiff := ceil_div (dateEnd - dateStart) msPerDay in
      mockDays facilityId dateStart 0 (Z.to_nat daysDiff) 0
  | _, _ => []
  end.

(** [checkCampsiteAvailability], for a whole campsite number: one
    entry, for the start date as it was given. *)
Definition checkCampsiteAvailability (campsiteId : Z) (startDate endDate : string)
  : list Availability :=
  [{| availFacilityID := campsiteId / 1000;
      campSiteID := campsiteId;
      availableDate := startDate;
      availableStatus :=
        if negb (Qle_bool (random 0) (5 # 10)) then Available else Reserved;
      price := Qfloor (random 1 * 30) + 20;
      siteType := "campsite" |}].

(** The loop [while (current <= end)] of [getDateRange] on time
    values; [fuel] bounds the number of turns. *)
Fixpoint rangeLoop (fuel : nat) (current finish : Z) : list Z :=
  match fuel with
  | O => []
  | S fuel' =>
      if current <=? finish
      then current :: rangeLoop fuel' (current + msPerDay) finish
      else []
  end.

(** The turns the loop takes from [current], and one more for the
    test that ends it. *)
Definition rangeFuel (current finish : Z) : nat :=
  S (Z.to_nat ((finish - current) / msPerDay + 1)).

(** [getDateRange]; with a date that is not valid the test of the loop
    is false at once. *)
Definition getDateRange (startDate endDate : string) : list string :=
  match Date_parse startDate, Date_parse endDate with
  | Some start, Some finish =>
      map Date_isoDay (rangeLoop (rangeFuel start finish) start finish)
  | _, _ => []
  end.

(** An element of [sites] of an available date. *)
Record Site : Type := {
  siteId : Z;
  siteName : string;
  kind : string;
  isAvailable : bool;
  sitePrice : Z
}.

Record DateSites : Type := {
  day : string;
  sites : list Site
}.

(** The result of [checkCampgroundAvailability]. *)
Record Report : Type := {
  facilityId : Z;
  reportName : string;
  availableSites : number;
  totalSites : Z;
  availableDates : list DateSites;
  reservationUrl : string
}.

Definition isAvailableStatus (s : Status) : bool :=
  match s with
  | Available => true
  | _ => false
  end.

Definition toSite (site : Availability) : Site :=
  {| siteId := campSiteID site;
     siteName := ("Site " ++ int_toString (campSiteID site))%string;
     kind := if truthy_string (siteType site) then siteType site else "Standard";
     isAvailable := isAvailableStatus (availableStatus site);
     sitePrice := price site |}.

(** The predicate of [availabilityData.filter] for one date. *)
Definition forDate (campsiteType : option string) (d : string) (a : Availability) : bool :=
  String.eqb (availableDate a) d &&
  (negb (truthy_ostring campsiteType) || strict_eq campsiteType (siteType a)).

(** The loop [for (const date of dateRange)]. *)
Definition datesWithSites (campsiteType : option string)
           (availabilityData : list Availability) (dateRange : list string)
  : list DateSites :=
  map (fun d => {| day := d;
                   sites := map toSite (filter (forDate campsiteType d) availabilityData) |})
      dateRange.

Definition countAvailable (l : list DateSites) : Z :=
  fold_left (fun count d => count + Z.of_nat (List.length (filter isAvailable (sites d))))
            l 0.

(** [a || d] on strings that may be undefined. *)
Definition string_or (a : option string) (d : string) : string :=
  match a with
  | Some s => if truthy_string s then s else d
  | None => d
  end.

(** [x?.member] *)
Definition member {A B : Type} (f : A -> option B) (x : option A) : option B :=
  match x with
  | Some a => f a
  | None => None
  end.

Variable http : DetailClient.

(** [checkCampgroundAvailability] *)
Definition checkCampgroundAvailability (facilityId : Z) (startDate endDate : string)
           (campsiteType : option string) : result Report :=
  bind (getFacilityDetails http facilityId) (fun facilityDetails =>
  let availabilityData := mockAvailabilityCheck facilityId startDate endDate in
  let dateRange := getDateRange startDate endDate in
  let availableDates := datesWithSites campsiteType availabilityData dateRange in
  let totalSites :=
    match availableDates with
    | first :: _ => Z.of_nat (List.length (sites first))
    | [] => 0
    end in
  let availableSites :=
    match dateRange with
    | [] => NaN
    | _ => Fin (inject_Z (countAvailable availableDates)
                / inject_Z (Z.of_nat (List.length dateRange)))
    end in
  Ok {| facilityId := facilityId;
        reportName := string_or (member facilityName facilityDetails)
                                ("Facility " ++ int_toString facilityId)%string;
        availableSites := availableSites;
        totalSites := totalSites;
        availableDates := availableDates;
        reservationUrl :=
          string_or (member facilityReservationUrl facilityDetails)
                    ("https://www.recreation.gov/camping/campgrounds/"
                       ++ int_toString facilityId)%string |}).
End Mock.

End Camp.

(** The ISO day of a time value for the worked examples. *)
Module IsoDay.

(** The civil date of a day number counted from 1970-01-01. *)
Definition civil_from_days (z : Z) : Z * Z * Z :=
  let z := z + 719468 in
  let era := z / 146097 in
  let doe := z - era * 146097 in
  let yoe := (doe - doe / 1460 + doe / 36524 - doe / 146096) / 365 in
  let doy := doe - (365 * yoe + yoe / 4 - yoe / 100) in
  let mp := (5 * doy + 2) / 153 in
  let d := doy - (153 * mp + 2) / 5 + 1 in
  let m := if mp <? 10 then mp + 3 else mp - 9 in
  let y := yoe + era * 400 + (if m <=? 2 then 1 else 0) in
  (y, m, d).

(** A number below 100 in two digits, and one below 10000 in four. *)
Definition two_digits (n : Z) : string :=
  String (digit_char (n / 10)) (String (digit_char (n mod 10)) EmptyString).

Definition four_digits (n : Z) : string :=
  (two_digits (n / 100) ++ two_digits (n mod 100))%string.

(** [toISOString().split('T')[0]] for the years 0 to 9999. *)
Definition iso_day (t : Z) : string :=
  let '(y, m, d) := civil_from_days (t / 86400000) in
  (four_digits y ++ "-" ++ two_digits m ++ "-" ++ two_digits d)%string.

#[export] Instance dates : IsoDates := {
  Date_isoDay := iso_day
}.

End IsoDay.

#[local] Existing Instance IsoDay.dates.

(** Outcomes of [Math.random()] for the examples: 0.7, 0.5, 0.7, ... *)
Definition alternating (n : nat) : Q :=
  if Nat.even n then 7 # 10 else 5 # 10.

(** A client whose facility request fails, and one that knows the
    facility. *)
Definition detailDown : Camp.DetailClient :=
  {| Camp.get_facility_record := fun _ => Throw networkDown |}.

Definition detailUp : Camp.DetailClient :=
  {| Camp.get_facility_record := fun i =>
       Ok (Some {| Camp.FacilityID := i;
                   Camp.FacilityName := Some "Upper Pines Campground";
                   Camp.FacilityReservationURL := None |}) |}.

(** The number of days from [start] to [finish], both included. *)
Definition dayCount (start finish : Z) : nat :=
  if start <=? finish then Z.to_nat ((finish - start) / Camp.msPerDay + 1) else 0.

(** The time value [k] days after [start]. *)
Definition dayAfter (start : Z) (k : nat) : Z := start + Z.of_nat k * Camp.msPerDay.

(** What holds of every simulated entry of the days [lo] to [hi - 1]. *)
Definition simulated `{IsoDates} (facilityId dateStart lo hi : Z) (a : Camp.Availability)
  : Prop :=
  Camp.availFacilityID a = facilityId /\
  1 <= Camp.campSiteID a - facilityId * 1000 <= 3 /\
  20 <= Camp.price a <= 49 /\
  Camp.siteType a = "campsite" /\
  Camp.availableStatus a <> Camp.NotAvailable /\
  exists i, lo <= i < hi /\
            Camp.availableDate a = Date_isoDay (dateStart + i * Camp.msPerDay).

(** The three entries that [mockAvailabilityCheck] pushes in turn [k]
    of its loop over the days; six calls of [Math.random()] are made
    in every turn. *)
Definition mockDay `{IsoDates} (random : nat -> Q) (facilityId dateStart : Z) (k : nat)
  : list Camp.Availability :=
  [Camp.mockSite random facilityId dateStart (Z.of_nat k) 1 (6 * k);
   Camp.mockSite random facilityId dateStart (Z.of_nat k) 2 (6 * k + 2);
   Camp.mockSite random facilityId dateStart (Z.of_nat k) 3 (6 * k + 4)].

(** The number of turns of that loop, [Math.ceil] of the days between
    the two time values. *)
Definition nights (start finish : Z) : nat :=
  Z.to_nat (Camp.ceil_div (finish - start) Camp.msPerDay).

(** A [campsiteType] that lets the simulated entries, all of type
    "campsite", through the filter: undefined, empty or "campsite". *)
Definition keepsCampsites (campsiteType : option string) : bool :=
  negb (truthy_ostring campsiteType) || strict_eq campsiteType "campsite".


(* ================================================================== *)
(** ** The findNearbyRecreation tool *)
(* ================================================================== *)

Module Nearby.
Local Open Scope list_scope.

(** The [Facility] interface of recGovService.ts, the members the tool
    reads. *)
Record Facility : Type := {
  facilityName : string;
  facilityDescription : option string;
  latitude : Q;
  longitude : Q;
  facilityPhone : option string;
  facilityReservationUrl : option string
}.

(** The service methods the tool awaits; the forecast of the location
    and the facilities may resolve to a falsy value, which the tool
    checks for. *)
Record Services : Type := {
  get7DayForecastByLocation : string -> result (option (list ForecastDay));
  getDetailedForecast : string -> Z -> result (list ForecastDay);
  getFacilitiesByLocation : Q -> Q -> Q -> result (option (list Facility))
}.

(** Reading [detailedForecast[0].condition] of an empty forecast. *)
Definition undefinedCondition : error :=
  TypeError "Cannot read properties of undefined (reading 'condition')".

(** The filter by activity type, skipped for a type that is falsy. *)
Definition byActivityType (activityType : option string) (facilities : list Facility)
  : list Facility :=
  match activityType with
  | Some t =>
      if truthy_string t
      then filter (fun f => includes (toLowerCase (facilityName f)) (toLowerCase t))
                  facilities
      else facilities
  | None => facilities
  end.

(** A line that is written when the value is truthy. *)
Definition optionalLine (label : string) (value : option string) : text :=
  match value with
  | Some v => if truthy_string v then [Lit label; Str v; Nl] else []
  | None => []
  end.

(** The body of the [forEach] callback. *)
Definition facilityEntry (index : nat) (facility : Facility) : text :=
  [Lit "### "; Num (inject_Z (Z.of_nat index + 1)); Lit ". ";
   Str (facilityName facility); Nl]
  ++ match facilityDescription facility with
     | Some d => if truthy_string d then [Str (substring0 150 d); Lit "..."; Nl; Nl] else []
     | None => []
     end
  ++ [Lit "**Location**: "; Num (latitude facility); Lit ", ";
      Num (longitude facility); Nl]
  ++ optionalLine "**Phone**: " (facilityPhone facility)
  ++ optionalLine "**Reservations**: " (facilityReservationUrl facility)
  ++ [Nl].

(** [l.forEach((x, index) => ...)] appending to the response, from
    [index] on. *)
Fixpoint forEach_indexed {A : Type} (f : nat -> A -> text) (index : nat) (l : list A)
  : text :=
  match l with
  | [] => []
  | a :: l' => f index a ++ forEach_indexed f (S index) l'
  end.

(** [activityType || "recreation"] *)
Definition typeOrRecreation (activityType : option string) : piece :=
  match activityType with
  | Some t => if truthy_string t then Str t else Lit "recreation"
  | None => Lit "recreation"
  end.

Definition facilitiesSection (distance : Q) (activityType : option string)
           (filteredFacilities : list Facility) : text :=
  [Lit "## Available Facilities ("; count filteredFacilities; Lit ")"; Nl]
  ++ match filteredFacilities with
     | [] => [Lit "No "; typeOrRecreation activityType; Lit " facilities found within ";
              Num distance; Lit " miles."; Nl; Nl]
     | _ =>
         forEach_indexed facilityEntry 0 (firstn 8 filteredFacilities)
         ++ if Nat.ltb 8 (List.length filteredFacilities)
            then [Lit "...and ";
                  Num (inject_Z (Z.of_nat (List.length filteredFacilities) - 8));
                  Lit " more facilities"; Nl; Nl]
            else []
     end.

Section Tool.
Variable svc : Services.

(** The body of the [try] block; the coordinates of the search are
    fixed in the code. *)
Definition findNearbyRecreation_try (location : string) (distance : Q)
           (activityType : option string) : result text :=
  bind (get7DayForecastByLocation svc location) (fun forecast =>
  match forecast with
  | None | Some [] => Ok [Lit "Could not find location: "; Str location]
  | Some _ =>
      bind (getDetailedForecast svc location 1) (fun detailedForecast =>
      let latitude := 377749 # 10000 in
      let longitude := Qmake (-1224194) 10000 in
      bind (getFacilitiesByLocation svc latitude longitude distance) (fun facilities =>
      match facilities with
      | None | Some [] =>
          Ok [Lit "No recreation facilities found within "; Num distance;
              Lit " miles of "; Str location]
      | Some facilities =>
          let filteredFacilities := byActivityType activityType facilities in
          match detailedForecast with
          | [] => Throw undefinedCondition
          | today :: _ =>
              Ok ([Lit "# Recreation Near "; Str location; Nl; Nl]
                  ++ [Lit "## Current Weather"; Nl;
                      Lit "The current forecast shows "; Str (condition today);
                      Lit " with temperatures "; Lit "from "; Num (minTempF today);
                      Lit "°F to "; Num (maxTempF today); Lit "°F."; Nl; Nl]
                  ++ facilitiesSection distance activityType filteredFacilities)
          end
      end))
  end).

(** The text of the tool's response. *)
Definition findNearbyRecreation (location : string) (distance : Q)
           (activityType : option string) : text :=
  match findNearbyRecreation_try location distance activityType with
  | Ok t => t
  | Throw e => [Lit "Error finding nearby recreation: "; Str (message e)]
  end.
End Tool.

End Nearby.

(** Reading a response: the [k] pieces that follow each occurrence of
    the literal [mark]. *)
Definition isMark (mark : string) (p : piece) : bool :=
  match p with
  | Lit s => String.eqb s mark
  | _ => false
  end.

Fixpoint following (mark : string) (k : nat) (t : text) : list text :=
  match t with
  | [] => []
  | p :: rest =>
      if isMark mark p then firstn k rest :: following mark k rest
      else following mark k rest
  end.


(** Facilities and services for the examples. *)
Definition place (n : string) : Nearby.Facility :=
  {| Nearby.facilityName := n;
     Nearby.facilityDescription := Some "A place by the bay.";
     Nearby.latitude := 378 # 10;
     Nearby.longitude := Qmake (-1224) 10;
     Nearby.facilityPhone := None;
     Nearby.facilityReservationUrl := Some EmptyString |}.

Definition tenPlaces : list Nearby.Facility :=
  map place ["Kirby Cove Campground"; "Bicentennial Campground"; "Haypress Campground";
             "Hawk Campground"; "Rob Hill Campground"; "Muir Woods Trail";
             "Alcatraz Tour"; "Fort Point"; "Angel Island Camp"; "Presidio Trail"].

Definition nearbyServices (detailed : list ForecastDay) (facilities : list Nearby.Facility)
  : Nearby.Services :=
  {| Nearby.get7DayForecastByLocation := fun _ => Ok (Some mayForecast);
     Nearby.getDetailedForecast := fun _ _ => Ok detailed;
     Nearby.getFacilitiesByLocation := fun _ _ _ => Ok (Some facilities) |}.

(** The number that follows "- Plus " for a list of which the first
    [n] are written out. *)
Definition remainder {A : Type} (n : nat) (l : list A) : list text :=
  if Nat.ltb n (List.length l)
  then [[Num (inject_Z (Z.of_nat (List.length l) - Z.of_nat n))]]
  else [].

(** Services that answer with the given lists. *)
Definition servicesWith (alerts : list Alert) (events : list Event.t)
           (campgrounds : list Campground.t) : Services :=
  {| getParkById := fun _ => Ok (Some yosemite);
     getAlertsByPark := fun _ => Ok alerts;
     getEventsByPark := fun _ _ _ => Ok events;
     getCampgroundsByPark := fun _ => Ok campgrounds;
     get7DayForecastByLocation := fun _ => Ok None;
     getDetailedForecast := fun _ => Ok None |}.

Definition roadAlert (n : string) : Alert :=
  {| Visit.title := n; Visit.description := "Closed for the season.";
     Visit.category := "Park Closure" |}.

Definition rangerTalk (n : string) : Event.t :=
  {| Event.title := n; Event.dateStart := "2024-05-04"; Event.location := "Valley" |}.
(* ================================================================== *)
(** ** Properties *)
(* ================================================================== *)

(** *** The host primitives on some inputs *)

Example parseFloat_4_5 : match parseFloat "4.5" with Fin q => Qeq_bool q (9 # 2) | _ => false end = true.
Proof. reflexivity. Qed.
Example parseFloat_abc : parseFloat "abc" = NaN.
Proof. reflexivity. Qed.
Example parseFloat_exp : match parseFloat "  -12.5e-1 mi" with Fin q => Qeq_bool q (- 5 # 4) | _ => false end = true.
Proof. reflexivity. Qed.
Example int_toString_ex : int_toString 2991 = "2991" /\ int_toString 0 = "0" /\ int_toString (-17) = "-17".
Proof. repeat split; reflexivity. Qed.
Example includes_ex : includes (toLowerCase "Mostly Sunny") "sunny" = true.
Proof. reflexivity. Qed.
Example split_ex : map trim (split_comma "Hiking, Biking ,,x") = ["Hiking"; "Biking"; ""; "x"].
Proof. reflexivity. Qed.

Example parse_iso_date_ex :
  IsoHost.parse_iso_date "2024-05-01" = Some (19844 * 86400000) /\
  IsoHost.parse_iso_date "1970-01-01" = Some 0 /\
  IsoHost.parse_iso_date "2024-02-30" = None.
Proof. repeat split; reflexivity. Qed.

Example parse_string_array_ex :
  IsoHost.parse_string_array ("[ " ++ quoted "Hiking" ++ " , " ++ quoted "Biking" ++ " ]")
  = ParsedArray [ItemString "Hiking"; ItemString "Biking"] /\
  IsoHost.parse_string_array "Hiking, Biking" = ParseFailure.
Proof. split; reflexivity. Qed.

Example trailUse_examples :
  (exists t, mapTrailResponse (facility 1 "A Trail" None jsonActivities) "yose" = Ok t /\
             trailUse t = ["Hiking"; "Biking"]) /\
  (exists t, mapTrailResponse (facility 2 "B Trail" None wordActivities) "yose" = Ok t /\
             trailUse t = ["Fishing"; "Hiking"]).
Proof.
  split.
  - set (r := mapTrailResponse _ _). vm_compute in r. subst r.
    eexists. split; reflexivity.
  - set (r := mapTrailResponse _ _). vm_compute in r. subst r.
    eexists. split; reflexivity.
Qed.

(** *** Strings *)

Section StringFacts.
Local Open Scope string_scope.


Lemma startsWith_empty (s : string) : startsWith s EmptyString = true.
Proof. now destruct s. Qed.

Lemma startsWith_app (p post : string) : startsWith (p ++ post) p = true.
Proof.
  induction p as [|c p IH]; simpl.
  - apply startsWith_empty.
  - now rewrite Ascii.eqb_refl.
Qed.

Lemma startsWith_inv (s p : string) :
  startsWith s p = true -> exists post, s = p ++ post.
Proof.
  revert s; induction p as [|b p IH]; intros s Hs.
  - now exists s.
  - destruct s as [|a s]; simpl in Hs; [discriminate|].
    apply andb_true_iff in Hs as [Hab Hrest].
    apply Ascii.eqb_eq in Hab; subst b.
    destruct (IH _ Hrest) as [post ->].
    now exists post.
Qed.

Lemma includes_unfold (s sub : string) :
  includes s sub =
  startsWith s sub ||
  match s with
  | EmptyString => false
  | String _ s' => includes s' sub
  end.
Proof. now destruct s. Qed.

Lemma includes_spec (s sub : string) :
  includes s sub = true <-> exists pre post, s = pre ++ sub ++ post.
Proof.
  split.
  - induction s as [|c s IH]; rewrite includes_unfold; intros Hs;
      apply orb_true_iff in Hs as [Hs|Hs]; try discriminate.
    + apply startsWith_inv in Hs as [post ->]. now exists EmptyString, post.
    + apply startsWith_inv in Hs as [post ->]. now exists EmptyString, post.
    + destruct (IH Hs) as (pre & post & ->).
      now exists (String c pre), post.
  - intros (pre & post & ->).
    induction pre as [|c pre IH].
    + rewrite includes_unfold. simpl append at 1.
      now rewrite startsWith_app.
    + rewrite includes_unfold. cbn [append]. rewrite IH. apply orb_true_r.
Qed.

Lemma toLowerCase_app (a b : string) :
  toLowerCase (a ++ b) = toLowerCase a ++ toLowerCase b.
Proof. induction a as [|c a IH]; simpl; [reflexivity | now rewrite IH]. Qed.

Lemma lower_ascii_idem (c : ascii) : lower_ascii (lower_ascii c) = lower_ascii c.
Proof.
  destruct c as [[] [] [] [] [] [] [] []]; reflexivity.
Qed.

Lemma toLowerCase_idem (s : string) : toLowerCase (toLowerCase s) = toLowerCase s.
Proof.
  induction s as [|c s IH]; simpl; [reflexivity|].
  now rewrite lower_ascii_idem, IH.
Qed.

(** A split of the lower-cased text comes from a split of the text. *)
Lemma toLowerCase_split (t a b : string) :
  toLowerCase t = a ++ b ->
  exists ta tb, t = ta ++ tb /\ toLowerCase ta = a /\ toLowerCase tb = b.
Proof.
  revert t; induction a as [|x a IH]; intros t Ht.
  - exists EmptyString, t. auto.
  - destruct t as [|c t]; simpl in Ht; [discriminate|].
    injection Ht as Hx Ht.
    destruct (IH _ Ht) as (ta & tb & -> & Ha & Hb).
    exists (String c ta), tb. simpl. rewrite Ha, Hx. auto.
Qed.

(** [text.toLowerCase().includes(needle)] decides containment
    without regard to case, for a needle in lower case. *)
Lemma includes_lower_spec (text needle : string) :
  toLowerCase needle = needle ->
  includes (toLowerCase text) needle = true <-> Spec.containsIgnoringCase text needle.
Proof.
  intros Hn. rewrite includes_spec. split.
  - intros (pre & post & E).
    apply toLowerCase_split in E as (tp & rest & -> & _ & E).
    apply toLowerCase_split in E as (tm & tq & -> & Hm & _).
    exists tp, tm, tq. split; [reflexivity | now rewrite Hn].
  - intros (pre & mid & post & -> & Hm).
    exists (toLowerCase pre), (toLowerCase post).
    now rewrite !toLowerCase_app, Hm, Hn.
Qed.

Lemma includes_lower_false (text needle : string) :
  toLowerCase needle = needle ->
  includes (toLowerCase text) needle = false <-> ~ Spec.containsIgnoringCase text needle.
Proof.
  intros Hn. rewrite <- (includes_lower_spec _ _ Hn).
  destruct (includes _ _); split; intros; congruence.
Qed.
End StringFacts.

(** *** Rational comparisons *)

Lemma Qle_bool_false (x y : Q) : Qle_bool x y = false <-> ~ (x <= y)%Q.
Proof.
  rewrite <- Qle_bool_iff. destruct (Qle_bool x y); split; intros; congruence.
Qed.

Lemma Qlt_by_bool (x y : Q) : negb (Qle_bool y x) = true <-> (x < y)%Q.
Proof.
  rewrite negb_true_iff, Qle_bool_false. split.
  - apply Qnot_le_lt.
  - apply Qlt_not_le.
Qed.

Lemma Qlt_by_bool_false (x y : Q) : negb (Qle_bool y x) = false <-> ~ (x < y)%Q.
Proof.
  rewrite <- Qlt_by_bool. destruct (negb _); split; intros; congruence.
Qed.

Lemma in_range_spec (lo hi x : Q) :
  Qle_bool lo x && Qle_bool x hi = true <-> (lo <= x /\ x <= hi)%Q.
Proof. now rewrite andb_true_iff, !Qle_bool_iff. Qed.

Lemma in_range_false (lo hi x : Q) :
  Qle_bool lo x && Qle_bool x hi = false <-> ~ (lo <= x /\ x <= hi)%Q.
Proof.
  rewrite <- in_range_spec. destruct (_ && _); split; intros; congruence.
Qed.

(** *** Rounding of doubles *)

Lemma pow2_Z (n : Z) : 0 <= n -> (pow2 n == inject_Z (2 ^ n))%Q.
Proof. intros Hn. unfold pow2. now rewrite Zpower_Qpower. Qed.

Lemma pow2_pos (k : Z) : (0 < pow2 k)%Q.
Proof. apply Qpower_0_lt. reflexivity. Qed.

Lemma pow2_neg (j : Z) : 0 <= j -> (pow2 (- j) == / inject_Z (2 ^ j))%Q.
Proof. intros Hj. unfold pow2. now rewrite Qpower_opp, Zpower_Qpower. Qed.

Lemma floor_log2_lt (a : Q) (y : Z) :
  0 <= y -> (0 < a)%Q -> (a < inject_Z (2 ^ y))%Q -> floor_log2 a < y.
Proof.
  intros Hy Hpos Hlt. unfold floor_log2.
  destruct a as [n d]. cbn [Qnum Qden].
  assert (Hn : 0 < n) by (unfold Qlt in Hpos; cbn in Hpos; lia).
  assert (Hnd : n < 2 ^ y * Zpos d) by (unfold Qlt in Hlt; cbn in Hlt; lia).
  assert (He0 : Z.log2 n - Z.log2 (Zpos d) <= y).
  { assert (Z.log2 n <= Z.log2 (Zpos d * 2 ^ y)) by (apply Z.log2_le_mono; lia).
    rewrite Z.log2_mul_pow2 in H by lia. lia. }
  destruct (Qle_bool _ _) eqn:E; [|lia].
  apply Qle_bool_iff in E.
  assert (Hp : (pow2 (Z.log2 n - Z.log2 (Zpos d)) < pow2 y)%Q).
  { eapply Qle_lt_trans; [exact E|]. now rewrite pow2_Z. }
  apply Qpower_lt_compat_l_inv in Hp; [exact Hp | reflexivity].
Qed.

Lemma round_half_even_Z (x : Q) (z : Z) : (x == inject_Z z)%Q -> round_half_even x = z.
Proof.
  intros Hx. unfold round_half_even.
  assert (Hf : Qfloor x = z) by (rewrite Hx; apply Qfloor_Z).
  rewrite Hf.
  assert (Hc : (x - inject_Z z ?= 1 # 2)%Q = Lt).
  { rewrite Hx. rewrite <- Qlt_alt. unfold Qminus. rewrite Qplus_opp_r. reflexivity. }
  now rewrite Hc.
Qed.

(** A number with at most 53 significant bits is not rounded. *)
Lemma round64_exact (q : Q) (m k : Z) :
  0 <= k <= 53 -> Z.abs m < 2 ^ 53 ->
  (q == inject_Z m / inject_Z (2 ^ k))%Q ->
  round64 q = Fin (Qred q).
Proof.
  intros Hk Hm Hq. unfold round64.
  destruct (Qeq_bool q 0) eqn:E0.
  { apply Qeq_bool_iff in E0. now rewrite (Qred_complete _ _ E0). }
  assert (Hne : ~ (q == 0)%Q) by (intros H; apply Qeq_bool_iff in H; congruence).
  set (A := Z.abs m).
  assert (H2k : 0 < 2 ^ k) by (apply Z.pow_pos_nonneg; lia).
  assert (H2kQ : (0 < inject_Z (2 ^ k))%Q) by (change 0%Q with (inject_Z 0); rewrite <- Zlt_Qlt; exact H2k).
  assert (Ha : (Qabs q == inject_Z A / inject_Z (2 ^ k))%Q).
  { rewrite Hq. unfold Qdiv. rewrite Qabs_Qmult, Qabs_Qinv.
    rewrite (Qabs_pos (inject_Z (2 ^ k))) by (apply Qlt_le_weak; exact H2kQ).
    reflexivity. }
  assert (Hapos : (0 < Qabs q)%Q).
  { destruct (Qlt_le_dec 0 (Qabs q)) as [H|H]; [exact H|].
    exfalso. apply Hne. apply Qabs_Qle_condition in H. destruct H as [H1 H2].
    apply Qle_antisym; assumption. }
  assert (Halt : (Qabs q < inject_Z (2 ^ (53 - k)))%Q).
  { rewrite Ha. apply Qlt_shift_div_r; [exact H2kQ|].
    rewrite <- inject_Z_mult, <- Zlt_Qlt, <- Z.pow_add_r by lia.
    replace (53 - k + k) with 53 by lia. exact Hm. }
  pose proof (floor_log2_lt (Qabs q) (53 - k) ltac:(lia) Hapos Halt) as He.
  set (E := Z.max (floor_log2 (Qabs q)) (-1022)) in *.
  assert (HE : E <= 52 - k) by lia.
  set (j := 52 - E).
  assert (Hj : k <= j) by lia.
  assert (Hulp : (pow2 (E - 52) == / inject_Z (2 ^ j))%Q).
  { replace (E - 52) with (- j) by lia. apply pow2_neg. lia. }
  set (M := A * 2 ^ (j - k)).
  assert (H2j : (0 < inject_Z (2 ^ j))%Q)
    by (change 0%Q with (inject_Z 0); rewrite <- Zlt_Qlt; apply Z.pow_pos_nonneg; lia).
  assert (Hsplit : (inject_Z (2 ^ j) == inject_Z (2 ^ (j - k)) * inject_Z (2 ^ k))%Q).
  { rewrite <- inject_Z_mult, <- Z.pow_add_r by lia. now replace (j - k + k) with j by lia. }
  assert (Hx : (Qabs q / pow2 (E - 52) == inject_Z M)%Q).
  { assert (HP : ~ (inject_Z (2 ^ k) == 0)%Q)
      by (apply Qnot_eq_sym, Qlt_not_eq; exact H2kQ).
    assert (HR : ~ (inject_Z (2 ^ (j - k)) == 0)%Q).
    { apply Qnot_eq_sym, Qlt_not_eq. change 0%Q with (inject_Z 0).
      rewrite <- Zlt_Qlt. apply Z.pow_pos_nonneg; lia. }
    rewrite Hulp, Ha. unfold M. rewrite inject_Z_mult, Hsplit.
    field. tauto. }
  rewrite (round_half_even_Z _ _ Hx).
  assert (Hr : (inject_Z M * pow2 (E - 52) == Qabs q)%Q).
  { rewrite <- Hx. field. apply Qnot_eq_sym, Qlt_not_eq, pow2_pos. }
  assert (Hover : Qle_bool (pow2 1024) (inject_Z M * pow2 (E - 52)) = false).
  { destruct (Qle_bool _ _) eqn:Eo; [|reflexivity]. exfalso.
    apply Qle_bool_iff in Eo. rewrite Hr in Eo.
    assert (Hlt : (Qabs q < pow2 1024)%Q).
    { eapply Qlt_trans; [exact Halt|]. rewrite <- pow2_Z by lia.
      apply Qpower_lt_compat_l; [lia | reflexivity]. }
    apply (Qlt_not_le _ _ Hlt Eo). }
  rewrite Hover. f_equal. apply Qred_complete.
  destruct (Qle_bool 0 q) eqn:Es.
  - apply Qle_bool_iff in Es. rewrite Hr. now apply Qabs_pos.
  - assert (Hs : (q <= 0)%Q).
    { destruct (Qlt_le_dec 0 q) as [H|H]; [|exact H].
      apply Qlt_le_weak, Qle_bool_iff in H. congruence. }
    rewrite Hr, (Qabs_neg _ Hs). apply Qopp_involutive.
Qed.

(** The average is not rounded when the two temperatures are whole
    multiples of [1 / 2^k] and their sum has at most 53 bits. *)
Lemma computedAverage_exact (day : ForecastDay) (lo hi k : Z) :
  0 <= k <= 52 -> Z.abs (hi + lo) < 2 ^ 53 ->
  (minTempF day == inject_Z lo / inject_Z (2 ^ k))%Q ->
  (maxTempF day == inject_Z hi / inject_Z (2 ^ k))%Q ->
  exists avg, computedAverage day = Fin avg /\ (avg == Spec.averageTemp day)%Q.
Proof.
  intros Hk Hsum Hlo Hhi.
  assert (H2k : ~ (inject_Z (2 ^ k) == 0)%Q).
  { apply Qnot_eq_sym, Qlt_not_eq. change 0%Q with (inject_Z 0).
    rewrite <- Zlt_Qlt. apply Z.pow_pos_nonneg; lia. }
  assert (Hs : (maxTempF day + minTempF day == inject_Z (hi + lo) / inject_Z (2 ^ k))%Q).
  { rewrite Hlo, Hhi, inject_Z_plus. field. exact H2k. }
  unfold computedAverage, num_add.
  rewrite (round64_exact _ (hi + lo) k ltac:(lia) Hsum Hs). cbn [num_half].
  assert (Hh : (Qred (maxTempF day + minTempF day) / 2
                == inject_Z (hi + lo) / inject_Z (2 ^ (k + 1)))%Q).
  { rewrite Qred_correct, Hs, Z.pow_add_r, inject_Z_mult by lia.
    change (inject_Z (2 ^ 1)) with 2%Q. field. exact H2k. }
  rewrite (round64_exact _ (hi + lo) (k + 1) ltac:(lia) Hsum Hh).
  eexists. split; [reflexivity|].
  rewrite !Qred_correct. unfold Spec.averageTemp.
  now rewrite (Qplus_comm (maxTempF day)).
Qed.

(** *** The scorer *)

Lemma scoreDay_sum (day : ForecastDay) :
  score (scoreDay day) = tempPoints day + rainPoints day + conditionPoints day.
Proof.
  unfold scoreDay, tempPoints, computedAverage, rainPoints, conditionPoints; cbn [score].
  repeat match goal with |- context [if ?b then _ else _] => destruct b end; lia.
Qed.

Lemma within_spec (lo hi : Q) (x : number) :
  num_ge x (Fin lo) && num_le x (Fin hi) = true <-> Spec.within lo hi x.
Proof.
  unfold Spec.within, num_ge. destruct x as [| |q|]; cbn [num_le].
  - split; [discriminate | intros (q & Hq & _); discriminate].
  - split; [discriminate | intros (q & Hq & _); discriminate].
  - rewrite in_range_spec. split.
    + intros Hq. now exists q.
    + intros (q' & [= <-] & Hq). exact Hq.
  - split; [discriminate | intros (q & Hq & _); discriminate].
Qed.

Lemma within_false (lo hi : Q) (x : number) :
  num_ge x (Fin lo) && num_le x (Fin hi) = false <-> ~ Spec.within lo hi x.
Proof.
  rewrite <- within_spec. destruct (_ && _); split; intros; congruence.
Qed.

Lemma within_Fin (lo hi q : Q) : Spec.within lo hi (Fin q) <-> (lo <= q /\ q <= hi)%Q.
Proof.
  unfold Spec.within. split.
  - intros (q' & [= <-] & Hq). exact Hq.
  - intros Hq. now exists q.
Qed.

Lemma tempPoints_spec (day : ForecastDay) :
  Spec.temperature_term_of (computedAverage day) (tempPoints day).
Proof.
  unfold tempPoints; cbv zeta.
  destruct (num_ge _ (Fin 65) && num_le _ (Fin 80)) eqn:E1.
  - apply within_spec in E1. now apply Spec.temp_of_ideal.
  - apply within_false in E1.
    destruct (num_ge _ (Fin 50) && num_le _ (Fin 85)) eqn:E2.
    + apply within_spec in E2. now apply Spec.temp_of_fair.
    + apply within_false in E2. now apply Spec.temp_of_poor.
Qed.

Lemma rainPoints_spec (day : ForecastDay) :
  Spec.precipitation_term (chanceOfRain day) (rainPoints day).
Proof.
  unfold rainPoints.
  destruct (negb (Qle_bool 20 _)) eqn:E1.
  { apply Qlt_by_bool in E1. now apply Spec.rain_low. }
  apply Qlt_by_bool_false in E1.
  destruct (negb (Qle_bool 40 _)) eqn:E2.
  { apply Qlt_by_bool in E2. now apply Spec.rain_some. }
  apply Qlt_by_bool_false in E2.
  destruct (negb (Qle_bool 60 _)) eqn:E3.
  { apply Qlt_by_bool in E3. now apply Spec.rain_more. }
  apply Qlt_by_bool_false in E3. now apply Spec.rain_high.
Qed.

Lemma goodConditions_spec (cond : string) :
  existsb (fun c => includes (toLowerCase cond) c) goodConditions = true
  <-> Spec.goodCondition cond.
Proof.
  unfold goodConditions, Spec.goodCondition; simpl existsb.
  rewrite !orb_true_iff, !includes_lower_spec by reflexivity.
  intuition discriminate.
Qed.

Lemma conditionPoints_spec (day : ForecastDay) :
  Spec.condition_bonus (condition day) (conditionPoints day).
Proof.
  unfold conditionPoints.
  destruct (existsb _ goodConditions) eqn:E.
  - apply Spec.bonus_good. now apply goodConditions_spec.
  - apply Spec.bonus_none. rewrite <- goodConditions_spec. congruence.
Qed.

(** Each term of the specification is determined by the day. *)
Lemma temperature_term_fun (avg : Q) (a b : Z) :
  Spec.temperature_term avg a -> Spec.temperature_term avg b -> a = b.
Proof. intros [] []; tauto. Qed.

Lemma precipitation_term_fun (rain : Q) (a b : Z) :
  Spec.precipitation_term rain a -> Spec.precipitation_term rain b -> a = b.
Proof.
  intros Ha Hb.
  assert (H24 : (rain < 20 -> rain < 40)%Q) by (intro; eapply Qlt_trans; [eassumption|reflexivity]).
  assert (H46 : (rain < 40 -> rain < 60)%Q) by (intro; eapply Qlt_trans; [eassumption|reflexivity]).
  destruct Ha, Hb; tauto.
Qed.

Lemma temperature_term_of_fun (avg : number) (a b : Z) :
  Spec.temperature_term_of avg a -> Spec.temperature_term_of avg b -> a = b.
Proof. intros [] []; tauto. Qed.

Lemma temperature_term_of_Fin (q : Q) (t : Z) :
  Spec.temperature_term_of (Fin q) t <-> Spec.temperature_term q t.
Proof.
  split.
  - intros [H1 | H1 H2 | H1 H2]; rewrite !within_Fin in *;
      [now apply Spec.temp_ideal | now apply Spec.temp_fair | now apply Spec.temp_poor].
  - intros [H1 | H1 H2 | H1 H2]; rewrite <- !within_Fin in *;
      [now apply Spec.temp_of_ideal | now apply Spec.temp_of_fair
       | now apply Spec.temp_of_poor].
Qed.

Lemma temperature_term_Qeq (x y : Q) (t : Z) :
  (x == y)%Q -> Spec.temperature_term x t -> Spec.temperature_term y t.
Proof.
  intros Hxy [H1 | H1 H2 | H1 H2]; rewrite Hxy in *;
    [now apply Spec.temp_ideal | now apply Spec.temp_fair | now apply Spec.temp_poor].
Qed.

Lemma condition_bonus_fun (cond : string) (a b : Z) :
  Spec.condition_bonus cond a -> Spec.condition_bonus cond b -> a = b.
Proof. intros [] []; tauto. Qed.

(** C1, as the code has it.  Every forecast day gets one entry of the
    scored list, with its date, and the entry's score is the sum of
    the temperature term, the precipitation term and the condition
    bonus of the specification, whichever way these three are
    determined.  The temperature term is that of the average as the
    program computes it, the rounded sum of the two temperatures,
    halved; when this equals the exact average, as it does for
    temperatures that are whole numbers or whole multiples of 1/2^k
    with a sum of at most 53 bits, the term is the one of the exact
    average.  A day whose computed average is 70, with rain
    chance 10 and condition "Sunny", scores 8, and one whose computed
    average is 95, with rain chance 80 and condition "Stormy",
    scores 1. *)
Theorem score_is_sum_of_three_terms :
  (forall days : list ForecastDay,
      Forall2 (fun day entry =>
                 sd_date entry = date day /\
                 exists t p c,
                   Spec.temperature_term_of (computedAverage day) t /\
                   Spec.precipitation_term (chanceOfRain day) p /\
                   Spec.condition_bonus (condition day) c /\
                   score entry = t + p + c)
              days (scoreDays (Some days))) /\
  (forall (day : ForecastDay) (t p c : Z),
      Spec.temperature_term_of (computedAverage day) t ->
      Spec.precipitation_term (chanceOfRain day) p ->
      Spec.condition_bonus (condition day) c ->
      score (scoreDay day) = t + p + c) /\
  (forall (day : ForecastDay) (avg : Q) (t : Z),
      computedAverage day = Fin avg -> (avg == Spec.averageTemp day)%Q ->
      (Spec.temperature_term_of (computedAverage day) t <->
       Spec.temperature_term (Spec.averageTemp day) t)) /\
  (forall (day : ForecastDay) (lo hi k t p c : Z),
      0 <= k <= 52 -> Z.abs (hi + lo) < 2 ^ 53 ->
      (minTempF day == inject_Z lo / inject_Z (2 ^ k))%Q ->
      (maxTempF day == inject_Z hi / inject_Z (2 ^ k))%Q ->
      Spec.temperature_term (Spec.averageTemp day) t ->
      Spec.precipitation_term (chanceOfRain day) p ->
      Spec.condition_bonus (condition day) c ->
      score (scoreDay day) = t + p + c) /\
  (forall (day : ForecastDay) (avg : Q),
      computedAverage day = Fin avg ->
      (avg == 70)%Q -> (chanceOfRain day == 10)%Q -> condition day = "Sunny" ->
      score (scoreDay day) = 8) /\
  (forall (day : ForecastDay) (avg : Q),
      computedAverage day = Fin avg ->
      (avg == 95)%Q -> (chanceOfRain day == 80)%Q -> condition day = "Stormy" ->
      score (scoreDay day) = 1).
Proof.
  assert (Hall : forall (day : ForecastDay) (t p c : Z),
             Spec.temperature_term_of (computedAverage day) t ->
             Spec.precipitation_term (chanceOfRain day) p ->
             Spec.condition_bonus (condition day) c ->
             score (scoreDay day) = t + p + c).
  { intros day t p c Ht Hp Hc. rewrite scoreDay_sum.
    rewrite (temperature_term_of_fun _ _ _ Ht (tempPoints_spec day)).
    rewrite (precipitation_term_fun _ _ _ Hp (rainPoints_spec day)).
    now rewrite (condition_bonus_fun _ _ _ Hc (conditionPoints_spec day)). }
  assert (Hexact : forall (day : ForecastDay) (avg : Q) (t : Z),
             computedAverage day = Fin avg -> (avg == Spec.averageTemp day)%Q ->
             (Spec.temperature_term_of (computedAverage day) t <->
              Spec.temperature_term (Spec.averageTemp day) t)).
  { intros day avg t Havg Hex. rewrite Havg, temperature_term_of_Fin.
    split; apply temperature_term_Qeq; [exact Hex | now symmetry]. }
  split; [|split; [exact Hall|split; [exact Hexact|split; [|split]]]].
  - intros days. unfold scoreDays. destruct days as [|d ds]; [constructor|].
    generalize (d :: ds). clear d ds.
    induction l as [|day l IH]; cbn [map]; constructor; [|exact IH].
    split; [reflexivity|].
    exists (tempPoints day), (rainPoints day), (conditionPoints day).
    repeat split.
    + apply tempPoints_spec.
    + apply rainPoints_spec.
    + apply conditionPoints_spec.
    + apply scoreDay_sum.
  - intros day lo hi k t p c Hk Hsum Hlo Hhi Ht Hp Hc.
    destruct (computedAverage_exact day lo hi k Hk Hsum Hlo Hhi) as (avg & Havg & Hex).
    apply Hall; [|exact Hp | exact Hc].
    now apply (Hexact day avg t Havg Hex).
  - intros day avg Havg Ha Hr Hc. apply (Hall day 3 3 2).
    + rewrite Havg. apply Spec.temp_of_ideal, within_Fin.
      rewrite Ha. split; discriminate.
    + apply Spec.rain_low. rewrite Hr. reflexivity.
    + apply Spec.bonus_good. rewrite Hc. left.
      apply (includes_lower_spec "Sunny" "sunny"); reflexivity.
  - intros day avg Havg Ha Hr Hc. apply (Hall day 1 0 0).
    + rewrite Havg.
      apply Spec.temp_of_poor; rewrite within_Fin, Ha; intros [H1 H2]; now apply H2.
    + apply Spec.rain_high. rewrite Hr. intros H; discriminate H.
    + apply Spec.bonus_none. rewrite Hc. intros [H|[H|H]];
        apply includes_lower_spec in H; try reflexivity; discriminate H.
Qed.

Lemma score_examples :
  map score (scoreDays (Some [sunnyDay; stormyDay])) = [8; 1] /\
  score (scoreDay sunnyDay) = 8 /\ score (scoreDay stormyDay) = 1 /\
  score (scoreDay sunnyDay) = 3 + 3 + 2.
Proof.
  destruct score_is_sum_of_three_terms as (_ & _ & _ & Hwhole & Hsunny & Hstormy).
  assert (H8 : score (scoreDay sunnyDay) = 8)
    by (apply (Hsunny sunnyDay 70%Q); [vm_compute; reflexivity | reflexivity ..]).
  assert (H1 : score (scoreDay stormyDay) = 1)
    by (apply (Hstormy stormyDay 95%Q); [vm_compute; reflexivity | reflexivity ..]).
  split; [|split; [exact H8 | split; [exact H1|]]].
  - cbn [scoreDays map]. now rewrite H8, H1.
  - apply (Hwhole sunnyDay 60 80 0).
    + lia.
    + reflexivity.
    + reflexivity.
    + reflexivity.
    + apply Spec.temp_ideal. split; discriminate.
    + apply Spec.rain_low. reflexivity.
    + apply Spec.bonus_good. left.
      apply (includes_lower_spec "Sunny" "sunny"); reflexivity.
Defined.

(** C1, as stated, fails: the day with the temperatures 80 and
    80.00000000000001 has an average above 80, for which the three
    terms of the specification are 2, 3 and 2, but the sum of the two
    temperatures rounds to 160, the program's average is 80 and the
    day scores 8. *)
Lemma rounded_average_scores_higher :
  (80 < Spec.averageTemp roundingDay)%Q /\
  (forall t p c,
      Spec.temperature_term (Spec.averageTemp roundingDay) t ->
      Spec.precipitation_term (chanceOfRain roundingDay) p ->
      Spec.condition_bonus (condition roundingDay) c ->
      t + p + c = 7) /\
  computedAverage roundingDay = Fin 80 /\
  score (scoreDay roundingDay) = 8.
Proof.
  split; [reflexivity|]. split; [|split; [vm_compute; reflexivity | vm_compute; reflexivity]].
  intros t p c Ht Hp Hc.
  assert (Et : t = 2).
  { apply (temperature_term_fun _ _ _ Ht). apply Spec.temp_fair.
    - intros [_ H]. now apply H.
    - split; discriminate. }
  assert (Ep : p = 3).
  { apply (precipitation_term_fun _ _ _ Hp). now apply Spec.rain_low. }
  assert (Ec : c = 2).
  { apply (condition_bonus_fun _ _ _ Hc). apply Spec.bonus_good. left.
    apply (includes_lower_spec "Sunny" "sunny"); reflexivity. }
  lia.
Qed.

(** *** Ranking *)

Section SortFacts.
Context {A : Type} (cmp : A -> A -> Z).

Lemma sort_insert_perm (x : A) (l : list A) :
  Permutation (x :: l) (sort_insert cmp x l).
Proof.
  induction l as [|y l IH]; simpl.
  - apply Permutation_refl.
  - destruct (0 <? cmp x y).
    + apply perm_trans with (y :: x :: l); [apply perm_swap|].
      now apply perm_skip.
    + apply Permutation_refl.
Qed.

Lemma Array_sort_perm (l : list A) : Permutation l (Array_sort cmp l).
Proof.
  induction l as [|x l IH]; simpl.
  - apply perm_nil.
  - apply perm_trans with (x :: Array_sort cmp l).
    + now apply perm_skip.
    + apply sort_insert_perm.
Qed.

(** An element only moves past elements it compares greater than, so
    a selection [sel] that never separates two such elements is left
    in its order. *)
Lemma sort_insert_filter (sel : A -> bool) (x : A) (l : list A) :
  (forall a b, 0 < cmp a b -> sel a = true -> sel b = true -> False) ->
  filter sel (sort_insert cmp x l) = filter sel (x :: l).
Proof.
  intros Hsel. induction l as [|y l IH]; [reflexivity|].
  cbn [sort_insert]. destruct (0 <? cmp x y) eqn:E; [|reflexivity].
  apply Z.ltb_lt in E.
  cbn [filter] in *. rewrite IH.
  destruct (sel x) eqn:Ex, (sel y) eqn:Ey; try reflexivity.
  exfalso. now apply (Hsel x y).
Qed.

Lemma Array_sort_filter (sel : A -> bool) (l : list A) :
  (forall a b, 0 < cmp a b -> sel a = true -> sel b = true -> False) ->
  filter sel (Array_sort cmp l) = filter sel l.
Proof.
  intros Hsel. induction l as [|x l IH]; [reflexivity|].
  cbn [Array_sort]. rewrite sort_insert_filter by exact Hsel.
  cbn [filter]. now rewrite IH.
Qed.
End SortFacts.

Lemma sort_insert_sorted (x : ScoredDay) (l : list ScoredDay) :
  StronglySorted scoreAtLeast l ->
  StronglySorted scoreAtLeast (sort_insert byScoreDesc x l).
Proof.
  induction 1 as [|y l Hl IH Hy]; cbn [sort_insert].
  - constructor; constructor.
  - unfold byScoreDesc at 1.
    destruct (0 <? score y - score x) eqn:E.
    + apply Z.ltb_lt in E. constructor; [exact IH|].
      apply (Permutation_Forall (sort_insert_perm byScoreDesc x l)).
      constructor; [unfold scoreAtLeast; lia | exact Hy].
    + apply Z.ltb_ge in E. constructor.
      * now constructor.
      * constructor; [unfold scoreAtLeast; lia|].
        eapply Forall_impl; [|exact Hy].
        unfold scoreAtLeast; intros; lia.
Qed.

Lemma Array_sort_sorted (l : list ScoredDay) :
  StronglySorted scoreAtLeast (Array_sort byScoreDesc l).
Proof.
  induction l as [|x l IH]; cbn [Array_sort].
  - constructor.
  - now apply sort_insert_sorted.
Qed.

(** C2.  Ranking reorders the scored days so that higher scores come
    first, and the days of any one score keep the order they had in the
    input. *)
Theorem ranking_is_stable_descending_sort (detailedForecast : option (list ForecastDay)) :
  Permutation (scoreDays detailedForecast) (rankDays detailedForecast) /\
  StronglySorted scoreAtLeast (rankDays detailedForecast) /\
  forall s : Z,
    filter (fun d => score d =? s) (rankDays detailedForecast) =
    filter (fun d => score d =? s) (scoreDays detailedForecast).
Proof.
  unfold rankDays. repeat split.
  - apply Array_sort_perm.
  - apply Array_sort_sorted.
  - intros s. apply Array_sort_filter.
    unfold byScoreDesc. intros a b Hab Ha Hb.
    apply Z.eqb_eq in Ha, Hb. lia.
Qed.

(** Three days, the first and the last of equal score: the better day
    comes first and the two others stay in their order. *)
Example ranking_example :
  map sd_date (rankDays (Some [stormyDay; sunnyDay;
                               {| date := "2024-05-05"; minTempF := 95; maxTempF := 99;
                                  condition := "Humid"; chanceOfRain := 90 |}]))
  = ["2024-05-03"; "2024-05-04"; "2024-05-05"].
Proof. reflexivity. Qed.

(** *** The report composer *)

Section Composer.
Context `{Host}.

Lemma planParkVisit_ok (svc : Services) (code : string) (sd ed : option string)
      (park : Park) (alerts : list Alert) (forecast detailed : option (list ForecastDay)) :
  getParkById svc code = Ok (Some park) ->
  getAlertsByPark svc code = Ok alerts ->
  get7DayForecastByLocation svc (Visit.name park) = Ok forecast ->
  getDetailedForecast svc (Visit.name park) = Ok detailed ->
  planParkVisit svc code sd ed =
  reportHeading park ++ alertsSection alerts ++ outlookSection forecast
    ++ recommendedSection (rankDays detailed) ++ tipsSection park
    ++ tripSection sd ed forecast.
Proof.
  intros Hp Ha Hf Hd. unfold planParkVisit, planParkVisit_try.
  rewrite Hp; cbn [bind]. rewrite Ha; cbn [bind]. rewrite Hf; cbn [bind].
  rewrite Hd; cbn [bind]. reflexivity.
Qed.

Lemma outlook_unavailable (forecast : option (list ForecastDay)) :
  forecast = None \/ forecast = Some [] ->
  outlookSection forecast =
  [Lit "## 7-Day Weather Outlook"; Nl; forecastUnavailable; Nl; Nl].
Proof. intros [-> | ->]; reflexivity. Qed.

Lemma getParkOverview_ok (svc : Services) (code : string) (park : Park)
      (alerts : list Alert) (forecast : option (list ForecastDay))
      (events : list Event.t) (campgrounds : list Campground.t) :
  getParkById svc code = Ok (Some park) ->
  getAlertsByPark svc code = Ok alerts ->
  get7DayForecastByLocation svc (Visit.name park) = Ok forecast ->
  getEventsByPark svc code Date_today Date_in_two_weeks = Ok events ->
  getCampgroundsByPark svc code = Ok campgrounds ->
  getParkOverview svc code =
  overviewHeading park ++ overviewAbout park ++ overviewAlerts alerts
    ++ overviewForecast forecast ++ overviewEvents events
    ++ overviewCampgrounds campgrounds.
Proof.
  intros Hp Ha Hf He Hc. unfold getParkOverview, getParkOverview_try.
  rewrite Hp; cbn [bind]. rewrite Ha; cbn [bind]. rewrite Hf; cbn [bind].
  rewrite He; cbn [bind]. rewrite Hc; cbn [bind]. reflexivity.
Qed.

Lemma overviewForecast_unavailable (forecast : option (list ForecastDay)) :
  forecast = None \/ forecast = Some [] ->
  In forecastUnavailable (overviewForecast forecast).
Proof. intros [-> | ->]; simpl; auto 10. Qed.

(** C3, as the code has it.  Once the park is found, an empty source
    does not make a tool fail.  With all its sources fetched,
    [planParkVisit] returns a complete report, whose outlook says
    "Weather forecast not available." when the forecast is missing
    or empty and whose alerts section is left out when no alert is a
    closure; [getParkOverview] returns a complete overview with a
    notice for each of the alerts, forecast, events and campgrounds
    that is empty.  When the fetch of a source fails, the response of
    either tool is its error text and no report. *)
Theorem report_survives_empty_sources_only
        (svc : Services) (code : string) (sd ed : option string) (park : Park) :
  getParkById svc code = Ok (Some park) ->
  (forall alerts forecast detailed,
      getAlertsByPark svc code = Ok alerts ->
      get7DayForecastByLocation svc (Visit.name park) = Ok forecast ->
      getDetailedForecast svc (Visit.name park) = Ok detailed ->
      isReport park (planParkVisit svc code sd ed) /\
      (forecast = None \/ forecast = Some [] ->
       In forecastUnavailable (planParkVisit svc code sd ed)) /\
      (closureAlerts alerts = [] ->
       planParkVisit svc code sd ed =
       reportHeading park ++ outlookSection forecast
         ++ recommendedSection (rankDays detailed) ++ tipsSection park
         ++ tripSection sd ed forecast)) /\
  (forall alerts forecast events campgrounds,
      getAlertsByPark svc code = Ok alerts ->
      get7DayForecastByLocation svc (Visit.name park) = Ok forecast ->
      getEventsByPark svc code Date_today Date_in_two_weeks = Ok events ->
      getCampgroundsByPark svc code = Ok campgrounds ->
      isOverview park (getParkOverview svc code) /\
      (alerts = [] -> In noAlerts (getParkOverview svc code)) /\
      (forecast = None \/ forecast = Some [] ->
       In forecastUnavailable (getParkOverview svc code)) /\
      (events = [] -> In noEvents (getParkOverview svc code)) /\
      (campgrounds = [] -> In noCampgrounds (getParkOverview svc code))) /\
  (forall e, getAlertsByPark svc code = Throw e ->
             planParkVisit svc code sd ed = errorText e /\
             getParkOverview svc code = overviewErrorText e) /\
  (forall alerts e,
      getAlertsByPark svc code = Ok alerts ->
      get7DayForecastByLocation svc (Visit.name park) = Throw e ->
      planParkVisit svc code sd ed = errorText e /\
      getParkOverview svc code = overviewErrorText e) /\
  (forall alerts forecast e,
      getAlertsByPark svc code = Ok alerts ->
      get7DayForecastByLocation svc (Visit.name park) = Ok forecast ->
      (getDetailedForecast svc (Visit.name park) = Throw e ->
       planParkVisit svc code sd ed = errorText e) /\
      (getEventsByPark svc code Date_today Date_in_two_weeks = Throw e ->
       getParkOverview svc code = overviewErrorText e) /\
      (forall events,
          getEventsByPark svc code Date_today Date_in_two_weeks = Ok events ->
          getCampgroundsByPark svc code = Throw e ->
          getParkOverview svc code = overviewErrorText e)).
Proof.
  intros Hp. split; [|split; [|split; [|split]]].
  - intros alerts forecast detailed Ha Hf Hd.
    pose proof (planParkVisit_ok _ _ sd ed _ _ _ _ Hp Ha Hf Hd) as E.
    split; [|split].
    + eexists. exact E.
    + intros Hempty. rewrite E, (outlook_unavailable _ Hempty).
      apply in_or_app; right. apply in_or_app; right.
      apply in_or_app; left. simpl; auto.
    + intros Hnone. rewrite E. unfold alertsSection. now rewrite Hnone.
  - intros alerts forecast events campgrounds Ha Hf He Hc.
    pose proof (getParkOverview_ok _ _ _ _ _ _ _ Hp Ha Hf He Hc) as E.
    split; [eexists; exact E|]. rewrite E, !in_app_iff.
    split; [|split; [|split]].
    + intros ->. right; right; left. simpl; auto 10.
    + intros Hempty. right; right; right; left.
      now apply overviewForecast_unavailable.
    + intros ->. right; right; right; right; left. simpl; auto 10.
    + intros ->. right; right; right; right; right. simpl; auto 10.
  - intros e Ha.
    unfold planParkVisit, planParkVisit_try, getParkOverview, getParkOverview_try.
    rewrite Hp; cbn [bind]. now rewrite Ha.
  - intros alerts e Ha Hf.
    unfold planParkVisit, planParkVisit_try, getParkOverview, getParkOverview_try.
    rewrite Hp; cbn [bind]. rewrite Ha; cbn [bind]. now rewrite Hf.
  - intros alerts forecast e Ha Hf.
    unfold planParkVisit, planParkVisit_try, getParkOverview, getParkOverview_try.
    rewrite Hp; cbn [bind]. rewrite Ha; cbn [bind]. rewrite Hf; cbn [bind].
    split; [|split].
    + now intros ->.
    + now intros ->.
    + intros events -> Hc. cbn [bind]. now rewrite Hc.
Qed.

(** C4, as the code has it.  The closure subset holds exactly the
    alerts whose title contains "closure" or "closed", or whose
    category contains "closure", case-insensitively. *)
Theorem closure_filter_selects (alerts : list Alert) (a : Alert) :
  In a (closureAlerts alerts) <->
  In a alerts /\
  (Spec.containsIgnoringCase (title a) "closure" \/
   Spec.containsIgnoringCase (title a) "closed" \/
   Spec.containsIgnoringCase (category a) "closure").
Proof.
  unfold closureAlerts, isClosureAlert. rewrite filter_In.
  rewrite !orb_true_iff, !includes_lower_spec by reflexivity.
  tauto.
Qed.
End Composer.

(** C3, as stated, fails: with the alert request rejected and all else
    well, the response of either tool is an error text and not a
    report; and with no alert at all the visit report says nothing
    about alerts. *)
Lemma failed_alerts_abort_the_report :
  (planParkVisit alertsDown "yose" None None =
   [Lit "Error planning park visit: "; Str "HTTP 503"] /\
   ~ isReport yosemite (planParkVisit alertsDown "yose" None None) /\
   ~ In forecastUnavailable (planParkVisit alertsDown "yose" None None)) /\
  (getParkOverview alertsDown "yose" =
   [Lit "Error retrieving park overview: "; Str "HTTP 503"] /\
   ~ isOverview yosemite (getParkOverview alertsDown "yose")) /\
  (isReport yosemite (planParkVisit (servicesUp [] (Some mayForecast)) "yose" None None) /\
   ~ In alertsHeading (planParkVisit (servicesUp [] (Some mayForecast)) "yose" None None) /\
   ~ In noAlerts (planParkVisit (servicesUp [] (Some mayForecast)) "yose" None None)).
Proof.
  split; [|split].
  - split; [reflexivity|]. split.
    + intros [rest Hrest]. discriminate Hrest.
    + simpl. intros [Hx|[Hx|[]]]; discriminate Hx.
  - split; [reflexivity|].
    intros [rest Hrest]. discriminate Hrest.
  - split; [eexists; reflexivity|].
    split; vm_compute; intuition discriminate.
Qed.

Lemma report_survives_empty_forecast :
  isReport yosemite (planParkVisit (servicesUp [] None) "yose" None None) /\
  In forecastUnavailable (planParkVisit (servicesUp [] None) "yose" None None) /\
  In noEvents (getParkOverview (servicesUp [] None) "yose") /\
  planParkVisit alertsDown "yose" None None = errorText (HttpError "HTTP 503").
Proof.
  destruct (report_survives_empty_sources_only
              (servicesUp [] None) "yose" None None yosemite eq_refl)
    as (Hup & Hover & _).
  destruct (Hup [] None None eq_refl eq_refl eq_refl) as (Hrep & Hna & _).
  destruct (Hover [] None [] [] eq_refl eq_refl eq_refl eq_refl)
    as (_ & _ & _ & Hev & _).
  destruct (report_survives_empty_sources_only
              alertsDown "yose" None None yosemite eq_refl)
    as (_ & _ & Hdown & _).
  split; [exact Hrep|]. split; [apply Hna; now left|].
  split; [now apply Hev|].
  now apply Hdown.
Defined.

(** C4, as stated, fails: an alert whose category is "Closed" is a
    closure in the specification's words and is not selected. *)
Lemma category_closed_is_not_selected :
  Spec.closureAsSpecified closedByCategory /\
  closureAlerts [closedByCategory] = [].
Proof.
  split; [|reflexivity].
  right; right; right.
  apply (includes_lower_spec "Closed" "closed"); reflexivity.
Qed.

(** *** Reading a response text *)

Lemma following_cons (mark : string) (k : nat) (p : piece) (t : text) :
  following mark k (p :: t)
  = if isMark mark p then firstn k t :: following mark k t else following mark k t.
Proof. reflexivity. Qed.

Lemma following_skip (mark : string) (k : nat) (l t : text) :
  Forall (fun p => isMark mark p = false) l ->
  following mark k (l ++ t) = following mark k t.
Proof.
  induction 1 as [|p l Hp _ IH]; [reflexivity|].
  cbn [app following]. now rewrite Hp.
Qed.

Lemma following_none (mark : string) (k : nat) (l : text) :
  Forall (fun p => isMark mark p = false) l -> following mark k l = [].
Proof.
  intros Hl. rewrite <- (app_nil_r l). now rewrite following_skip.
Qed.

Lemma following_hit (mark : string) (k : nat) (p : piece) (l t : text) :
  isMark mark p = true -> Forall (fun p => isMark mark p = false) l ->
  (k <= List.length l)%nat ->
  following mark k ((p :: l) ++ t) = firstn k l :: following mark k t.
Proof.
  intros Hp Hl Hk. cbn [app following]. rewrite Hp, following_skip by exact Hl.
  rewrite firstn_app. replace (k - List.length l)%nat with 0%nat by lia.
  cbn [firstn]. now rewrite app_nil_r.
Qed.

Lemma following_app1 (mark : string) (l t : text) :
  isMark mark (last l Nl) = false ->
  following mark 1 (l ++ t) = following mark 1 l ++ following mark 1 t.
Proof.
  induction l as [|p l IH]; intros Hlast; [reflexivity|].
  destruct l as [|q l].
  - cbn in Hlast. cbn [app]. rewrite !following_cons, Hlast. reflexivity.
  - change ((p :: q :: l) ++ t) with (p :: ((q :: l) ++ t)).
    rewrite (following_cons mark 1 p ((q :: l) ++ t)), (following_cons mark 1 p (q :: l)).
    rewrite IH by exact Hlast. destruct (isMark mark p); reflexivity.
Qed.

Lemma following_items {A : Type} (mark : string) (f : A -> text) (x : A -> piece)
      (l : list A) (t : text) :
  (forall a, exists tail, f a = Lit mark :: x a :: tail /\
                          Forall (fun p => isMark mark p = false) (x a :: tail)) ->
  following mark 1 (flat_map f l ++ t) = map (fun a => [x a]) l ++ following mark 1 t.
Proof.
  intros Hf. induction l as [|a l IH]; [reflexivity|].
  cbn [flat_map map]. destruct (Hf a) as (tail & -> & Hno).
  rewrite <- app_assoc, following_hit;
    [| cbn [isMark]; apply String.eqb_refl | exact Hno | cbn [List.length]; lia].
  cbn [firstn app]. now rewrite IH.
Qed.

Lemma flat_map_without {A : Type} (mark : string) (f : A -> text) (l : list A) :
  (forall a, Forall (fun p => isMark mark p = false) (f a)) ->
  Forall (fun p => isMark mark p = false) (flat_map f l).
Proof.
  intros Hf. induction l as [|a l IH]; [constructor|].
  cbn [flat_map]. apply Forall_app. now split.
Qed.

Ltac no_marks :=
  repeat (first [ apply Forall_nil
                | apply Forall_cons;
                  [first [reflexivity | cbn [isMark]; now rewrite String.eqb_sym
                         | assumption]|] ]).

(** *** The trip window *)

Lemma date_le_spec (a b : option Z) : date_le a b = true <-> Spec.dateLe a b.
Proof.
  unfold date_le, Spec.dateLe. split.
  - destruct a as [x|], b as [y|]; try discriminate.
    intros Hxy. exists x, y. apply Z.leb_le in Hxy. auto.
  - intros (x & y & -> & -> & Hxy). now apply Z.leb_le.
Qed.

Lemma date_ge_spec (a b : option Z) : date_ge a b = true <-> Spec.dateLe b a.
Proof. apply date_le_spec. Qed.

Lemma overlaps_spec (ts te fs fe : option Z) :
  overlaps ts te fs fe = true <-> Spec.dateLe ts fe /\ Spec.dateLe fs te.
Proof.
  unfold overlaps. now rewrite andb_true_iff, date_le_spec, date_ge_spec.
Qed.

Section TripWindow.
Context `{Host}.

Lemma inTrip_spec (ts te : option Z) (day : ForecastDay) :
  inTrip ts te day = true <->
  Spec.dateLe ts (Date_parse (date day)) /\ Spec.dateLe (Date_parse (date day)) te.
Proof.
  unfold inTrip. now rewrite andb_true_iff, date_ge_spec, date_le_spec.
Qed.

Lemma tripSection_supplied (sd ed : string) (first : ForecastDay)
      (rest : list ForecastDay) :
  truthy_string sd = true -> truthy_string ed = true ->
  tripSection (Some sd) (Some ed) (Some (first :: rest)) =
  tripHeading sd ed ++ tripBody sd ed first (first :: rest).
Proof. intros Hs He. unfold tripSection. now rewrite Hs, He. Qed.

(** C9.  For a supplied trip window and a forecast that is not
    empty, the trip section notes an overlap exactly when the trip
    starts no later than the last forecast day and ends no earlier
    than the first; it then lists exactly the forecast days dated
    within the trip, in their order, each on a line with its date,
    temperatures and condition, and otherwise says that the trip
    dates are outside the forecast window.  The section closes the
    report. *)
Theorem trip_window_overlap
        (sd ed : string) (first : ForecastDay) (rest : list ForecastDay) :
  truthy_string sd = true -> truthy_string ed = true ->
  let forecast := first :: rest in
  let tripStart := Date_parse sd in
  let tripEnd := Date_parse ed in
  let fStart := Date_parse (date first) in
  let fEnd := Date_parse (date (last forecast first)) in
  let overlap := Spec.dateLe tripStart fEnd /\ Spec.dateLe fStart tripEnd in
  let days := tripForecast tripStart tripEnd forecast in
  let section := tripSection (Some sd) (Some ed) (Some forecast) in
  (In overlapNote section <-> overlap) /\
  (days = filter (inTrip tripStart tripEnd) forecast /\
   forall day, In day days <->
               In day forecast /\
               Spec.dateLe tripStart (Date_parse (date day)) /\
               Spec.dateLe (Date_parse (date day)) tripEnd) /\
  (overlap ->
   section =
   tripHeading sd ed ++ [overlapNote; Nl; Nl] ++
     match days with
     | [] => [outsideNote; Nl]
     | _ =>
         [Lit "Weather during your visit:"; Nl] ++
         flat_map (fun day =>
                     [Lit "- **"; Str (date day); Lit "**: "; Num (minTempF day);
                      Lit "°F to "; Num (maxTempF day); Lit "°F, ";
                      Str (condition day); Nl]) days
     end) /\
  (overlap ->
   following "- **" 1 section = map (fun day => [Str (date day)]) days) /\
  (~ overlap ->
   section = tripHeading sd ed ++ [outsideNote; Nl] /\
   following "- **" 1 section = []) /\
  (overlapNote = Lit "We have some weather forecast data for your trip dates!" /\
   outsideNote = Lit "Your trip dates are outside our current 3-day forecast window.") /\
  (forall svc code park alerts detailed,
      getParkById svc code = Ok (Some park) ->
      getAlertsByPark svc code = Ok alerts ->
      get7DayForecastByLocation svc (Visit.name park) = Ok (Some forecast) ->
      getDetailedForecast svc (Visit.name park) = Ok detailed ->
      exists before,
        planParkVisit svc code (Some sd) (Some ed) = before ++ section).
Proof.
  intros Hs He forecast tripStart tripEnd fStart fEnd overlap days section.
  assert (Esec : section = tripHeading sd ed ++ tripBody sd ed first forecast)
    by now apply tripSection_supplied.
  assert (Eyes : overlap ->
                 tripBody sd ed first forecast =
                 [overlapNote; Nl; Nl] ++
                   match days with
                   | [] => [outsideNote; Nl]
                   | _ =>
                       [Lit "Weather during your visit:"; Nl] ++
                       flat_map (fun day =>
                                   [Lit "- **"; Str (date day); Lit "**: ";
                                    Num (minTempF day); Lit "°F to ";
                                    Num (maxTempF day); Lit "°F, ";
                                    Str (condition day); Nl]) days
                   end).
  { intros Hov. apply overlaps_spec in Hov. unfold tripBody.
    fold tripStart tripEnd fStart fEnd. rewrite Hov. fold days.
    now destruct days. }
  assert (Eno : ~ overlap -> tripBody sd ed first forecast = [outsideNote; Nl]).
  { intros Hno. unfold tripBody. fold tripStart tripEnd fStart fEnd.
    destruct (overlaps tripStart tripEnd fStart fEnd) eqn:E; [|reflexivity].
    apply overlaps_spec in E. contradiction. }
  split; [|split; [|split; [|split; [|split; [|split]]]]].
  - split.
    + intros Hin.
      destruct (overlaps tripStart tripEnd fStart fEnd) eqn:E.
      * now apply overlaps_spec.
      * exfalso.
        assert (Hno : ~ overlap)
          by (intros Hov; apply overlaps_spec in Hov; congruence).
        rewrite Esec, (Eno Hno) in Hin.
        simpl in Hin. intuition discriminate.
    + intros Hov. rewrite Esec, (Eyes Hov).
      apply in_or_app; right. now left.
  - split; [reflexivity|].
    intros day. unfold days, tripForecast.
    now rewrite filter_In, inTrip_spec.
  - intros Hov. now rewrite Esec, (Eyes Hov).
  - intros Hov. rewrite Esec, (Eyes Hov).
    rewrite following_skip by (repeat constructor).
    rewrite following_skip by (repeat constructor).
    destruct days as [|d ds]; [reflexivity|].
    rewrite following_skip by (repeat constructor).
    rewrite <- (app_nil_r (flat_map _ (d :: ds))).
    rewrite (following_items "- **" _ (fun day => Str (date day)))
      by (intros x; eexists; split; [reflexivity | repeat constructor]).
    apply app_nil_r.
  - intros Hno. rewrite Esec, (Eno Hno). split; [reflexivity|].
    apply following_none. repeat constructor.
  - split; reflexivity.
  - intros svc code park alerts detailed Hp Ha Hf Hd.
    rewrite (planParkVisit_ok _ _ _ _ _ _ _ _ Hp Ha Hf Hd).
    fold section. rewrite !app_assoc. eexists. reflexivity.
Qed.
End TripWindow.

(** The two examples of the specification: a trip from 2024-05-01 to
    2024-05-05 overlaps the forecast 2024-05-03 to 2024-05-10 and is
    shown the days from the 3rd to the 5th; a trip in January does not
    overlap it. *)
Lemma trip_window_examples :
  In overlapNote (tripSection (Some "2024-05-01") (Some "2024-05-05") (Some mayForecast)) /\
  map date (tripForecast (Date_parse "2024-05-01") (Date_parse "2024-05-05") mayForecast)
  = ["2024-05-03"; "2024-05-04"; "2024-05-05"] /\
  following "- **" 1
            (tripSection (Some "2024-05-01") (Some "2024-05-05") (Some mayForecast))
  = [[Str "2024-05-03"]; [Str "2024-05-04"]; [Str "2024-05-05"]] /\
  tripSection (Some "2024-01-01") (Some "2024-01-05") (Some mayForecast)
  = tripHeading "2024-01-01" "2024-01-05" ++ [outsideNote; Nl].
Proof.
  destruct (trip_window_overlap "2024-05-01" "2024-05-05"
              (mildDay "2024-05-03") (tl mayForecast) eq_refl eq_refl)
    as (Hov & _ & _ & Hlisted & _).
  destruct (trip_window_overlap "2024-01-01" "2024-01-05"
              (mildDay "2024-05-03") (tl mayForecast) eq_refl eq_refl)
    as (_ & _ & _ & _ & Hno & _).
  assert (Hoverlap : Spec.dateLe (Date_parse "2024-05-01") (Date_parse "2024-05-10") /\
                     Spec.dateLe (Date_parse "2024-05-03") (Date_parse "2024-05-05"))
    by (split; apply date_le_spec; reflexivity).
  split; [|split; [|split]].
  - apply Hov. exact Hoverlap.
  - reflexivity.
  - change (Some mayForecast) with (Some (mildDay "2024-05-03" :: tl mayForecast)).
    rewrite (Hlisted Hoverlap). vm_compute. reflexivity.
  - apply Hno. intros [_ Hov']. apply date_le_spec in Hov'.
    vm_compute in Hov'. discriminate Hov'.
Defined.

(** *** Identifier resolution *)

Lemma parkToRecAreaId_never_throws (http : HttpClient) (code : string) :
  exists r, parkToRecAreaId http code = Ok r.
Proof.
  unfold parkToRecAreaId.
  assert (Hsearch : exists r, try_catch (searchRecArea http code) (fun _ => Ok None) = Ok r).
  { destruct (searchRecArea http code) as [r|e]; simpl; eauto. }
  destruct (lookup code knownMappings) as [i|]; [|exact Hsearch].
  destruct (i =? 0); [exact Hsearch | eauto].
Qed.

(** C5, as the code has it.  For a park code outside the table of
    known areas, a failure of the search request is caught and
    [parkToRecAreaId] returns [null], the value it returns when nothing
    is found; it never throws. *)
Theorem search_failure_becomes_not_found
        (http : HttpClient) (code parkName : string) (e : error) :
  lookup code knownMappings = None ->
  getParkNameFromCode code = Ok (Some parkName) ->
  get_recareas_query http parkName = Throw e ->
  parkToRecAreaId http code = Ok None /\
  forall http' code', exists r, parkToRecAreaId http' code' = Ok r.
Proof.
  intros Hk Hn He. split; [|apply parkToRecAreaId_never_throws].
  unfold parkToRecAreaId, searchRecArea. rewrite Hk, Hn; cbn [bind].
  now rewrite He.
Qed.

(** C5, as stated, fails: with the network down the resolver answers
    for Denali what it answers when the search finds no area. *)
Lemma network_failure_looks_like_not_found :
  get_recareas_query httpDown "Denali" = Throw networkDown /\
  parkToRecAreaId httpDown "dena" = Ok None /\
  parkToRecAreaId httpNoAreas "dena" = Ok None.
Proof. repeat split; reflexivity. Qed.

Lemma search_failure_example :
  parkToRecAreaId httpDown "dena" = Ok None.
Proof.
  apply (search_failure_becomes_not_found httpDown "dena" "Denali" networkDown);
    reflexivity.
Defined.

(** *** Trail selection *)

Lemma strict_eq_spec (a : option string) (b : string) :
  strict_eq a b = true <-> a = Some b.
Proof.
  destruct a as [s|]; simpl.
  - rewrite String.eqb_eq. split; congruence.
  - split; discriminate.
Qed.

Lemma includes_nonempty (s sub : string) :
  includes (toLowerCase s) sub = true -> sub <> EmptyString -> truthy_string s = true.
Proof.
  intros Hi Hsub. destruct s; [|reflexivity].
  simpl in Hi. destruct sub; [contradiction | discriminate].
Qed.

Lemma isTrailFacility_spec (f : RawFacility) :
  isTrailFacility f = true <->
  FacilityTypeDescription f = Some "Trail" \/
  exists n, FacilityName f = Some n /\ Spec.containsIgnoringCase n "trail".
Proof.
  unfold isTrailFacility. rewrite orb_true_iff, strict_eq_spec.
  split; (intros [Ht|Hn]; [now left | right]).
  - destruct (FacilityName f) as [n|]; [|discriminate].
    apply andb_true_iff in Hn as [_ Hn].
    exists n. split; [reflexivity|].
    now apply (includes_lower_spec n "trail").
  - destruct Hn as (n & -> & Hn).
    apply (includes_lower_spec n "trail") in Hn; [|reflexivity].
    rewrite Hn, andb_true_r.
    apply (includes_nonempty _ _ Hn). discriminate.
Qed.

(** C8, as the code has it.  A facility is a trail candidate exactly
    when its type descriptor is the string "Trail" or its name contains
    "trail" case-insensitively; the candidates are the facilities of the
    area so selected or, when there are none, the results of the
    fallback search selected by the same rule. *)
Theorem trail_selection_rule :
  (forall f : RawFacility,
      isTrailFacility f = true <->
      FacilityTypeDescription f = Some "Trail" \/
      exists n, FacilityName f = Some n /\ Spec.containsIgnoringCase n "trail") /\
  (forall (http : HttpClient) (code : string) (facilities : list RawFacility),
      filter isTrailFacility facilities <> [] ->
      trailCandidates http code facilities = Ok (filter isTrailFacility facilities)) /\
  (forall (http : HttpClient) (code parkName : string)
          (facilities found : list RawFacility),
      filter isTrailFacility facilities = [] ->
      getParkNameFromCode code = Ok (Some parkName) ->
      get_facilities_query http (parkName ++ " trail")%string = Ok (Some found) ->
      trailCandidates http code facilities = Ok (filter isTrailFacility found)).
Proof.
  split; [exact isTrailFacility_spec|]. split.
  - intros http code facilities Hne. unfold trailCandidates.
    now destruct (filter isTrailFacility facilities).
  - intros http code parkName facilities found Hnone Hname Hfound.
    unfold trailCandidates. rewrite Hnone, Hname; cbn [bind].
    now rewrite Hfound.
Qed.

Lemma trail_selection_examples :
  isTrailFacility mistTrail = true /\
  trailCandidates httpOneDetailFails "yose" threeTrails = Ok threeTrails /\
  trailCandidates httpFallback "yose"
    [facility 201 "Valley Visitor Center" (Some "Facility") AttrUndefined]
  = Ok [mistTrail].
Proof.
  destruct trail_selection_rule as (Hsel & Hprimary & Hfallback).
  split; [|split].
  - apply Hsel. now left.
  - apply (Hprimary httpOneDetailFails "yose" threeTrails).
    vm_compute. discriminate.
  - apply (Hfallback httpFallback "yose" "Yosemite"
                     [facility 201 "Valley Visitor Center" (Some "Facility") AttrUndefined]
                     [mistTrail; hikingTrailByType]); reflexivity.
Defined.

(** C8, as stated, fails: a facility of type "Hiking Trail" whose name
    does not say trail is a trail in the specification's words and is
    not selected. *)
Lemma type_containing_trail_is_not_selected :
  Spec.trailAsSpecified hikingTrailByType /\
  isTrailFacility hikingTrailByType = false.
Proof.
  split; [|reflexivity].
  left. exists "Hiking Trail". split; [reflexivity|].
  apply (includes_lower_spec "Hiking Trail" "trail"); reflexivity.
Qed.

(** *** Attribute decoding *)



Lemma localAttributeValue_object (trail : RawFacility) (n : string)
      (inner : option (list Attribute)) :
  facilityAttributes trail = AttrObject inner ->
  localAttributeValue trail n = Throw findNotAFunction.
Proof. unfold localAttributeValue. now intros ->. Qed.






Section Decoding.
Context `{Host}.


(** On a container object the decoder throws at its first lookup. *)
Lemma mapTrailResponse_object (trail : RawFacility) (code : string)
      (inner : option (list Attribute)) :
  facilityAttributes trail = AttrObject inner ->
  mapTrailResponse trail code = Throw findNotAFunction.
Proof.
  intros Hobj. unfold mapTrailResponse.
  now rewrite (localAttributeValue_object _ _ _ Hobj).
Qed.

(** C6.  What the decoder does on the shapes of the specification:
    a flat list is decoded, with a length of 4.5 for the value "4.5"
    and [NaN] for "abc"; the same list inside a container object,
    which the service's own [getAttributeValue] reads, makes
    [mapTrailResponse] throw a [TypeError], and [getTrailsByPark]
    with it. *)
Theorem nested_attributes_make_decoder_throw :
  (forall trail code inner,
      facilityAttributes trail = AttrObject inner ->
      mapTrailResponse trail code = Throw findNotAFunction) /\
  getAttributeValue nestedTrail "Trail Length" = Some "4.5" /\
  mapTrailResponse nestedTrail "yose" = Throw findNotAFunction /\
  getTrailsByPark httpNestedDetail "yose" None = Throw findNotAFunction /\
  (exists t, mapTrailResponse mistTrail "yose" = Ok t /\
             length t = Some (parseFloat "4.5")) /\
  (exists t, mapTrailResponse garbledTrail "yose" = Ok t /\
             length t = Some NaN).
Proof.
  split; [exact mapTrailResponse_object|].
  split; [reflexivity|].
  split; [vm_compute; reflexivity|].
  split; [vm_compute; reflexivity|].
  split.
  - set (r := mapTrailResponse mistTrail "yose"). vm_compute in r. subst r.
    eexists. split; [reflexivity|]. vm_compute. reflexivity.
  - set (r := mapTrailResponse garbledTrail "yose"). vm_compute in r. subst r.
    eexists. split; [reflexivity|]. vm_compute. reflexivity.
Qed.
End Decoding.

(** *** Trail aggregation *)




Section Aggregation.
Context `{Host}.

(** The path of [getTrailsByPark] once the candidates are known. *)
Lemma getTrailsByPark_candidates
      (http : HttpClient) (code : string) (query : option Query) (recAreaId : Z)
      (facilities trails : list RawFacility) :
  parkToRecAreaId http code = Ok (Some recAreaId) ->
  recAreaId <> 0 ->
  get_recarea_facilities http recAreaId = Ok (Some facilities) ->
  facilities <> [] ->
  trailCandidates http code facilities = Ok trails ->
  getTrailsByPark http code query =
  mapM (fun trail => mapTrailResponse trail code)
       (applyQuery query (detailTrails http trails)).
Proof.
  intros Hid Hnz Hfac Hne Hcand. unfold getTrailsByPark.
  rewrite Hid; cbn [bind]. apply Z.eqb_neq in Hnz; rewrite Hnz.
  rewrite Hfac; cbn [bind].
  destruct facilities as [|f fs]; [contradiction|].
  rewrite Hcand; cbn [bind].
  now destruct (mapM _ _).
Qed.

Lemma mapM_Throw {A B : Type} (f : A -> result B) (l : list A) :
  Exists (fun x => exists e, f x = Throw e) l -> exists e, mapM f l = Throw e.
Proof.
  induction l as [|x l IH]; intros Hex; [inversion Hex|].
  cbn [mapM]. destruct (f x) as [y|e] eqn:Ey; cbn [bind]; [|now exists e].
  inversion Hex as [? ? (e & He) | ? ? Hex']; subst; [congruence|].
  destruct (IH Hex') as (e & ->). now exists e.
Qed.

End Aggregation.



(** *** Length bounds of a query *)

Lemma truthy_zero (z : Q) : (z == 0)%Q -> truthy_number (Fin z) = false.
Proof.
  intros Hz. unfold truthy_number. apply Qeq_bool_iff in Hz. now rewrite Hz.
Qed.

Lemma truthy_nonzero (z : Q) : ~ (z == 0)%Q -> truthy_number (Fin z) = true.
Proof.
  intros Hz. unfold truthy_number.
  destruct (Qeq_bool z 0) eqn:E; [|reflexivity].
  apply Qeq_bool_iff in E. contradiction.
Qed.

Lemma applyQuery_withoutMinLength (q : Query) (z : Q) (l : list RawFacility) :
  minLength q = Some (Fin z) -> (z == 0)%Q ->
  applyQuery (Some q) l = applyQuery (Some (withoutMinLength q)) l.
Proof.
  intros Hq Hz. unfold applyQuery, byMinLength at 1.
  rewrite Hq; cbn [truthy_onumber]. now rewrite (truthy_zero _ Hz).
Qed.

Lemma applyQuery_withoutMaxLength (q : Query) (z : Q) (l : list RawFacility) :
  maxLength q = Some (Fin z) -> (z == 0)%Q ->
  applyQuery (Some q) l = applyQuery (Some (withoutMaxLength q)) l.
Proof.
  intros Hq Hz. unfold applyQuery, byMaxLength at 1.
  rewrite Hq; cbn [truthy_onumber]. now rewrite (truthy_zero _ Hz).
Qed.

Section LengthBounds.
Context `{Host}.

Lemma getTrailsByPark_query_ext (http : HttpClient) (code : string) (q q' : option Query) :
  (forall l, applyQuery q l = applyQuery q' l) ->
  getTrailsByPark http code q = getTrailsByPark http code q'.
Proof.
  intros Hext. unfold getTrailsByPark.
  destruct (parkToRecAreaId http code) as [[recAreaId|]|e]; cbn [bind]; try reflexivity.
  destruct (recAreaId =? 0); [reflexivity|].
  destruct (get_recarea_facilities http recAreaId) as [[[|f fs]|]|e1];
    cbn [bind]; try reflexivity.
  destruct (trailCandidates http code (f :: fs)) as [trails|e2]; cbn [bind];
    [|reflexivity].
  now rewrite Hext.
Qed.

(** C10.  A [minLength] or [maxLength] of 0 in the query has the
    effect of leaving that bound out: the filter is skipped and
    [getTrailsByPark] returns what it returns without the bound.
    Under a bound that is not 0, a candidate without a "Trail Length"
    attribute is excluded. *)
Theorem zero_length_bound_is_ignored
        (http : HttpClient) (code : string) (q : Query) (z : Q) :
  (z == 0)%Q ->
  (minLength q = Some (Fin z) ->
   (forall l, byMinLength q l = l) /\
   getTrailsByPark http code (Some q) =
   getTrailsByPark http code (Some (withoutMinLength q))) /\
  (maxLength q = Some (Fin z) ->
   (forall l, byMaxLength q l = l) /\
   getTrailsByPark http code (Some q) =
   getTrailsByPark http code (Some (withoutMaxLength q))) /\
  (forall (b : Q) (trail : RawFacility) (l : list RawFacility),
      ~ (b == 0)%Q ->
      getAttributeValue trail "Trail Length" = None ->
      (minLength q = Some (Fin b) -> ~ In trail (byMinLength q l)) /\
      (maxLength q = Some (Fin b) -> ~ In trail (byMaxLength q l))).
Proof.
  intros Hz. split; [|split].
  - intros Hq. split.
    + intros l. unfold byMinLength. rewrite Hq; cbn [truthy_onumber].
      now rewrite (truthy_zero _ Hz).
    + apply getTrailsByPark_query_ext. intros l.
      now apply (applyQuery_withoutMinLength q z).
  - intros Hq. split.
    + intros l. unfold byMaxLength. rewrite Hq; cbn [truthy_onumber].
      now rewrite (truthy_zero _ Hz).
    + apply getTrailsByPark_query_ext. intros l.
      now apply (applyQuery_withoutMaxLength q z).
  - intros b trail l Hb Hnone. split; intros Hq Hin.
    + unfold byMinLength in Hin. rewrite Hq in Hin; cbn [truthy_onumber] in Hin.
      rewrite (truthy_nonzero _ Hb) in Hin.
      apply filter_In in Hin as [_ Hin].
      unfold longEnough in Hin. rewrite Hnone in Hin. discriminate Hin.
    + unfold byMaxLength in Hin. rewrite Hq in Hin; cbn [truthy_onumber] in Hin.
      rewrite (truthy_nonzero _ Hb) in Hin.
      apply filter_In in Hin as [_ Hin].
      unfold shortEnough in Hin. rewrite Hnone in Hin. discriminate Hin.
Qed.
End LengthBounds.

(** A trail without a length passes a lower bound of 0 and no lower
    bound of 1. *)
Lemma zero_length_bound_example :
  byMinLength (lengthQuery (Some (Fin 0)) None) [mistTrail; unmeasuredTrail]
  = [mistTrail; unmeasuredTrail] /\
  ~ In unmeasuredTrail
      (byMinLength (lengthQuery (Some (Fin 1)) None) [mistTrail; unmeasuredTrail]) /\
  byMinLength (lengthQuery (Some (Fin 1)) None) [mistTrail; unmeasuredTrail] = [mistTrail].
Proof.
  destruct (zero_length_bound_is_ignored
              httpDown "yose" (lengthQuery (Some (Fin 0)) None) 0 (Qeq_refl 0))
    as (Hzero & _).
  destruct (zero_length_bound_is_ignored
              httpDown "yose" (lengthQuery (Some (Fin 1)) None) 0 (Qeq_refl 0))
    as (_ & _ & Hone).
  split; [apply (proj1 (Hzero eq_refl))|]. split; [|reflexivity].
  destruct (Hone 1%Q unmeasuredTrail [mistTrail; unmeasuredTrail]) as [Hmin _];
    [discriminate | reflexivity |].
  apply Hmin. reflexivity.
Defined.

(* ================================================================== *)
(** ** Further properties of the scorer and of the visit report *)
(* ================================================================== *)

Lemma tempPoints_range (day : ForecastDay) : 1 <= tempPoints day <= 3.
Proof.
  unfold tempPoints; cbv zeta.
  repeat match goal with |- context [if ?b then _ else _] => destruct b end; lia.
Qed.

Lemma rainPoints_range (day : ForecastDay) : 0 <= rainPoints day <= 3.
Proof.
  unfold rainPoints.
  repeat match goal with |- context [if ?b then _ else _] => destruct b end; lia.
Qed.

Lemma conditionPoints_range (day : ForecastDay) : 0 <= conditionPoints day <= 2.
Proof. unfold conditionPoints. destruct (existsb _ _); lia. Qed.

(** X1.  Every score lies between 1 and 8: the temperature term is
    never less than 1, so no day scores 0; this holds for each entry of
    the scored and of the ranked list. *)
Theorem score_between_1_and_8 :
  (forall day : ForecastDay, 1 <= score (scoreDay day) <= 8) /\
  (forall detailedForecast,
      Forall (fun d => 1 <= score d <= 8) (scoreDays detailedForecast) /\
      Forall (fun d => 1 <= score d <= 8) (rankDays detailedForecast)).
Proof.
  assert (Hday : forall day : ForecastDay, 1 <= score (scoreDay day) <= 8).
  { intros day. rewrite scoreDay_sum.
    pose proof (tempPoints_range day). pose proof (rainPoints_range day).
    pose proof (conditionPoints_range day). lia. }
  split; [exact Hday|]. intros detailedForecast.
  assert (Hscored : Forall (fun d => 1 <= score d <= 8) (scoreDays detailedForecast)).
  { unfold scoreDays. destruct detailedForecast as [[|d ds]|]; try constructor.
    - apply Hday.
    - apply Forall_forall. intros x Hx. apply in_map_iff in Hx as (day & <- & _).
      apply Hday. }
  split; [exact Hscored|].
  unfold rankDays.
  apply (Permutation_Forall (Array_sort_perm byScoreDesc _)). exact Hscored.
Qed.

Lemma rainPoints_antitone (a b : ForecastDay) :
  (chanceOfRain a <= chanceOfRain b)%Q -> rainPoints b <= rainPoints a.
Proof.
  intros Hle. unfold rainPoints.
  assert (Hmono : forall k : Q, Qle_bool k (chanceOfRain a) = true ->
                                Qle_bool k (chanceOfRain b) = true).
  { intros k Hk. apply Qle_bool_iff. apply Qle_bool_iff in Hk.
    eapply Qle_trans; eassumption. }
  destruct (Qle_bool 20 (chanceOfRain a)) eqn:A20;
    [rewrite (Hmono _ A20)|];
    (destruct (Qle_bool 40 (chanceOfRain a)) eqn:A40;
     [rewrite (Hmono _ A40)|]);
    (destruct (Qle_bool 60 (chanceOfRain a)) eqn:A60;
     [rewrite (Hmono _ A60)|]);
    cbn [negb];
    repeat match goal with |- context [if negb ?c then _ else _] => destruct c; cbn [negb] end;
    lia.
Qed.

(** X2.  Of two days with the same temperatures and condition, the one
    with the lower chance of rain never scores lower, and so is never
    ranked behind the other by score. *)
Theorem drier_day_never_scores_lower (a b : ForecastDay) :
  minTempF a = minTempF b -> maxTempF a = maxTempF b ->
  condition a = condition b ->
  (chanceOfRain a <= chanceOfRain b)%Q ->
  score (scoreDay b) <= score (scoreDay a) /\
  byScoreDesc (scoreDay a) (scoreDay b) <= 0.
Proof.
  intros Hmin Hmax Hcond Hrain.
  assert (Hs : score (scoreDay b) <= score (scoreDay a)).
  { rewrite !scoreDay_sum.
    pose proof (rainPoints_antitone a b Hrain).
    unfold tempPoints, computedAverage, conditionPoints.
    rewrite Hmin, Hmax, Hcond. lia. }
  split; [exact Hs|]. unfold byScoreDesc. lia.
Qed.

Lemma drier_day_example :
  score (scoreDay drizzlyDay) <= score (scoreDay dryDay) /\
  byScoreDesc (scoreDay dryDay) (scoreDay drizzlyDay) <= 0.
Proof.
  apply (drier_day_never_scores_lower dryDay drizzlyDay); try reflexivity.
  discriminate.
Defined.








Section DegenerateTrip.
Context `{Host}.

Lemma tripForecast_nil_when_degenerate
      (tripStart tripEnd : option Z) (forecast : list ForecastDay) :
  tripStart = None \/ tripEnd = None \/
  (exists s e, tripStart = Some s /\ tripEnd = Some e /\ e < s) ->
  tripForecast tripStart tripEnd forecast = [].
Proof.
  intros Hdeg. unfold tripForecast.
  induction forecast as [|day forecast IH]; [reflexivity|].
  cbn [filter]. rewrite IH.
  destruct (inTrip tripStart tripEnd day) eqn:E; [|reflexivity].
  exfalso.
  apply inTrip_spec in E as [(s & t & Es & Et & Hst) (t' & e & Et' & Ee & Hte)].
  rewrite Et in Et'. injection Et' as <-.
  destruct Hdeg as [Hn | [Hn | (s' & e' & Es' & Ee' & Hlt)]]; try congruence.
  rewrite Es in Es'. rewrite Ee in Ee'.
  injection Es' as <-. injection Ee' as <-. lia.
Qed.

(** X4.  When a trip date does not parse or the trip ends before it
    starts, no forecast day is listed: the trip section carries the
    sentence that the trip is outside the forecast window, also when it
    carries the overlap note, and never the listing of days. *)
Theorem degenerate_trip_lists_no_day
        (sd ed : string) (first : ForecastDay) (rest : list ForecastDay) :
  truthy_string sd = true -> truthy_string ed = true ->
  Date_parse sd = None \/ Date_parse ed = None \/
  (exists s e, Date_parse sd = Some s /\ Date_parse ed = Some e /\ e < s) ->
  let section := tripSection (Some sd) (Some ed) (Some (first :: rest)) in
  tripForecast (Date_parse sd) (Date_parse ed) (first :: rest) = [] /\
  In outsideNote section /\
  ~ In visitListing section /\
  (Date_parse sd = None \/ Date_parse ed = None ->
   section = tripHeading sd ed ++ [outsideNote; Nl]).
Proof.
  intros Hs He Hdeg section.
  pose proof (tripForecast_nil_when_degenerate _ _ (first :: rest) Hdeg) as Hnil.
  assert (Esec : section = tripHeading sd ed ++ tripBody sd ed first (first :: rest))
    by now apply tripSection_supplied.
  assert (Ebody : tripBody sd ed first (first :: rest) = [outsideNote; Nl] \/
                  tripBody sd ed first (first :: rest) =
                  [overlapNote; Nl; Nl; outsideNote; Nl]).
  { unfold tripBody. rewrite Hnil. destruct (overlaps _ _ _ _); auto. }
  split; [exact Hnil|]. rewrite Esec. split; [|split].
  - apply in_or_app; right. destruct Ebody as [-> | ->]; simpl; auto.
  - intros Hin. apply in_app_or in Hin as [Hin | Hin].
    + simpl in Hin. unfold visitListing in Hin. intuition discriminate.
    + destruct Ebody as [E | E]; rewrite E in Hin; simpl in Hin;
        unfold visitListing, outsideNote, overlapNote in Hin; intuition discriminate.
  - intros Hnone. f_equal. unfold tripBody.
    destruct (overlaps _ _ _ _) eqn:E; [|reflexivity].
    apply overlaps_spec in E as [(x & y & Ex & _ & _) (x' & y' & _ & Ey & _)].
    destruct Hnone; congruence.
Qed.
End DegenerateTrip.

Lemma inverted_trip_example :
  In overlapNote (tripSection (Some "2024-05-08") (Some "2024-05-04") (Some mayForecast)) /\
  In outsideNote (tripSection (Some "2024-05-08") (Some "2024-05-04") (Some mayForecast)) /\
  tripSection (Some "next week") (Some "2024-05-04") (Some mayForecast)
  = tripHeading "next week" "2024-05-04" ++ [outsideNote; Nl].
Proof.
  destruct (degenerate_trip_lists_no_day "2024-05-08" "2024-05-04"
              (mildDay "2024-05-03") (tl mayForecast) eq_refl eq_refl)
    as (_ & Hout & _).
  { right; right. eexists _, _. split; [reflexivity|]. split; [reflexivity|].
    vm_compute. reflexivity. }
  destruct (degenerate_trip_lists_no_day "next week" "2024-05-04"
              (mildDay "2024-05-03") (tl mayForecast) eq_refl eq_refl)
    as (_ & _ & _ & Hnone).
  { now left. }
  split; [|split].
  - vm_compute. auto 10.
  - exact Hout.
  - apply Hnone. now left.
Defined.

(* ================================================================== *)
(** ** Further properties of the resolver and of the aggregator *)
(* ================================================================== *)

Lemma lookup_In {V : Type} (key : string) (table : list (string * V)) (v : V) :
  lookup key table = Some v -> In (key, v) table.
Proof.
  induction table as [|[k w] table IH]; cbn [lookup]; [discriminate|].
  destruct (String.eqb k key) eqn:E.
  - apply String.eqb_eq in E. intros [= <-]. subst k. now left.
  - intros Hl. right. now apply IH.
Qed.

Lemma knownMappings_nonzero (code : string) (i : Z) :
  lookup code knownMappings = Some i -> i <> 0.
Proof.
  intros Hl. apply lookup_In in Hl.
  assert (Hall : Forall (fun kv : string * Z => snd kv <> 0) knownMappings)
    by (repeat constructor; discriminate).
  rewrite Forall_forall in Hall. exact (Hall _ Hl).
Qed.

Lemma parkMap_names_truthy (code n : string) :
  lookup code parkMap = Some n -> truthy_string n = true.
Proof.
  intros Hl. apply lookup_In in Hl.
  assert (Hall : Forall (fun kv : string * string => truthy_string (snd kv) = true) parkMap)
    by (repeat constructor).
  rewrite Forall_forall in Hall. exact (Hall _ Hl).
Qed.

Section StaticTables.
Context `{Host}.

(** X5.  Resolution from the static tables asks nothing of the
    network: for a park code of the table of known areas every client
    gives the table's id, and for a code that is in neither table and
    names no member of [Object.prototype] every client gives [null]
    from the resolver and an empty list of trails.  The names of
    these members are in neither table. *)
Theorem static_tables_need_no_request (http : HttpClient) (code : string) :
  (forall i, lookup code knownMappings = Some i ->
             parkToRecAreaId http code = Ok (Some i)) /\
  (inheritedKey code = false ->
   lookup code knownMappings = None -> lookup code parkMap = None ->
   parkToRecAreaId http code = Ok None /\
   forall query, getTrailsByPark http code query = Ok []) /\
  (inheritedKey code = true ->
   lookup code knownMappings = None /\ lookup code parkMap = None).
Proof.
  split; [|split].
  - intros i Hl. unfold parkToRecAreaId. rewrite Hl.
    apply knownMappings_nonzero in Hl. apply Z.eqb_neq in Hl. now rewrite Hl.
  - intros _ Hk Hn.
    assert (E : parkToRecAreaId http code = Ok None).
    { unfold parkToRecAreaId, searchRecArea, getParkNameFromCode.
      now rewrite Hk, Hn. }
    split; [exact E|]. intros query. unfold getTrailsByPark. now rewrite E.
  - intros Hkey. unfold inheritedKey in Hkey.
    apply existsb_exists in Hkey as (key & Hin & Heq).
    apply String.eqb_eq in Heq. subst key.
    cbn [objectPrototypeKeys In] in Hin.
    repeat (destruct Hin as [<- | Hin]; [split; reflexivity|]). destruct Hin.
Qed.
End StaticTables.

Lemma static_tables_example :
  parkToRecAreaId httpDown "yose" = Ok (Some 2991) /\
  parkToRecAreaId httpOneDetailFails "atlantis" = Ok None /\
  getTrailsByPark httpOneDetailFails "atlantis" None = Ok [] /\
  lookup "constructor" knownMappings = None.
Proof.
  destruct (static_tables_need_no_request httpDown "yose") as [Hknown _].
  destruct (static_tables_need_no_request httpOneDetailFails "atlantis")
    as (_ & Hunknown & _).
  destruct (static_tables_need_no_request httpDown "constructor")
    as (_ & _ & Hinherited).
  destruct (Hunknown eq_refl eq_refl eq_refl) as [Hnone Hempty].
  split; [apply Hknown; reflexivity|]. split; [exact Hnone|].
  split; [apply Hempty | apply Hinherited; reflexivity].
Defined.

(** *** The choice among the areas found *)

Section StringFacts2.
Local Open Scope string_scope.



End StringFacts2.




(** *** Failures and filters of the trail listing *)

Section ListingFailures.
Context `{Host}.

(** X7.  Which failures of [getTrailsByPark] reach the caller.  A
    failure of the request for the area's facilities is thrown on, and
    so is a failure of the fallback search, whose answer without
    [RECDATA] gives a [TypeError]; a failed area search, an answer
    without facilities and an empty one give an empty list instead. *)
Theorem trail_listing_failures
        (http : HttpClient) (code : string) (query : option Query) :
  (forall recAreaId e,
      parkToRecAreaId http code = Ok (Some recAreaId) -> recAreaId <> 0 ->
      get_recarea_facilities http recAreaId = Throw e ->
      getTrailsByPark http code query = Throw e) /\
  (forall recAreaId,
      parkToRecAreaId http code = Ok (Some recAreaId) -> recAreaId <> 0 ->
      get_recarea_facilities http recAreaId = Ok None \/
      get_recarea_facilities http recAreaId = Ok (Some []) ->
      getTrailsByPark http code query = Ok []) /\
  (forall recAreaId facilities parkName,
      parkToRecAreaId http code = Ok (Some recAreaId) -> recAreaId <> 0 ->
      get_recarea_facilities http recAreaId = Ok (Some facilities) ->
      facilities <> [] ->
      filter isTrailFacility facilities = [] ->
      getParkNameFromCode code = Ok (Some parkName) ->
      (forall e, get_facilities_query http (parkName ++ " trail")%string = Throw e ->
                 getTrailsByPark http code query = Throw e) /\
      (get_facilities_query http (parkName ++ " trail")%string = Ok None ->
       getTrailsByPark http code query = Throw missingFilter)) /\
  (forall parkName e,
      lookup code knownMappings = None ->
      getParkNameFromCode code = Ok (Some parkName) ->
      get_recareas_query http parkName = Throw e ->
      getTrailsByPark http code query = Ok []).
Proof.
  split; [|split; [|split]].
  - intros recAreaId e Hid Hnz Hfac. unfold getTrailsByPark.
    rewrite Hid; cbn [bind]. apply Z.eqb_neq in Hnz; rewrite Hnz.
    now rewrite Hfac.
  - intros recAreaId Hid Hnz Hfac. unfold getTrailsByPark.
    rewrite Hid; cbn [bind]. apply Z.eqb_neq in Hnz; rewrite Hnz.
    destruct Hfac as [-> | ->]; reflexivity.
  - intros recAreaId facilities parkName Hid Hnz Hfac Hne Hnone Hname.
    assert (E : getTrailsByPark http code query =
                try_catch
                  (bind (trailCandidates http code facilities) (fun trails =>
                   mapM (fun trail => mapTrailResponse trail code)
                        (applyQuery query (detailTrails http trails))))
                  (fun e => Throw e)).
    { unfold getTrailsByPark. rewrite Hid; cbn [bind].
      apply Z.eqb_neq in Hnz; rewrite Hnz. rewrite Hfac; cbn [bind].
      destruct facilities; [contradiction | reflexivity]. }
    rewrite E. unfold trailCandidates. rewrite Hnone, Hname; cbn [bind].
    split.
    + intros e He. now rewrite He.
    + intros He. now rewrite He.
  - intros parkName e Hk Hn Hs. unfold getTrailsByPark.
    assert (E : parkToRecAreaId http code = Ok None).
    { unfold parkToRecAreaId, searchRecArea. rewrite Hk, Hn; cbn [bind].
      now rewrite Hs. }
    now rewrite E.
Qed.
End ListingFailures.

Lemma trail_listing_failure_examples :
  getTrailsByPark httpFacilitiesDown "yose" None = Throw networkDown /\
  getTrailsByPark httpDown "dena" None = Ok [].
Proof.
  destruct (trail_listing_failures httpFacilitiesDown "yose" None) as (Hthrow & _).
  destruct (trail_listing_failures httpDown "dena" None) as (_ & _ & _ & Hresolve).
  split.
  - apply (Hthrow 2991 networkDown); [vm_compute; reflexivity | discriminate | reflexivity].
  - apply (Hresolve "Denali" networkDown); reflexivity.
Defined.

Lemma filter_filter {A : Type} (f g : A -> bool) (l : list A) :
  filter f (filter g l) = filter (fun x => g x && f x) l.
Proof.
  induction l as [|x l IH]; [reflexivity|]. cbn [filter].
  destruct (g x); cbn [filter andb]; [destruct (f x)|]; now rewrite IH.
Qed.

Lemma filter_all {A : Type} (l : list A) : filter (fun _ => true) l = l.
Proof. induction l as [|x l IH]; [reflexivity|]. cbn. now rewrite IH. Qed.

Lemma byTrailId_filter (q : Query) (l : list RawFacility) :
  exists sel, byTrailId q l = filter sel l.
Proof.
  unfold byTrailId. destruct (trailId q) as [t|].
  - destruct (truthy_string t); [eauto|]. exists (fun _ => true). now rewrite filter_all.
  - exists (fun _ => true). now rewrite filter_all.
Qed.

Lemma byDifficulty_filter (q : Query) (l : list RawFacility) :
  exists sel, byDifficulty q l = filter sel l.
Proof.
  unfold byDifficulty. destruct (queryDifficulty q) as [d|].
  - destruct (truthy_string d); [eauto|]. exists (fun _ => true). now rewrite filter_all.
  - exists (fun _ => true). now rewrite filter_all.
Qed.

Lemma byMinLength_filter (q : Query) (l : list RawFacility) :
  exists sel, byMinLength q l = filter sel l.
Proof.
  unfold byMinLength. destruct (truthy_onumber (minLength q)); [eauto|].
  exists (fun _ => true). now rewrite filter_all.
Qed.

Lemma byMaxLength_filter (q : Query) (l : list RawFacility) :
  exists sel, byMaxLength q l = filter sel l.
Proof.
  unfold byMaxLength. destruct (truthy_onumber (maxLength q)); [eauto|].
  exists (fun _ => true). now rewrite filter_all.
Qed.

Lemma applyQuery_filter (query : option Query) (l : list RawFacility) :
  exists sel, applyQuery query l = filter sel l.
Proof.
  destruct query as [q|]; cbn [applyQuery].
  - destruct (byTrailId_filter q l) as [s1 ->].
    destruct (byDifficulty_filter q (filter s1 l)) as [s2 ->].
    destruct (byMinLength_filter q (filter s2 (filter s1 l))) as [s3 ->].
    destruct (byMaxLength_filter q (filter s3 (filter s2 (filter s1 l)))) as [s4 ->].
    rewrite !filter_filter. eauto.
  - exists (fun _ => true). now rewrite filter_all.
Qed.

Lemma filter_length_le {A : Type} (f : A -> bool) (l : list A) :
  (List.length (filter f l) <= List.length l)%nat.
Proof.
  induction l as [|x l IH]; [apply Nat.le_refl|]. cbn [filter].
  destruct (f x); cbn [List.length]; lia.
Qed.

Lemma mapM_Ok_Forall2 {A B : Type} (f : A -> result B) (l : list A) (ys : list B) :
  mapM f l = Ok ys -> Forall2 (fun x y => f x = Ok y) l ys.
Proof.
  revert ys. induction l as [|x l IH]; intros ys; cbn [mapM].
  - intros [= <-]. constructor.
  - destruct (f x) as [y|e] eqn:Ey; cbn [bind]; [|discriminate].
    destruct (mapM f l) as [ys'|e] eqn:Eys; cbn [bind]; [|discriminate].
    intros [= <-]. constructor; [exact Ey | now apply IH].
Qed.

Lemma Forall2_In_r {A B : Type} (R : A -> B -> Prop) (l : list A) (l' : list B) (y : B) :
  Forall2 R l l' -> In y l' -> exists x, In x l /\ R x y.
Proof.
  induction 1 as [|x y' l l' HR _ IH]; intros Hin; [contradiction|].
  destruct Hin as [<- | Hin].
  - exists x. split; [now left | exact HR].
  - destruct (IH Hin) as (x' & Hx' & HR'). exists x'. split; [now right | exact HR'].
Qed.

Lemma byMaxLength_In (q : Query) (l : list RawFacility) (d : RawFacility) :
  In d (byMaxLength q l) ->
  In d l /\ (truthy_onumber (maxLength q) = true -> shortEnough q d = true).
Proof.
  unfold byMaxLength. destruct (truthy_onumber (maxLength q)).
  - rewrite filter_In. tauto.
  - intros Hin. split; [exact Hin | discriminate].
Qed.

Lemma byMinLength_In (q : Query) (l : list RawFacility) (d : RawFacility) :
  In d (byMinLength q l) ->
  In d l /\ (truthy_onumber (minLength q) = true -> longEnough q d = true).
Proof.
  unfold byMinLength. destruct (truthy_onumber (minLength q)).
  - rewrite filter_In. tauto.
  - intros Hin. split; [exact Hin | discriminate].
Qed.

Lemma byDifficulty_In (q : Query) (l : list RawFacility) (d : RawFacility) :
  In d (byDifficulty q l) ->
  In d l /\
  forall dq, queryDifficulty q = Some dq -> truthy_string dq = true ->
             exists v, getAttributeValue d "Trail Difficulty" = Some v /\
                       includes (toLowerCase v) (toLowerCase dq) = true.
Proof.
  unfold byDifficulty. destruct (queryDifficulty q) as [dq0|].
  - destruct (truthy_string dq0) eqn:Et.
    + rewrite filter_In. intros [Hin Hsel]. split; [exact Hin|].
      intros dq [= <-] _.
      destruct (getAttributeValue d "Trail Difficulty") as [v|]; [|discriminate].
      apply andb_true_iff in Hsel as [_ Hsel]. eauto.
    + intros Hin. split; [exact Hin|]. intros dq [= <-]. congruence.
  - intros Hin. split; [exact Hin|]. discriminate.
Qed.

Lemma byTrailId_In (q : Query) (l : list RawFacility) (d : RawFacility) :
  In d (byTrailId q l) ->
  In d l /\
  forall tid, trailId q = Some tid -> truthy_string tid = true ->
              int_toString (FacilityID d) = tid.
Proof.
  unfold byTrailId. destruct (trailId q) as [t|].
  - destruct (truthy_string t) eqn:Et.
    + rewrite filter_In. intros [Hin Hsel]. split; [exact Hin|].
      intros tid [= <-] _. now apply String.eqb_eq.
    + intros Hin. split; [exact Hin|]. intros tid [= <-]. congruence.
  - intros Hin. split; [exact Hin|]. discriminate.
Qed.

Lemma local_is_class (d : RawFacility) (n : string) (v : option string) :
  keyless (facilityAttributes d) ->
  localAttributeValue d n = Ok v -> getAttributeValue d n = v.
Proof.
  unfold keyless, localAttributeValue, getAttributeValue.
  destruct (facilityAttributes d) as [|entries|inner]; intros Hk; try discriminate.
  - now intros [= <-].
  - intros [= <-]. f_equal.
    induction Hk as [|e entries He _ IH]; [reflexivity|].
    cbn [find]. unfold namedOrKeyed at 1, named at 1. rewrite He.
    cbn [strict_eq]. rewrite orb_false_r.
    destruct (strict_eq (AttributeName e) n); [reflexivity | exact IH].
Qed.

Section QuerySoundness.
Context `{Host}.

(** What a successful decoding says of the trail. *)
Lemma mapTrailResponse_inv (d : RawFacility) (code : string) (t : Trail) :
  mapTrailResponse d code = Ok t ->
  id t = int_toString (FacilityID d) /\
  RecGov.name t = FacilityName d /\
  RecGov.parkCode t = code /\
  exists len diff,
    localAttributeValue d "Trail Length" = Ok len /\ length t = parseOptional len /\
    localAttributeValue d "Trail Difficulty" = Ok diff /\ difficulty t = diff.
Proof.
  unfold mapTrailResponse.
  destruct (localAttributeValue d "Trail Length") as [len|]; cbn [bind]; [|discriminate].
  destruct (localAttributeValue d "Trail Difficulty") as [diff|]; cbn [bind]; [|discriminate].
  destruct (localAttributeValue d "Elevation Gain") as [gain|]; cbn [bind]; [|discriminate].
  destruct (localAttributeValue d "Trail Surface") as [surf|]; cbn [bind]; [|discriminate].
  destruct (usesByName d officialActivities []) as [u1|]; cbn [bind]; [|discriminate].
  destruct (usesById d activityIdMap u1) as [u2|]; cbn [bind]; [|discriminate].
  destruct (localAttributeValue d "Activities") as [act|]; cbn [bind]; [|discriminate].
  destruct (localAttributeValue d "Trail Type") as [ty|]; cbn [bind]; [|discriminate].
  intros [= <-]. cbn. repeat split. exists len, diff. repeat split.
Qed.

(** X8.  The trails returned are the decodings of a subsequence of the
    candidates, in the candidates' order: each carries the id and the
    name of its candidate, and there are never more trails than
    candidates, whatever the query and however many detail requests
    failed. *)
Theorem listing_is_filtered_candidates
        (http : HttpClient) (code : string) (query : option Query) (recAreaId : Z)
        (facilities trails : list RawFacility) (result : list Trail) :
  parkToRecAreaId http code = Ok (Some recAreaId) ->
  recAreaId <> 0 ->
  get_recarea_facilities http recAreaId = Ok (Some facilities) ->
  facilities <> [] ->
  trailCandidates http code facilities = Ok trails ->
  getTrailsByPark http code query = Ok result ->
  (exists sel,
      Forall2 (fun d t => mapTrailResponse d code = Ok t /\
                          id t = int_toString (FacilityID d) /\
                          RecGov.name t = FacilityName d /\
                          RecGov.parkCode t = code)
              (filter sel (detailTrails http trails)) result) /\
  (List.length result <= List.length trails)%nat.
Proof.
  intros Hid Hnz Hfac Hne Hcand Hres.
  rewrite (getTrailsByPark_candidates _ _ query _ _ _ Hid Hnz Hfac Hne Hcand) in Hres.
  apply mapM_Ok_Forall2 in Hres.
  destruct (applyQuery_filter query (detailTrails http trails)) as [sel Esel].
  rewrite Esel in Hres.
  split.
  - exists sel. eapply Forall2_impl; [|exact Hres].
    intros d t Hdt. split; [exact Hdt|].
    destruct (mapTrailResponse_inv _ _ _ Hdt) as (Hi & Hn & Hc & _). auto.
  - rewrite <- (Forall2_length Hres).
    eapply Nat.le_trans; [apply filter_length_le|].
    unfold detailTrails. now rewrite length_map.
Qed.

(** X9.  Every trail returned satisfies the query, when the attribute
    entries carry no key: it has the id asked for, its difficulty
    contains the difficulty asked for without regard to case, and its
    decoded length is at least the lower and at most the upper bound. *)
Theorem returned_trails_satisfy_query
        (http : HttpClient) (code : string) (q : Query) (recAreaId : Z)
        (facilities trails : list RawFacility) (result : list Trail) :
  parkToRecAreaId http code = Ok (Some recAreaId) ->
  recAreaId <> 0 ->
  get_recarea_facilities http recAreaId = Ok (Some facilities) ->
  facilities <> [] ->
  trailCandidates http code facilities = Ok trails ->
  Forall (fun d => keyless (facilityAttributes d)) (detailTrails http trails) ->
  getTrailsByPark http code (Some q) = Ok result ->
  Forall (fun t =>
            (forall tid, trailId q = Some tid -> truthy_string tid = true ->
                         id t = tid) /\
            (forall dq, queryDifficulty q = Some dq -> truthy_string dq = true ->
                        exists v, difficulty t = Some v /\
                                  Spec.containsIgnoringCase v dq) /\
            (forall m, minLength q = Some m -> truthy_number m = true ->
                       exists x, length t = Some x /\ num_ge x m = true) /\
            (forall m, maxLength q = Some m -> truthy_number m = true ->
                       exists x, length t = Some x /\ num_le x m = true))
         result.
Proof.
  intros Hid Hnz Hfac Hne Hcand Hkeys Hres.
  rewrite (getTrailsByPark_candidates _ _ (Some q) _ _ _ Hid Hnz Hfac Hne Hcand) in Hres.
  apply mapM_Ok_Forall2 in Hres. cbn [applyQuery] in Hres.
  apply Forall_forall. intros t Ht.
  destruct (Forall2_In_r _ _ _ _ Hres Ht) as (d & Hd & Hdt).
  apply byMaxLength_In in Hd as [Hd Hmax].
  apply byMinLength_In in Hd as [Hd Hmin].
  apply byDifficulty_In in Hd as [Hd Hdiff].
  apply byTrailId_In in Hd as [Hd Htid].
  rewrite Forall_forall in Hkeys. specialize (Hkeys d Hd).
  destruct (mapTrailResponse_inv _ _ _ Hdt)
    as (Hi & _ & _ & len & diff & Elen & Hlen & Ediff & Hdf).
  apply (local_is_class _ _ _ Hkeys) in Elen.
  apply (local_is_class _ _ _ Hkeys) in Ediff.
  split; [|split; [|split]].
  - intros tid Hq Htruthy. rewrite Hi. now apply Htid.
  - intros dq Hq Htruthy.
    destruct (Hdiff dq Hq Htruthy) as (v & Hv & Hinc).
    exists v. split; [congruence|].
    apply includes_lower_spec in Hinc; [|apply toLowerCase_idem].
    destruct Hinc as (pre & mid & post & Etext & Emid).
    exists pre, mid, post. split; [exact Etext|].
    now rewrite Emid, toLowerCase_idem.
  - intros m Hq Htruthy.
    assert (Hon : truthy_onumber (minLength q) = true) by now rewrite Hq.
    specialize (Hmin Hon). unfold longEnough in Hmin.
    rewrite Elen in Hmin. destruct len as [v|]; [|discriminate].
    apply andb_true_iff in Hmin as [Hv Hge].
    exists (parseFloat v). split.
    + rewrite Hlen. unfold parseOptional. now rewrite Hv.
    + unfold num_or in Hge. rewrite Hq, Htruthy in Hge. exact Hge.
  - intros m Hq Htruthy.
    assert (Hon : truthy_onumber (maxLength q) = true) by now rewrite Hq.
    specialize (Hmax Hon). unfold shortEnough in Hmax.
    rewrite Elen in Hmax. destruct len as [v|]; [|discriminate].
    apply andb_true_iff in Hmax as [Hv Hle].
    exists (parseFloat v). split.
    + rewrite Hlen. unfold parseOptional. now rewrite Hv.
    + unfold num_or in Hle. rewrite Hq, Htruthy in Hle. exact Hle.
Qed.
End QuerySoundness.

Lemma httpMeasured_path :
  parkToRecAreaId httpMeasured "yose" = Ok (Some 2991) /\
  get_recarea_facilities httpMeasured 2991 = Ok (Some measuredTrails) /\
  trailCandidates httpMeasured "yose" measuredTrails = Ok measuredTrails.
Proof. repeat split; vm_compute; reflexivity. Qed.

Lemma listing_example :
  exists result,
    getTrailsByPark httpMeasured "yose" (Some twoMiles) = Ok result /\
    map id result = ["301"] /\
    (List.length result <= 3)%nat.
Proof.
  destruct httpMeasured_path as (Hid & Hfac & Hcand).
  destruct (getTrailsByPark httpMeasured "yose" (Some twoMiles)) as [result|e] eqn:E;
    [|vm_compute in E; discriminate E].
  exists result. split; [reflexivity|].
  assert (Hnz : 2991 <> 0) by discriminate.
  assert (Hne : measuredTrails <> []) by discriminate.
  destruct (listing_is_filtered_candidates
              httpMeasured "yose" (Some twoMiles) 2991 measuredTrails measuredTrails result
              Hid Hnz Hfac Hne Hcand E)
    as [_ Hlen].
  split; [|exact Hlen].
  vm_compute in E. injection E as <-. reflexivity.
Defined.

Lemma returned_trails_example :
  exists result,
    getTrailsByPark httpMeasured "yose" (Some twoMiles) = Ok result /\
    Forall (fun t => exists x, length t = Some x /\ num_ge x (Fin 2) = true) result.
Proof.
  destruct httpMeasured_path as (Hid & Hfac & Hcand).
  destruct (getTrailsByPark httpMeasured "yose" (Some twoMiles)) as [result|e] eqn:E;
    [|vm_compute in E; discriminate E].
  exists result. split; [reflexivity|].
  assert (Hnz : 2991 <> 0) by discriminate.
  assert (Hne : measuredTrails <> []) by discriminate.
  assert (Hkeys : Forall (fun d => keyless (facilityAttributes d))
                         (detailTrails httpMeasured measuredTrails))
    by (vm_compute; repeat constructor).
  pose proof (returned_trails_satisfy_query
                httpMeasured "yose" twoMiles 2991 measuredTrails measuredTrails result
                Hid Hnz Hfac Hne Hcand Hkeys E) as HF.
  eapply Forall_impl; [|exact HF].
  intros t (_ & _ & Hmin & _). apply (Hmin (Fin 2)); reflexivity.
Defined.

(** *** The capability list *)

Lemma uses_includes_spec (trailUses : list string) (x : string) :
  uses_includes trailUses x = true <-> In x trailUses.
Proof.
  unfold uses_includes. rewrite existsb_exists. split.
  - intros (y & Hy & Hxy). apply String.eqb_eq in Hxy. now subst.
  - intros Hin. exists x. split; [exact Hin | apply String.eqb_refl].
Qed.

Lemma uses_includes_false (trailUses : list string) (x : string) :
  uses_includes trailUses x = false <-> ~ In x trailUses.
Proof.
  rewrite <- uses_includes_spec. destruct (uses_includes trailUses x); split; congruence.
Qed.

Lemma push_NoDup (trailUses : list string) (x : string) :
  ~ In x trailUses -> NoDup trailUses -> NoDup (push trailUses x).
Proof.
  intros Hx Hu. unfold push.
  apply (Permutation_NoDup (Permutation_cons_append trailUses x)).
  now constructor.
Qed.

Lemma In_push (trailUses : list string) (x y : string) :
  In y (push trailUses x) <-> In y trailUses \/ y = x.
Proof.
  unfold push. rewrite in_app_iff. simpl. intuition.
Qed.

Lemma distinct_NoDup (l : list string) : distinct l = true -> NoDup l.
Proof.
  induction l as [|x l IH]; cbn [distinct]; [constructor|].
  intros Hd. apply andb_true_iff in Hd as [Hx Hl].
  constructor; [|now apply IH].
  apply negb_true_iff in Hx. now apply (uses_includes_false l x).
Qed.

Lemma officialActivities_NoDup : NoDup officialActivities.
Proof. apply distinct_NoDup. vm_compute. reflexivity. Qed.

Lemma notYetUsed_spec (trailUses : list string) (x : option string) (s : string) :
  notYetUsed trailUses x = Some s ->
  x = Some s /\ truthy_string s = true /\ ~ In s trailUses.
Proof.
  unfold notYetUsed. destruct x as [y|]; [|discriminate].
  destruct (truthy_string y && negb (uses_includes trailUses y)) eqn:E; [|discriminate].
  intros [= <-]. apply andb_true_iff in E as [Ht Hn].
  apply negb_true_iff, uses_includes_false in Hn. auto.
Qed.

Lemma usesByName_NoDup (trail : RawFacility) (names uses u : list string) :
  usesByName trail names uses = Ok u ->
  NoDup names -> NoDup uses -> (forall x, In x uses -> ~ In x names) ->
  NoDup u.
Proof.
  revert uses. induction names as [|n names IH]; intros uses; cbn [usesByName].
  - now intros [= <-].
  - destruct (localAttributeValue trail n) as [v|e]; cbn [bind]; [|discriminate].
    intros Hu Hnames Huses Hdisj.
    apply NoDup_cons_iff in Hnames as [Hn Hnames].
    apply (IH _ Hu Hnames).
    + destruct (strict_eq v "Yes"); [|exact Huses].
      apply push_NoDup; [|exact Huses].
      intros Hin. apply (Hdisj n Hin). now left.
    + intros x Hx Hxn. destruct (strict_eq v "Yes").
      * apply In_push in Hx as [Hx | ->]; [|contradiction].
        apply (Hdisj x Hx). now right.
      * apply (Hdisj x Hx). now right.
Qed.

Lemma usesById_NoDup (trail : RawFacility) (entries : list (string * string))
      (uses u : list string) :
  usesById trail entries uses = Ok u -> NoDup uses -> NoDup u.
Proof.
  revert uses. induction entries as [|[i n] entries IH]; intros uses; cbn [usesById].
  - now intros [= <-].
  - destruct (localAttributeValue trail i) as [v|e]; cbn [bind]; [|discriminate].
    intros Hu Huses. apply (IH _ Hu).
    destruct (strict_eq v "Yes" && negb (uses_includes uses n)) eqn:E; [|exact Huses].
    apply andb_true_iff in E as [_ E].
    apply negb_true_iff, uses_includes_false in E. now apply push_NoDup.
Qed.

Lemma usesFromJson_NoDup (items : list jsonItem) (uses : list string) :
  NoDup uses -> NoDup (fst (usesFromJson items uses)).
Proof.
  revert uses. induction items as [|item items IH]; intros uses Huses; [exact Huses|].
  destruct item as [s|oname oid| |]; cbn [usesFromJson].
  - apply IH. destruct (negb (uses_includes uses s)) eqn:E; [|exact Huses].
    apply negb_true_iff, uses_includes_false in E. now apply push_NoDup.
  - destruct (notYetUsed uses oname) as [n|] eqn:En.
    + apply notYetUsed_spec in En as (_ & _ & Hn). apply IH. now apply push_NoDup.
    + cbv zeta.
      match goal with
      | |- context [notYetUsed uses ?mapped] =>
          destruct (notYetUsed uses mapped) as [m|] eqn:Em
      end.
      * apply notYetUsed_spec in Em as (_ & _ & Hm). apply IH. now apply push_NoDup.
      * now apply IH.
  - exact Huses.
  - now apply IH.
Qed.

Lemma usesFromTokens_NoDup (tokens uses : list string) :
  NoDup uses -> NoDup (usesFromTokens tokens uses).
Proof.
  revert uses. induction tokens as [|tok tokens IH]; intros uses Huses; [exact Huses|].
  cbn [usesFromTokens]. apply IH.
  destruct (truthy_string (trim tok) && negb (uses_includes uses (trim tok))) eqn:E;
    [|exact Huses].
  apply andb_true_iff in E as [_ E].
  apply negb_true_iff, uses_includes_false in E. now apply push_NoDup.
Qed.

Section Capabilities.
Context `{Host}.

Lemma usesFromActivities_NoDup (activitiesAttribute : option string) (uses : list string) :
  NoDup uses -> NoDup (usesFromActivities activitiesAttribute uses).
Proof.
  intros Huses. unfold usesFromActivities.
  destruct activitiesAttribute as [a|]; [|exact Huses].
  destruct (truthy_string a); [|exact Huses].
  destruct (JSON_parse a) as [items| |]; [| exact Huses | now apply usesFromTokens_NoDup].
  pose proof (usesFromJson_NoDup items uses Huses) as Hj.
  destruct (usesFromJson items uses) as [u [e|]]; cbn [fst] in Hj.
  - now apply usesFromTokens_NoDup.
  - exact Hj.
Qed.

(** How the capability list of a decoded trail was built. *)
Lemma mapTrailResponse_uses (d : RawFacility) (code : string) (t : Trail) :
  mapTrailResponse d code = Ok t ->
  exists u1 u2 act,
    usesByName d officialActivities [] = Ok u1 /\
    usesById d activityIdMap u1 = Ok u2 /\
    localAttributeValue d "Activities" = Ok act /\
    trailUse t = usesFromActivities act u2.
Proof.
  unfold mapTrailResponse.
  destruct (localAttributeValue d "Trail Length") as [len|]; cbn [bind]; [|discriminate].
  destruct (localAttributeValue d "Trail Difficulty") as [diff|]; cbn [bind]; [|discriminate].
  destruct (localAttributeValue d "Elevation Gain") as [gain|]; cbn [bind]; [|discriminate].
  destruct (localAttributeValue d "Trail Surface") as [surf|]; cbn [bind]; [|discriminate].
  destruct (usesByName d officialActivities []) as [u1|]; cbn [bind]; [|discriminate].
  destruct (usesById d activityIdMap u1) as [u2|] eqn:E2; cbn [bind]; [|discriminate].
  destruct (localAttributeValue d "Activities") as [act|]; cbn [bind]; [|discriminate].
  destruct (localAttributeValue d "Trail Type") as [ty|]; cbn [bind]; [|discriminate].
  intros [= <-]. cbn [trailUse]. exists u1, u2, act.
  split; [reflexivity|]. split; [exact E2|]. split; reflexivity.
Qed.

(** X10.  The capability list of a decoded trail never names an
    activity twice, whatever the attributes flag, when the
    "Activities" attribute does not parse to an array that holds an
    object: a list of words, an array of strings or any other text. *)
Theorem trailUse_has_no_duplicates (trail : RawFacility) (code : string) (t : Trail) :
  withoutObjectItems trail ->
  mapTrailResponse trail code = Ok t -> NoDup (trailUse t).
Proof.
  intros _ Ht.
  destruct (mapTrailResponse_uses _ _ _ Ht) as (u1 & u2 & act & E1 & E2 & _ & ->).
  apply usesFromActivities_NoDup.
  apply (usesById_NoDup _ _ _ _ E2).
  apply (usesByName_NoDup _ _ _ _ E1).
  - apply officialActivities_NoDup.
  - constructor.
  - intros x [].
Qed.
End Capabilities.

Lemma trailUse_example :
  (exists t, mapTrailResponse flaggedTrail "yose" = Ok t /\
             trailUse t = ["Biking"; "Hiking"; "Stargazing"] /\
             NoDup (trailUse t)) /\
  (exists t, mapTrailResponse (facility 1 "A Trail" None jsonActivities) "yose" = Ok t /\
             trailUse t = ["Hiking"; "Biking"] /\
             NoDup (trailUse t)).
Proof.
  split.
  - destruct (mapTrailResponse flaggedTrail "yose") as [t|e] eqn:E;
      [|vm_compute in E; discriminate E].
    exists t. split; [reflexivity|].
    split; [|apply (trailUse_has_no_duplicates flaggedTrail "yose" t); [|exact E]].
    + vm_compute in E. injection E as <-. reflexivity.
    + intros a items Ha Hp. vm_compute in Ha. injection Ha as <-.
      vm_compute in Hp. discriminate Hp.
  - destruct (mapTrailResponse (facility 1 "A Trail" None jsonActivities) "yose")
      as [t|e] eqn:E; [|vm_compute in E; discriminate E].
    exists t. split; [reflexivity|].
    split; [|apply (trailUse_has_no_duplicates
                      (facility 1 "A Trail" None jsonActivities) "yose" t); [|exact E]].
    + vm_compute in E. injection E as <-. reflexivity.
    + intros a items Ha Hp. vm_compute in Ha. injection Ha as <-.
      vm_compute in Hp. injection Hp as <-. reflexivity.
Defined.

Lemma usesByName_members (trail : RawFacility) (names uses u : list string) :
  usesByName trail names uses = Ok u ->
  incl uses u /\
  forall n, In n names -> localAttributeValue trail n = Ok (Some "Yes") -> In n u.
Proof.
  revert uses. induction names as [|n0 names IH]; intros uses; cbn [usesByName].
  - intros [= <-]. split; [apply incl_refl | contradiction].
  - destruct (localAttributeValue trail n0) as [v|e] eqn:Ev; cbn [bind]; [|discriminate].
    intros Hu. destruct (IH _ Hu) as [Hincl Hflag]. split.
    + intros x Hx. apply Hincl. destruct (strict_eq v "Yes"); [|exact Hx].
      apply In_push. now left.
    + intros n [<- | Hn] Hyes.
      * rewrite Ev in Hyes. injection Hyes as ->. cbn [strict_eq] in Hincl.
        rewrite String.eqb_refl in Hincl. apply Hincl, In_push. now right.
      * now apply Hflag.
Qed.

Lemma usesById_members (trail : RawFacility) (entries : list (string * string))
      (uses u : list string) :
  usesById trail entries uses = Ok u ->
  incl uses u /\
  forall i n, In (i, n) entries -> localAttributeValue trail i = Ok (Some "Yes") -> In n u.
Proof.
  revert uses. induction entries as [|[i0 n0] entries IH]; intros uses; cbn [usesById].
  - intros [= <-]. split; [apply incl_refl | contradiction].
  - destruct (localAttributeValue trail i0) as [v|e] eqn:Ev; cbn [bind]; [|discriminate].
    intros Hu. destruct (IH _ Hu) as [Hincl Hflag].
    assert (Hkeep : incl uses u).
    { intros x Hx. apply Hincl. destruct (_ && _); [|exact Hx]. apply In_push. now left. }
    split; [exact Hkeep|].
    intros i n [[= <- <-] | Hin] Hyes.
    + rewrite Ev in Hyes. injection Hyes as ->. cbn [strict_eq] in Hincl.
      rewrite String.eqb_refl in Hincl. cbn [andb] in Hincl.
      destruct (uses_includes uses n0) eqn:Ei; cbn [negb] in Hincl.
      * apply Hkeep. now apply uses_includes_spec.
      * apply Hincl, In_push. now right.
    + now apply (Hflag i n).
Qed.

Lemma usesFromJson_members (items : list jsonItem) (uses : list string) :
  incl uses (fst (usesFromJson items uses)) /\
  (~ In ItemNull items ->
   forall s, In (ItemString s) items -> In s (fst (usesFromJson items uses))).
Proof.
  revert uses. induction items as [|item items IH]; intros uses.
  - split; [apply incl_refl | contradiction].
  - assert (Hstep : forall uses', incl uses uses' ->
                                  incl uses (fst (usesFromJson items uses'))).
    { intros uses' Hi x Hx. apply (proj1 (IH uses')). now apply Hi. }
    assert (Hpush : forall x, incl uses (push uses x)).
    { intros x y Hy. apply In_push. now left. }
    destruct item as [s0|oname oid| |]; cbn [usesFromJson].
    + split.
      * apply Hstep. destruct (negb _); [apply Hpush | apply incl_refl].
      * intros Hnull s [[= <-] | Hin].
        -- apply (proj1 (IH _)).
           destruct (uses_includes uses s0) eqn:Ei; cbn [negb].
           ++ now apply uses_includes_spec.
           ++ apply In_push. now right.
        -- apply (proj2 (IH _)); [|exact Hin]. intros Hn. apply Hnull. now right.
    + assert (Hrest : ~ In ItemNull (ItemObject oname oid :: items) ->
                      ~ In ItemNull items)
        by (intros Hnull Hn; apply Hnull; now right).
      destruct (notYetUsed uses oname) as [n|].
      * split; [apply Hstep, Hpush|].
        intros Hnull s [Hs | Hin]; [discriminate Hs|].
        apply (proj2 (IH _)); auto.
      * cbv zeta.
        match goal with
        | |- context [notYetUsed uses ?mapped] => destruct (notYetUsed uses mapped) as [m|]
        end.
        -- split; [apply Hstep, Hpush|].
           intros Hnull s [Hs | Hin]; [discriminate Hs|].
           apply (proj2 (IH _)); auto.
        -- split; [apply Hstep, incl_refl|].
           intros Hnull s [Hs | Hin]; [discriminate Hs|].
           apply (proj2 (IH _)); auto.
    + split; [apply incl_refl|]. intros Hnull. exfalso. apply Hnull. now left.
    + split; [apply Hstep, incl_refl|].
      intros Hnull s [Hs | Hin]; [discriminate Hs|].
      apply (proj2 (IH _)); [|exact Hin]. intros Hn. apply Hnull. now right.
Qed.

Lemma usesFromTokens_members (tokens uses : list string) :
  incl uses (usesFromTokens tokens uses) /\
  forall tok, In tok tokens -> truthy_string (trim tok) = true ->
              In (trim tok) (usesFromTokens tokens uses).
Proof.
  revert uses. induction tokens as [|tok0 tokens IH]; intros uses.
  - split; [apply incl_refl | contradiction].
  - cbn [usesFromTokens].
    assert (Hkeep : incl uses (usesFromTokens tokens
                      (if truthy_string (trim tok0) && negb (uses_includes uses (trim tok0))
                       then push uses (trim tok0) else uses))).
    { intros x Hx. apply (proj1 (IH _)). destruct (_ && _); [|exact Hx].
      apply In_push. now left. }
    split; [exact Hkeep|].
    intros tok [<- | Hin] Htruthy.
    + rewrite Htruthy. cbn [andb].
      destruct (uses_includes uses (trim tok0)) eqn:Ei; cbn [negb].
      * apply (proj1 (IH _)). now apply uses_includes_spec.
      * apply (proj1 (IH _)). apply In_push. now right.
    + now apply (proj2 (IH _)).
Qed.

Section Flagged.
Context `{Host}.

Lemma usesFromActivities_incl (act : option string) (uses : list string) :
  incl uses (usesFromActivities act uses).
Proof.
  unfold usesFromActivities. destruct act as [a|]; [|apply incl_refl].
  destruct (truthy_string a); [|apply incl_refl].
  destruct (JSON_parse a) as [items| |].
  - pose proof (proj1 (usesFromJson_members items uses)) as Hj.
    destruct (usesFromJson items uses) as [u [e|]]; cbn [fst] in Hj; [|exact Hj].
    intros x Hx. apply (proj1 (usesFromTokens_members _ _)). now apply Hj.
  - apply incl_refl.
  - apply (proj1 (usesFromTokens_members _ _)).
Qed.

(** X11.  Everything the attributes flag is in the capability list of
    the decoded trail: each official activity whose attribute is
    "Yes", each activity whose id-named attribute is "Yes", each string
    of an "Activities" attribute that parses to a JSON array without
    [null], and each non-blank word of one that does not parse. *)
Theorem flagged_activities_are_listed (trail : RawFacility) (code : string) (t : Trail) :
  mapTrailResponse trail code = Ok t ->
  (forall n, In n officialActivities ->
             localAttributeValue trail n = Ok (Some "Yes") -> In n (trailUse t)) /\
  (forall i n, In (i, n) activityIdMap ->
               localAttributeValue trail i = Ok (Some "Yes") -> In n (trailUse t)) /\
  (forall a, localAttributeValue trail "Activities" = Ok (Some a) ->
             truthy_string a = true ->
             (forall items s, JSON_parse a = ParsedArray items ->
                              ~ In ItemNull items -> In (ItemString s) items ->
                              In s (trailUse t)) /\
             (JSON_parse a = ParseFailure ->
              forall tok, In tok (split_comma a) -> truthy_string (trim tok) = true ->
                          In (trim tok) (trailUse t))).
Proof.
  intros Ht.
  destruct (mapTrailResponse_uses _ _ _ Ht) as (u1 & u2 & act & E1 & E2 & Eact & ->).
  destruct (usesByName_members _ _ _ _ E1) as [_ Hname].
  destruct (usesById_members _ _ _ _ E2) as [Hkeep Hid].
  split; [|split].
  - intros n Hn Hyes. apply usesFromActivities_incl, Hkeep. now apply Hname.
  - intros i n Hin Hyes. apply usesFromActivities_incl. now apply (Hid i n).
  - intros a Ha Htruthy. rewrite Eact in Ha. injection Ha as ->.
    unfold usesFromActivities. rewrite Htruthy. split.
    + intros items s Hparse Hnull Hs. rewrite Hparse.
      pose proof (usesFromJson_members items u2) as [Hincl Hmem].
      specialize (Hmem Hnull s Hs).
      destruct (usesFromJson items u2) as [u [e|]]; cbn [fst] in *; [|exact Hmem].
      now apply (proj1 (usesFromTokens_members _ _)).
    + intros Hparse tok Htok Htrim. rewrite Hparse.
      now apply (proj2 (usesFromTokens_members _ _)).
Qed.
End Flagged.

Lemma flagged_activities_example :
  exists t, mapTrailResponse flaggedTrail "yose" = Ok t /\
            In "Hiking" (trailUse t) /\ In "Biking" (trailUse t) /\
            In "Stargazing" (trailUse t).
Proof.
  destruct (mapTrailResponse flaggedTrail "yose") as [t|e] eqn:E;
    [|vm_compute in E; discriminate E].
  exists t. split; [reflexivity|].
  destruct (flagged_activities_are_listed flaggedTrail "yose" t E) as (Hname & Hid & Hact).
  split; [|split].
  - apply Hname; [vm_compute; auto 50 | reflexivity].
  - apply (Hid "7CE6E935-F839-4FEC-A63E-052B1DEF39D2"); [vm_compute; auto 50 | reflexivity].
  - destruct (Hact "Hiking, Stargazing" eq_refl eq_refl) as [_ Hwords].
    apply (Hwords eq_refl " Stargazing"); [vm_compute; auto | reflexivity].
Defined.

(* ================================================================== *)
(** ** The park lookup under the tools *)
(* ================================================================== *)

Section ParkLookup.
Context `{Host}.

Lemma planParkVisit_first (svc : Services) (code : string) (sd ed : option string) :
  Visit.getParkById svc code <> Ok None ->
  exists rest,
    planParkVisit svc code sd ed = Lit "# Visit Planning for " :: rest \/
    planParkVisit svc code sd ed = Lit "Error planning park visit: " :: rest.
Proof.
  intros Hp. unfold planParkVisit, planParkVisit_try.
  destruct (Visit.getParkById svc code) as [[park|]|e]; cbn [bind];
    [| contradiction | eexists; right; reflexivity].
  destruct (getAlertsByPark svc code) as [alerts|e]; cbn [bind];
    [| eexists; right; reflexivity].
  destruct (get7DayForecastByLocation svc (Visit.name park)) as [forecast|e]; cbn [bind];
    [| eexists; right; reflexivity].
  destruct (getDetailedForecast svc (Visit.name park)) as [detailed|e]; cbn [bind];
    [| eexists; right; reflexivity].
  eexists; left; reflexivity.
Qed.

Lemma getParkOverview_first (svc : Services) (code : string) :
  Visit.getParkById svc code <> Ok None ->
  exists rest,
    getParkOverview svc code = Lit "# " :: rest \/
    getParkOverview svc code = Lit "Error retrieving park overview: " :: rest.
Proof.
  intros Hp. unfold getParkOverview, getParkOverview_try.
  destruct (Visit.getParkById svc code) as [[park|]|e]; cbn [bind];
    [| contradiction | eexists; right; reflexivity].
  destruct (getAlertsByPark svc code) as [alerts|e]; cbn [bind];
    [| eexists; right; reflexivity].
  destruct (get7DayForecastByLocation svc (Visit.name park)) as [forecast|e]; cbn [bind];
    [| eexists; right; reflexivity].
  destruct (getEventsByPark svc code Date_today Date_in_two_weeks) as [events|e];
    cbn [bind]; [| eexists; right; reflexivity].
  destruct (getCampgroundsByPark svc code) as [campgrounds|e]; cbn [bind];
    [| eexists; right; reflexivity].
  eexists; left; reflexivity.
Qed.

Lemma getParkWeatherForecast_first (svc : Services) (code : string) :
  Visit.getParkById svc code <> Ok None ->
  exists rest,
    Tools.getParkWeatherForecast svc code = Lit "Found park " :: rest \/
    Tools.getParkWeatherForecast svc code = Lit "Weather forecast for " :: rest \/
    Tools.getParkWeatherForecast svc code
    = Lit "Error retrieving park weather forecast: " :: rest.
Proof.
  intros Hp. unfold Tools.getParkWeatherForecast, Tools.getParkWeatherForecast_try.
  destruct (Visit.getParkById svc code) as [[park|]|e]; cbn [bind];
    [| contradiction | eexists; right; right; reflexivity].
  destruct (get7DayForecastByLocation svc (Visit.name park)) as [[[|d ds]|]|e]; cbn [bind].
  - eexists; left; reflexivity.
  - eexists; right; left; reflexivity.
  - eexists; left; reflexivity.
  - eexists; right; right; reflexivity.
Qed.

(** X12.  [getParkById] of the NPS service never resolves to a falsy
    value: when the parks endpoint returns no park it throws a
    [TypeError].  So with this service under them the tools never
    answer "Could not find park with code", and a park code the
    endpoint does not know gives their error text. *)
Theorem unknown_park_is_an_error
        (http : Nps.HttpClient) (svc : Services) (view : Nps.Park -> Park) (code : string) :
  (forall c, Visit.getParkById svc c =
             bind (Nps.getParkById http c) (fun p => Ok (Some (view p)))) ->
  ((forall sd ed, planParkVisit svc code sd ed <> Tools.notFoundText code) /\
   getParkOverview svc code <> Tools.notFoundText code /\
   Tools.getParkWeatherForecast svc code <> Tools.notFoundText code) /\
  (Nps.get_parks_by_code http code = Ok (Some []) ->
   Nps.getParkById http code = Throw Nps.undefinedId /\
   (forall sd ed, planParkVisit svc code sd ed = errorText Nps.undefinedId) /\
   getParkOverview svc code = overviewErrorText Nps.undefinedId /\
   Tools.getParkWeatherForecast svc code =
   [Lit "Error retrieving park weather forecast: "; Str (message Nps.undefinedId)]).
Proof.
  intros Hsvc.
  assert (Hnever : Visit.getParkById svc code <> Ok None).
  { rewrite Hsvc. destruct (Nps.getParkById http code); cbn [bind]; discriminate. }
  split.
  - split; [|split].
    + intros sd ed E.
      destruct (planParkVisit_first svc code sd ed Hnever) as [rest [E' | E']];
        rewrite E' in E; discriminate E.
    + intros E.
      destruct (getParkOverview_first svc code Hnever) as [rest [E' | E']];
        rewrite E' in E; discriminate E.
    + intros E.
      destruct (getParkWeatherForecast_first svc code Hnever) as [rest [E' | [E' | E']]];
        rewrite E' in E; discriminate E.
  - intros Hempty.
    assert (Ethrow : Nps.getParkById http code = Throw Nps.undefinedId).
    { unfold Nps.getParkById. now rewrite Hempty. }
    assert (Esvc : Visit.getParkById svc code = Throw Nps.undefinedId).
    { rewrite Hsvc, Ethrow. reflexivity. }
    split; [exact Ethrow|]. split; [|split].
    + intros sd ed. unfold planParkVisit, planParkVisit_try. now rewrite Esvc.
    + unfold getParkOverview, getParkOverview_try. now rewrite Esvc.
    + unfold Tools.getParkWeatherForecast, Tools.getParkWeatherForecast_try.
      now rewrite Esvc.
Qed.
End ParkLookup.

Lemma unknown_park_example :
  planParkVisit (servicesOver npsNoPark) "atlantis" None None =
  [Lit "Error planning park visit: ";
   Str "Cannot read properties of undefined (reading 'id')"] /\
  getParkOverview (servicesOver npsNoPark) "atlantis" <> Tools.notFoundText "atlantis".
Proof.
  destruct (unknown_park_is_an_error npsNoPark (servicesOver npsNoPark) parkView "atlantis")
    as [(_ & Hnot & _) Herr].
  { intros c. reflexivity. }
  destruct (Herr eq_refl) as (_ & Hplan & _).
  split; [apply Hplan | exact Hnot].
Defined.

(** *** The forecast tool *)

Lemma isBullet_line (day : ForecastDay) (rest : text) :
  filter Tools.isBullet
         ([Tools.bullet; Str (date day); Lit ": "; Num (minTempF day); Lit "°F to ";
           Num (maxTempF day); Lit "°F, "; Str (condition day); Nl] ++ rest)
  = Tools.bullet :: filter Tools.isBullet rest.
Proof. reflexivity. Qed.

Lemma formatWeatherForecast_days (d : ForecastDay) (ds : list ForecastDay)
      (locationName : option string) :
  let t := Tools.formatWeatherForecast (Some (d :: ds)) locationName in
  List.length (filter Tools.isBullet t) = List.length (d :: ds) /\
  (forall day, In day (d :: ds) -> In (Str (date day)) t) /\
  ~ In Tools.noForecastData t.
Proof.
  cbv zeta. unfold Tools.formatWeatherForecast.
  set (header := match locationName with Some n => _ | None => _ end).
  assert (Hh : filter Tools.isBullet header = [] /\ ~ In Tools.noForecastData header).
  { unfold header. destruct locationName as [n|]; [destruct (truthy_string n)|];
      (split; [reflexivity|]); simpl; unfold Tools.noForecastData; intuition discriminate. }
  destruct Hh as [Hb Hn].
  generalize (d :: ds). intros days.
  rewrite filter_app, Hb. cbn [app].
  split; [|split].
  - induction days as [|day days IH]; [reflexivity|].
    cbn [flat_map]. rewrite isBullet_line. cbn [List.length]. now rewrite IH.
  - intros day Hin. apply in_or_app; right.
    apply in_flat_map. exists day. split; [exact Hin|]. simpl; auto.
  - intros Hin. apply in_app_or in Hin as [Hin | Hin]; [now apply Hn|].
    apply in_flat_map in Hin as (day & _ & Hin).
    simpl in Hin. unfold Tools.noForecastData, Tools.bullet in Hin.
    intuition discriminate.
Qed.

(** X13.  The forecast tool never says "No forecast data available.":
    an empty forecast is answered before the forecast is formatted.
    For a forecast that is not empty its text has one bullet for each
    forecast day and names the date of each. *)
Theorem park_forecast_lists_each_day (svc : Services) (code : string) :
  ~ In Tools.noForecastData (Tools.getParkWeatherForecast svc code) /\
  (forall park d ds,
      Visit.getParkById svc code = Ok (Some park) ->
      get7DayForecastByLocation svc (Visit.name park) = Ok (Some (d :: ds)) ->
      List.length (filter Tools.isBullet (Tools.getParkWeatherForecast svc code))
      = List.length (d :: ds) /\
      forall day, In day (d :: ds) ->
                  In (Str (date day)) (Tools.getParkWeatherForecast svc code)).
Proof.
  split.
  - unfold Tools.getParkWeatherForecast, Tools.getParkWeatherForecast_try.
    destruct (Visit.getParkById svc code) as [[park|]|e]; cbn [bind].
    + destruct (get7DayForecastByLocation svc (Visit.name park)) as [[[|d ds]|]|e];
        cbn [bind]; try (simpl; unfold Tools.noForecastData; intuition discriminate).
      intros Hin. apply in_app_or in Hin as [Hin | Hin].
      * simpl in Hin. unfold Tools.noForecastData in Hin. intuition discriminate.
      * now apply (formatWeatherForecast_days d ds (Some (Visit.name park))) in Hin.
    + simpl; unfold Tools.noForecastData; intuition discriminate.
    + simpl; unfold Tools.noForecastData; intuition discriminate.
  - intros park d ds Hp Hf.
    unfold Tools.getParkWeatherForecast, Tools.getParkWeatherForecast_try.
    rewrite Hp; cbn [bind]. rewrite Hf; cbn [bind].
    destruct (formatWeatherForecast_days d ds (Some (Visit.name park))) as (Hlen & Hdates & _).
    split.
    + rewrite filter_app. cbn [filter Tools.isBullet String.eqb Ascii.eqb Bool.eqb app].
      exact Hlen.
    + intros day Hin. apply in_or_app; right. now apply Hdates.
Qed.

Lemma park_forecast_example :
  List.length (filter Tools.isBullet
                      (Tools.getParkWeatherForecast (servicesUp [] (Some mayForecast)) "yose"))
  = 8%nat.
Proof.
  destruct (park_forecast_lists_each_day (servicesUp [] (Some mayForecast)) "yose")
    as [_ Hdays].
  destruct (Hdays yosemite (mildDay "2024-05-03") (tl mayForecast) eq_refl eq_refl)
    as [Hlen _].
  exact Hlen.
Defined.

(* ================================================================== *)
(** ** Campground availability *)
(* ================================================================== *)

Example iso_day_ex :
  IsoDay.iso_day (19844 * 86400000) = "2024-05-01" /\
  IsoDay.iso_day 0 = "1970-01-01" /\
  IsoDay.iso_day (19782 * 86400000) = "2024-02-29".
Proof. repeat split; vm_compute; reflexivity. Qed.

Example getDateRange_ex :
  Camp.getDateRange "2024-02-27" "2024-03-01"
  = ["2024-02-27"; "2024-02-28"; "2024-02-29"; "2024-03-01"].
Proof. vm_compute. reflexivity. Qed.

Example mockAvailabilityCheck_ex :
  map (fun a => (Camp.campSiteID a, Camp.availableDate a, Camp.price a))
      (Camp.mockAvailabilityCheck alternating 233 "2024-05-01" "2024-05-02")
  = [(233001, "2024-05-01", 35); (233002, "2024-05-01", 35); (233003, "2024-05-01", 35)].
Proof. vm_compute. reflexivity. Qed.

Lemma msPerDay_pos : 0 < Camp.msPerDay.
Proof. reflexivity. Qed.

Lemma dayCount_step (c e : Z) :
  c <= e -> dayCount c e = S (dayCount (c + Camp.msPerDay) e).
Proof.
  intros Hce. unfold dayCount. pose proof msPerDay_pos as HD.
  apply Z.leb_le in Hce as Hb. rewrite Hb.
  destruct (c + Camp.msPerDay <=? e) eqn:E.
  - apply Z.leb_le in E.
    replace (e - c) with ((e - (c + Camp.msPerDay)) + 1 * Camp.msPerDay) by ring.
    rewrite Z.div_add by lia.
    assert (0 <= (e - (c + Camp.msPerDay)) / Camp.msPerDay)
      by (apply Z.div_pos; lia).
    lia.
  - apply Z.leb_gt in E.
    rewrite Z.div_small by lia. reflexivity.
Qed.

Lemma rangeLoop_closed (e : Z) (fuel : nat) (c : Z) :
  (dayCount c e < fuel)%nat ->
  Camp.rangeLoop fuel c e = map (dayAfter c) (seq 0 (dayCount c e)).
Proof.
  revert c. induction fuel as [|fuel IH]; intros c Hfuel; [lia|].
  cbn [Camp.rangeLoop]. destruct (c <=? e) eqn:E.
  - apply Z.leb_le in E. rewrite (dayCount_step c e E) in *.
    rewrite IH by lia. cbn [seq map]. f_equal.
    + unfold dayAfter. cbn. ring.
    + rewrite <- seq_shift, map_map. apply map_ext. intros k.
      unfold dayAfter. rewrite Nat2Z.inj_succ. ring.
  - unfold dayCount. now rewrite E.
Qed.

Lemma rangeFuel_enough (s e : Z) : (dayCount s e < Camp.rangeFuel s e)%nat.
Proof.
  unfold dayCount, Camp.rangeFuel. destruct (s <=? e); lia.
Qed.

Section DateRange.
Context `{Host} `{IsoDates}.

(** X14.  [getDateRange] is empty when a date is not valid or the end
    lies before the start.  Otherwise it gives the ISO days of the
    start and of every whole day after it up to the end, the end
    included; the loop stops by its own test, so more turns allowed
    give the same list. *)
Theorem date_range_is_inclusive (startDate endDate : string) :
  (Date_parse startDate = None \/ Date_parse endDate = None \/
   (exists s e, Date_parse startDate = Some s /\ Date_parse endDate = Some e /\ e < s) ->
   Camp.getDateRange startDate endDate = []) /\
  (forall s e,
      Date_parse startDate = Some s -> Date_parse endDate = Some e -> s <= e ->
      Camp.getDateRange startDate endDate
      = map (fun k => Date_isoDay (dayAfter s k)) (seq 0 (dayCount s e)) /\
      (0 < dayCount s e)%nat /\
      (forall k, (k < dayCount s e)%nat -> dayAfter s k <= e) /\
      e < dayAfter s (dayCount s e) /\
      (forall fuel, (Camp.rangeFuel s e <= fuel)%nat ->
                    Camp.rangeLoop fuel s e = Camp.rangeLoop (Camp.rangeFuel s e) s e)).
Proof.
  split.
  - intros Hdeg. unfold Camp.getDateRange.
    destruct (Date_parse startDate) as [s|]; [|reflexivity].
    destruct (Date_parse endDate) as [e|]; [|reflexivity].
    destruct Hdeg as [Hn | [Hn | (s' & e' & [= <-] & [= <-] & Hlt)]]; try discriminate.
    rewrite rangeLoop_closed by apply rangeFuel_enough.
    unfold dayCount. apply Z.leb_gt in Hlt. now rewrite Hlt.
  - intros s e Hs He Hle. pose proof msPerDay_pos as HD.
    assert (Hq : 0 <= (e - s) / Camp.msPerDay) by (apply Z.div_pos; lia).
    assert (Hcount : Z.of_nat (dayCount s e) = (e - s) / Camp.msPerDay + 1).
    { unfold dayCount. apply Z.leb_le in Hle. rewrite Hle. lia. }
    split; [|split; [|split; [|split]]].
    + unfold Camp.getDateRange. rewrite Hs, He.
      rewrite rangeLoop_closed by apply rangeFuel_enough. now rewrite map_map.
    + lia.
    + intros k Hk. unfold dayAfter.
      pose proof (Z.mul_div_le (e - s) Camp.msPerDay HD). nia.
    + unfold dayAfter. rewrite Hcount.
      pose proof (Z.mod_pos_bound (e - s) Camp.msPerDay HD).
      pose proof (Z.div_mod (e - s) Camp.msPerDay). nia.
    + intros fuel Hfuel. pose proof (rangeFuel_enough s e).
      rewrite !rangeLoop_closed by lia. reflexivity.
Qed.
End DateRange.

Lemma date_range_example :
  Camp.getDateRange "2024-05-31" "2024-06-02" = ["2024-05-31"; "2024-06-01"; "2024-06-02"] /\
  Camp.getDateRange "2024-06-02" "2024-05-31" = [] /\
  Camp.getDateRange "tomorrow" "2024-05-31" = [].
Proof.
  destruct (date_range_is_inclusive "2024-05-31" "2024-06-02") as [_ Hin].
  destruct (Hin (19874 * 86400000) (19876 * 86400000)) as (Hrange & _);
    [vm_compute; reflexivity | vm_compute; reflexivity | lia |].
  destruct (date_range_is_inclusive "2024-06-02" "2024-05-31") as [Hinv _].
  destruct (date_range_is_inclusive "tomorrow" "2024-05-31") as [Hbad _].
  split; [|split].
  - rewrite Hrange. vm_compute. reflexivity.
  - apply Hinv. right; right.
    exists (19876 * 86400000), (19874 * 86400000).
    split; [vm_compute; reflexivity|]. split; [vm_compute; reflexivity | lia].
  - apply Hbad. now left.
Defined.

(** *** The simulated availability *)

Lemma ceil_div_nonpos (a : Z) : a <= 0 -> Camp.ceil_div a Camp.msPerDay <= 0.
Proof.
  intros Ha. unfold Camp.ceil_div. pose proof msPerDay_pos.
  assert (0 <= (- a) / Camp.msPerDay) by (apply Z.div_pos; lia). lia.
Qed.

Lemma price_range (r : Q) : (0 <= r)%Q -> (r < 1)%Q -> 20 <= Qfloor (r * 30) + 20 <= 49.
Proof.
  intros H0 H1.
  assert (Hlo : (0 <= r * 30)%Q).
  { apply Qmult_le_0_compat; [exact H0 | discriminate]. }
  assert (Hhi : (r * 30 < 30)%Q).
  { setoid_replace (30 : Q) with (1 * 30)%Q at 2 by reflexivity.
    apply Qmult_lt_compat_r; [reflexivity | exact H1]. }
  pose proof (Qfloor_resp_le _ _ Hlo) as Hf0. change (Qfloor 0) with 0 in Hf0.
  assert (Hf1 : Qfloor (r * 30) < 30).
  { rewrite Zlt_Qlt. eapply Qle_lt_trans; [apply Qfloor_le | exact Hhi]. }
  lia.
Qed.

Section MockShape.
Context `{IsoDates}.
Variable random : nat -> Q.
Hypothesis random_unit : forall n, (0 <= random n)%Q /\ (random n < 1)%Q.

Lemma mockSite_simulated (facilityId dateStart i siteId lo hi : Z) (call : nat) :
  1 <= siteId <= 3 -> lo <= i < hi ->
  simulated facilityId dateStart lo hi (Camp.mockSite random facilityId dateStart i siteId call).
Proof.
  intros Hsite Hi. unfold simulated, Camp.mockSite; cbn.
  split; [reflexivity|]. split; [lia|]. split.
  - destruct (random_unit (S call)) as [H0 H1]. now apply price_range.
  - split; [reflexivity|]. split; [destruct (negb _); discriminate|].
    exists i. split; [exact Hi | reflexivity].
Qed.

Lemma mockDays_shape (facilityId dateStart : Z) (todo : nat) (i : Z) (call : nat) (lo : Z) :
  lo <= i ->
  List.length (Camp.mockDays random facilityId dateStart i todo call) = (3 * todo)%nat /\
  Forall (simulated facilityId dateStart lo (i + Z.of_nat todo))
         (Camp.mockDays random facilityId dateStart i todo call).
Proof.
  revert i call. induction todo as [|todo IH]; intros i call Hlo; cbn [Camp.mockDays].
  - split; [reflexivity | constructor].
  - destruct (IH (i + 1) (call + 6)%nat) as [Hlen Hall]; [lia|].
    split; [cbn [List.length]; lia|].
    replace (i + Z.of_nat (S todo)) with (i + 1 + Z.of_nat todo) by lia.
    repeat (constructor; [apply mockSite_simulated; lia|]).
    exact Hall.
Qed.
End MockShape.

Section MockAvailability.
Context `{Host} `{IsoDates}.

(** X15.  The simulated availability, for outcomes of [Math.random()]
    in [0, 1): it is empty when a date is not valid or the end is not
    after the start; otherwise it has three entries for each started
    day between start and end, each for the facility asked for, with a
    site number of the facility, a price from 20 to 49, the type
    "campsite", a status that is never "Not Available", and the date of
    one of those days. *)
Theorem mock_availability_shape
        (random : nat -> Q) (facilityId : Z) (startDate endDate : string) :
  (forall n, (0 <= random n)%Q /\ (random n < 1)%Q) ->
  (Date_parse startDate = None \/ Date_parse endDate = None ->
   Camp.mockAvailabilityCheck random facilityId startDate endDate = []) /\
  (forall s e,
      Date_parse startDate = Some s -> Date_parse endDate = Some e ->
      let daysDiff := Camp.ceil_div (e - s) Camp.msPerDay in
      let data := Camp.mockAvailabilityCheck random facilityId startDate endDate in
      (e <= s -> data = []) /\
      List.length data = (3 * Z.to_nat daysDiff)%nat /\
      Forall (simulated facilityId s 0 daysDiff) data).
Proof.
  intros Hrandom. split.
  - intros Hbad. unfold Camp.mockAvailabilityCheck.
    destruct (Date_parse startDate); [|reflexivity].
    destruct (Date_parse endDate); [|reflexivity].
    destruct Hbad; discriminate.
  - intros s e Hs He. cbv zeta. unfold Camp.mockAvailabilityCheck. rewrite Hs, He.
    split; [|split].
    + intros Hle. pose proof (ceil_div_nonpos (e - s)).
      replace (Z.to_nat (Camp.ceil_div (e - s) Camp.msPerDay)) with 0%nat by lia.
      reflexivity.
    + apply (mockDays_shape random Hrandom facilityId s _ 0 0%nat 0). lia.
    + destruct (Z.to_nat (Camp.ceil_div (e - s) Camp.msPerDay)) as [|n] eqn:En;
        [constructor|].
      pose proof (mockDays_shape random Hrandom facilityId s (S n) 0 0%nat 0
                                 (Z.le_refl 0)) as [_ Hall].
      replace (0 + Z.of_nat (S n)) with (Camp.ceil_div (e - s) Camp.msPerDay) in Hall
        by lia.
      exact Hall.
Qed.
End MockAvailability.

Lemma alternating_unit (n : nat) : (0 <= alternating n)%Q /\ (alternating n < 1)%Q.
Proof. unfold alternating. destruct (Nat.even n); split; reflexivity || discriminate. Qed.

Lemma mock_availability_example :
  List.length (Camp.mockAvailabilityCheck alternating 233 "2024-05-01" "2024-05-03") = 6%nat /\
  Camp.mockAvailabilityCheck alternating 233 "2024-05-01" "2024-05-01" = [].
Proof.
  destruct (mock_availability_shape alternating 233 "2024-05-01" "2024-05-03"
                                    alternating_unit) as [_ Htwo].
  destruct (Htwo (19844 * 86400000) (19846 * 86400000)) as (_ & Hlen & _);
    [vm_compute; reflexivity | vm_compute; reflexivity |].
  destruct (mock_availability_shape alternating 233 "2024-05-01" "2024-05-01"
                                    alternating_unit) as [_ Hnone].
  destruct (Hnone (19844 * 86400000) (19844 * 86400000)) as (Hempty & _);
    [vm_compute; reflexivity | vm_compute; reflexivity |].
  split; [exact Hlen | apply Hempty; lia].
Defined.

(** *** The availability report *)

Lemma nights_le_dayCount (s e : Z) : s <= e -> (nights s e <= dayCount s e)%nat.
Proof.
  intros Hle. unfold nights, dayCount, Camp.ceil_div. pose proof msPerDay_pos as HD.
  apply Z.leb_le in Hle as Hb. rewrite Hb.
  assert (0 <= (e - s) / Camp.msPerDay) by (apply Z.div_pos; lia).
  assert (- ((e - s) / Camp.msPerDay) - 1 <= (- (e - s)) / Camp.msPerDay).
  { apply Z.div_le_lower_bound; [exact HD|].
    pose proof (Z.mod_pos_bound (e - s) Camp.msPerDay HD).
    pose proof (Z.div_mod (e - s) Camp.msPerDay). nia. }
  lia.
Qed.

Lemma nights_whole_days (s e : Z) :
  s <= e -> (e - s) mod Camp.msPerDay = 0 -> nights s e = pred (dayCount s e).
Proof.
  intros Hle Hmod. unfold nights, dayCount, Camp.ceil_div. pose proof msPerDay_pos as HD.
  apply Z.leb_le in Hle as Hb. rewrite Hb.
  assert (0 <= (e - s) / Camp.msPerDay) by (apply Z.div_pos; lia).
  rewrite Z.div_opp_l_z by lia. lia.
Qed.

Lemma nights_pos (s e : Z) : (0 <? nights s e)%nat = (s <? e).
Proof.
  unfold nights, Camp.ceil_div. pose proof msPerDay_pos as HD.
  destruct (s <? e) eqn:E.
  - apply Z.ltb_lt in E. apply Nat.ltb_lt.
    assert ((- (e - s)) / Camp.msPerDay < 0)
      by (apply Z.div_lt_upper_bound; lia).
    lia.
  - apply Z.ltb_ge in E. apply Nat.ltb_ge.
    assert (0 <= (- (e - s)) / Camp.msPerDay) by (apply Z.div_pos; lia).
    lia.
Qed.




Section Stay.
Context `{Host} `{IsoDates}.
Variable random : nat -> Q.
Variable http : Camp.DetailClient.

Lemma getDateRange_closed (startDate endDate : string) (s e : Z) :
  Date_parse startDate = Some s -> Date_parse endDate = Some e ->
  Camp.getDateRange startDate endDate
  = map (fun k => Date_isoDay (dayAfter s k)) (seq 0 (dayCount s e)).
Proof.
  intros Hs He. unfold Camp.getDateRange. rewrite Hs, He.
  rewrite rangeLoop_closed by apply rangeFuel_enough. now rewrite map_map.
Qed.

Lemma mockDays_days (facilityId dateStart : Z) (todo i : nat) :
  Camp.mockDays random facilityId dateStart (Z.of_nat i) todo (6 * i)
  = flat_map (mockDay random facilityId dateStart) (seq i todo).
Proof.
  revert i. induction todo as [|todo IH]; intros i; [reflexivity|].
  cbn [Camp.mockDays seq flat_map]. unfold mockDay at 1. cbn [app].
  do 3 f_equal.
  replace (Z.of_nat i + 1) with (Z.of_nat (S i)) by lia.
  replace (6 * i + 6)%nat with (6 * S i)%nat by lia. apply IH.
Qed.

Lemma mockAvailabilityCheck_days (facilityId : Z) (startDate endDate : string) (s e : Z) :
  Date_parse startDate = Some s -> Date_parse endDate = Some e ->
  Camp.mockAvailabilityCheck random facilityId startDate endDate
  = flat_map (mockDay random facilityId s) (seq 0 (nights s e)).
Proof.
  intros Hs He. unfold Camp.mockAvailabilityCheck. rewrite Hs, He.
  exact (mockDays_days facilityId s (nights s e) 0).
Qed.

Lemma forDate_mockSite (campsiteType : option string) (facilityId dateStart : Z)
      (j : nat) (site : Z) (call : nat) (d : string) :
  Camp.forDate campsiteType d
               (Camp.mockSite random facilityId dateStart (Z.of_nat j) site call)
  = String.eqb (Date_isoDay (dayAfter dateStart j)) d && keepsCampsites campsiteType.
Proof. reflexivity. Qed.

Lemma filter_mockDay (campsiteType : option string) (facilityId dateStart : Z)
      (j : nat) (d : string) :
  filter (Camp.forDate campsiteType d) (mockDay random facilityId dateStart j)
  = if String.eqb (Date_isoDay (dayAfter dateStart j)) d && keepsCampsites campsiteType
    then mockDay random facilityId dateStart j else [].
Proof.
  unfold mockDay. cbn [filter]. rewrite !forDate_mockSite.
  destruct (_ && _); reflexivity.
Qed.

Lemma filter_days (campsiteType : option string) (facilityId dateStart : Z) (N k : nat) :
  (forall i j, (i < N)%nat -> (j < N)%nat ->
               Date_isoDay (dayAfter dateStart i) = Date_isoDay (dayAfter dateStart j) ->
               i = j) ->
  (k < N)%nat ->
  forall todo i, (i + todo <= N)%nat ->
  filter (Camp.forDate campsiteType (Date_isoDay (dayAfter dateStart k)))
         (flat_map (mockDay random facilityId dateStart) (seq i todo))
  = if keepsCampsites campsiteType && ((i <=? k)%nat && (k <? i + todo)%nat)
    then mockDay random facilityId dateStart k else [].
Proof.
  intros Hinj Hk. induction todo as [|todo IH]; intros i Hi.
  - cbn [seq flat_map filter].
    replace ((i <=? k)%nat && (k <? i + 0)%nat) with false; [now rewrite andb_false_r|].
    symmetry. apply andb_false_iff.
    destruct (Nat.leb_spec i k); [right; apply Nat.ltb_ge; lia | now left].
  - cbn [seq flat_map]. rewrite filter_app, filter_mockDay, IH by lia.
    destruct (String.eqb_spec (Date_isoDay (dayAfter dateStart i))
                              (Date_isoDay (dayAfter dateStart k))) as [Heq|Hne].
    + apply Hinj in Heq; [|lia|lia]. subst i.
      replace ((S k <=? k)%nat) with false by (symmetry; apply Nat.leb_gt; lia).
      replace ((k <=? k)%nat) with true by (symmetry; apply Nat.leb_le; lia).
      replace ((k <? k + S todo)%nat) with true by (symmetry; apply Nat.ltb_lt; lia).
      cbn [andb]. rewrite andb_false_r, andb_true_r.
      destruct (keepsCampsites campsiteType); [apply app_nil_r | reflexivity].
    + assert (i <> k) by (intros ->; now apply Hne).
      cbn [andb app].
      replace ((S i <=? k)%nat) with ((i <=? k)%nat).
      2:{ destruct (Nat.leb_spec i k), (Nat.leb_spec (S i) k); (reflexivity || lia). }
      replace ((k <? S i + todo)%nat) with ((k <? i + S todo)%nat).
      2:{ f_equal. lia. }
      reflexivity.
Qed.

Lemma getFacilityDetails_total (facilityId : Z) :
  exists d, Camp.getFacilityDetails http facilityId = Ok d /\
            match Camp.get_facility_record http facilityId with
            | Ok (Some r) => d = Some (Camp.mapFacilityResponse r)
            | _ => d = None
            end.
Proof.
  unfold Camp.getFacilityDetails.
  destruct (Camp.get_facility_record http facilityId) as [[r|]|err]; cbn;
    eexists; split; reflexivity.
Qed.

(** The dates of the report in closed form, when different days of
    the stay have different ISO days. *)
Lemma stay_dates (facilityId : Z) (startDate endDate : string)
      (campsiteType : option string) (s e : Z) :
  Date_parse startDate = Some s -> Date_parse endDate = Some e -> s <= e ->
  (forall i j, (i < dayCount s e)%nat -> (j < dayCount s e)%nat ->
               Date_isoDay (dayAfter s i) = Date_isoDay (dayAfter s j) -> i = j) ->
  Camp.datesWithSites campsiteType
                      (Camp.mockAvailabilityCheck random facilityId startDate endDate)
                      (Camp.getDateRange startDate endDate)
  = map (fun k => {| Camp.day := Date_isoDay (dayAfter s k);
                     Camp.sites :=
                       if keepsCampsites campsiteType && (k <? nights s e)%nat
                       then map Camp.toSite (mockDay random facilityId s k) else [] |})
        (seq 0 (dayCount s e)).
Proof.
  intros Hs He Hle Hinj. unfold Camp.datesWithSites.
  rewrite (getDateRange_closed _ _ s e Hs He),
          (mockAvailabilityCheck_days facilityId _ _ s e Hs He), map_map.
  apply map_ext_in. intros k Hk. apply in_seq in Hk. f_equal.
  rewrite (filter_days campsiteType facilityId s (dayCount s e) k Hinj) by
      (try lia; pose proof (nights_le_dayCount s e Hle); lia).
  cbn [Nat.leb andb Nat.add].
  destruct (keepsCampsites campsiteType && (k <? nights s e)%nat); reflexivity.
Qed.
End Stay.



Section Report.
Context `{Host} `{IsoDates}.
Variable random : nat -> Q.
Variable http : Camp.DetailClient.

(** X16.  [checkCampgroundAvailability] never fails, whatever the
    facility request does: it returns a report for the facility asked
    for with one entry for each date of [getDateRange], in order.
    When the request fails or brings no record, the report is named
    "Facility <id>" and links to the default reservation page; a
    record's name and reservation URL are used when they are defined
    and not empty. *)
Theorem campground_report_never_fails
        (facilityId : Z) (startDate endDate : string) (campsiteType : option string) :
  exists r,
    Camp.checkCampgroundAvailability random http facilityId startDate endDate campsiteType
    = Ok r /\
    Camp.facilityId r = facilityId /\
    map Camp.day (Camp.availableDates r) = Camp.getDateRange startDate endDate /\
    ((forall record, Camp.get_facility_record http facilityId <> Ok (Some record)) ->
     Camp.reportName r = ("Facility " ++ int_toString facilityId)%string /\
     Camp.reservationUrl r
     = ("https://www.recreation.gov/camping/campgrounds/" ++ int_toString facilityId)%string) /\
    (forall record,
        Camp.get_facility_record http facilityId = Ok (Some record) ->
        Camp.reportName r
        = Camp.string_or (Camp.FacilityName record)
                         ("Facility " ++ int_toString facilityId)%string /\
        Camp.reservationUrl r
        = Camp.string_or (Camp.FacilityReservationURL record)
                         ("https://www.recreation.gov/camping/campgrounds/"
                            ++ int_toString facilityId)%string /\
        (forall n, Camp.FacilityName record = Some n -> n <> EmptyString ->
                   Camp.reportName r = n)).
Proof.
  destruct (getFacilityDetails_total http facilityId) as (d & Hd & Hrec).
  unfold Camp.checkCampgroundAvailability. rewrite Hd. cbn [bind].
  eexists. split; [reflexivity|].
  cbn [Camp.facilityId Camp.availableDates Camp.reportName Camp.reservationUrl].
  split; [reflexivity|]. split; [|split].
  - unfold Camp.datesWithSites. rewrite map_map. cbn [Camp.day]. apply map_id.
  - intros Hnone.
    destruct (Camp.get_facility_record http facilityId) as [[record|]|err];
      [now destruct (Hnone record) | |]; subst d; split; reflexivity.
  - intros record Hrecord. rewrite Hrecord in Hrec. subst d.
    cbn [Camp.member Camp.mapFacilityResponse Camp.facilityName
         Camp.facilityReservationUrl].
    split; [reflexivity|]. split; [reflexivity|].
    intros n Hn Hne. rewrite Hn. cbn [Camp.string_or]. unfold truthy_string.
    destruct (String.eqb_spec n EmptyString) as [->|_]; [now destruct Hne | reflexivity].
Qed.

(** X17.  A stay without a night: when a date is not valid or the end
    lies before the start, the report lists no date, counts no site
    and its average of available sites is [NaN] (0 / 0); when both
    dates are the same instant, it lists that one day without any
    site and the average is 0. *)
Theorem stay_without_night_lists_no_site
        (facilityId : Z) (startDate endDate : string) (campsiteType : option string) :
  exists r,
    Camp.checkCampgroundAvailability random http facilityId startDate endDate campsiteType
    = Ok r /\
    (Date_parse startDate = None \/ Date_parse endDate = None \/
     (exists s e, Date_parse startDate = Some s /\ Date_parse endDate = Some e /\ e < s) ->
     Camp.availableDates r = [] /\ Camp.totalSites r = 0 /\ Camp.availableSites r = NaN) /\
    (forall s,
        Date_parse startDate = Some s -> Date_parse endDate = Some s ->
        Camp.availableDates r = [{| Camp.day := Date_isoDay s; Camp.sites := [] |}] /\
        Camp.totalSites r = 0 /\ Camp.availableSites r = Fin 0).
Proof.
  destruct (getFacilityDetails_total http facilityId) as (d & Hd & _).
  unfold Camp.checkCampgroundAvailability. rewrite Hd. cbn [bind].
  eexists. split; [reflexivity|].
  cbn [Camp.availableDates Camp.totalSites Camp.availableSites].
  split.
  - intros Hdeg.
    assert (Hrange : Camp.getDateRange startDate endDate = []).
    { unfold Camp.getDateRange.
      destruct (Date_parse startDate) as [s|]; [|reflexivity].
      destruct (Date_parse endDate) as [e|]; [|reflexivity].
      destruct Hdeg as [Hn | [Hn | (s' & e' & [= <-] & [= <-] & Hlt)]]; try discriminate.
      rewrite rangeLoop_closed by apply rangeFuel_enough.
      unfold dayCount. apply Z.leb_gt in Hlt. now rewrite Hlt. }
    rewrite Hrange. cbn [Camp.datesWithSites map]. repeat split.
  - intros s Hs He.
    rewrite (getDateRange_closed _ _ s s Hs He),
            (mockAvailabilityCheck_days random facilityId _ _ s s Hs He).
    assert (Hcount : dayCount s s = 1%nat).
    { unfold dayCount. rewrite Z.leb_refl, Z.sub_diag. reflexivity. }
    assert (Hnights : nights s s = 0%nat).
    { unfold nights. rewrite Z.sub_diag. reflexivity. }
    rewrite Hcount, Hnights. cbn [seq map flat_map Camp.datesWithSites filter].
    unfold dayAfter. cbn [Z.of_nat Z.mul]. rewrite Z.add_0_r.
    repeat split.
Qed.

(** X18.  The dates of a stay, when different days of the stay have
    different ISO days: the day [k] of the date range lists the three
    simulated sites of the loop's turn [k] when [k] is below the
    number of nights and the requested type is undefined, empty or
    "campsite", and no site otherwise.  The nights never outnumber the
    dates, and with an end a whole number of days after the start the
    last date, the day of departure, lists no site.  The total is 3
    when the end is after the start and the type lets sites through,
    and 0 otherwise. *)
Theorem sites_listed_per_night
        (facilityId : Z) (startDate endDate : string) (campsiteType : option string)
        (s e : Z) :
  Date_parse startDate = Some s -> Date_parse endDate = Some e -> s <= e ->
  (forall i j, (i < dayCount s e)%nat -> (j < dayCount s e)%nat ->
               Date_isoDay (dayAfter s i) = Date_isoDay (dayAfter s j) -> i = j) ->
  exists r,
    Camp.checkCampgroundAvailability random http facilityId startDate endDate campsiteType
    = Ok r /\
    Camp.availableDates r
    = map (fun k => {| Camp.day := Date_isoDay (dayAfter s k);
                       Camp.sites :=
                         if keepsCampsites campsiteType && (k <? nights s e)%nat
                         then map Camp.toSite (mockDay random facilityId s k) else [] |})
          (seq 0 (dayCount s e)) /\
    Camp.totalSites r = (if keepsCampsites campsiteType && (s <? e) then 3 else 0) /\
    (nights s e <= dayCount s e)%nat /\
    ((e - s) mod Camp.msPerDay = 0 -> nights s e = pred (dayCount s e)).
Proof.
  intros Hs He Hle Hinj.
  destruct (getFacilityDetails_total http facilityId) as (d & Hd & _).
  unfold Camp.checkCampgroundAvailability. rewrite Hd. cbn [bind].
  eexists. split; [reflexivity|].
  cbn [Camp.availableDates Camp.totalSites].
  rewrite (stay_dates random facilityId _ _ campsiteType s e Hs He Hle Hinj).
  split; [reflexivity|]. split; [|split].
  - rewrite (dayCount_step s e Hle). cbn [seq map Camp.sites].
    rewrite nights_pos.
    destruct (keepsCampsites campsiteType && (s <? e)); reflexivity.
  - now apply nights_le_dayCount.
  - now apply nights_whole_days.
Qed.

End Report.

Lemma may_days_distinct (i j : nat) :
  (i < dayCount (19844 * 86400000) (19846 * 86400000))%nat ->
  (j < dayCount (19844 * 86400000) (19846 * 86400000))%nat ->
  Date_isoDay (dayAfter (19844 * 86400000) i) = Date_isoDay (dayAfter (19844 * 86400000) j) ->
  i = j.
Proof.
  assert (Hcount : dayCount (19844 * 86400000) (19846 * 86400000) = 3%nat)
    by (vm_compute; reflexivity).
  rewrite Hcount. intros Hi Hj Heq.
  destruct i as [|[|[|i]]]; destruct j as [|[|[|j]]]; try lia;
    vm_compute in Heq; discriminate.
Qed.

Lemma campground_report_examples :
  (exists r,
      Camp.checkCampgroundAvailability alternating detailDown 233
                                       "2024-05-01" "2024-05-03" None = Ok r /\
      Camp.reportName r = "Facility 233" /\
      Camp.reservationUrl r = "https://www.recreation.gov/camping/campgrounds/233" /\
      map Camp.day (Camp.availableDates r) = ["2024-05-01"; "2024-05-02"; "2024-05-03"]) /\
  (exists r,
      Camp.checkCampgroundAvailability alternating detailUp 233
                                       "2024-05-01" "2024-05-03" None = Ok r /\
      Camp.reportName r = "Upper Pines Campground" /\
      Camp.reservationUrl r = "https://www.recreation.gov/camping/campgrounds/233").
Proof.
  split.
  - destruct (campground_report_never_fails alternating detailDown 233
                "2024-05-01" "2024-05-03" None)
      as (r & Hr & _ & Hdays & Hnone & _).
    exists r. split; [exact Hr|].
    destruct Hnone as [Hn Hu]; [intros record Hc; cbn in Hc; discriminate|].
    rewrite Hn, Hu, Hdays. repeat split; vm_compute; reflexivity.
  - destruct (campground_report_never_fails alternating detailUp 233
                "2024-05-01" "2024-05-03" None)
      as (r & Hr & _ & _ & _ & Hsome).
    exists r. split; [exact Hr|].
    destruct (Hsome _ eq_refl) as (_ & Hu & Hname).
    split.
    + apply Hname; [reflexivity | discriminate].
    + rewrite Hu. vm_compute. reflexivity.
Defined.

Lemma stay_without_night_examples :
  (exists r,
      Camp.checkCampgroundAvailability alternating detailUp 233
                                       "2024-05-03" "2024-05-01" None = Ok r /\
      Camp.availableDates r = [] /\ Camp.totalSites r = 0 /\ Camp.availableSites r = NaN) /\
  (exists r,
      Camp.checkCampgroundAvailability alternating detailUp 233
                                       "2024-05-01" "2024-05-01" None = Ok r /\
      Camp.availableDates r = [{| Camp.day := "2024-05-01"; Camp.sites := [] |}] /\
      Camp.totalSites r = 0 /\ Camp.availableSites r = Fin 0).
Proof.
  split.
  - destruct (stay_without_night_lists_no_site alternating detailUp 233
                "2024-05-03" "2024-05-01" None) as (r & Hr & Hdeg & _).
    exists r. split; [exact Hr|]. apply Hdeg. right; right.
    exists (19846 * 86400000), (19844 * 86400000).
    split; [vm_compute; reflexivity|]. split; [vm_compute; reflexivity | lia].
  - destruct (stay_without_night_lists_no_site alternating detailUp 233
                "2024-05-01" "2024-05-01" None) as (r & Hr & _ & Hsame).
    exists r. split; [exact Hr|].
    destruct (Hsame (19844 * 86400000)) as (Hdates & Htotal & Havg);
      [vm_compute; reflexivity | vm_compute; reflexivity |].
    rewrite Hdates.
    split; [vm_compute; reflexivity | split; [exact Htotal | exact Havg]].
Defined.

Lemma two_night_stay_example :
  exists r,
    Camp.checkCampgroundAvailability alternating detailUp 233
                                     "2024-05-01" "2024-05-03" None = Ok r /\
    map (fun d => (Camp.day d, List.length (Camp.sites d))) (Camp.availableDates r)
    = [("2024-05-01", 3%nat); ("2024-05-02", 3%nat); ("2024-05-03", 0%nat)] /\
    Camp.totalSites r = 3.
Proof.
  destruct (sites_listed_per_night alternating detailUp 233 "2024-05-01" "2024-05-03" None
              (19844 * 86400000) (19846 * 86400000))
    as (r & Hr & Hdates & Htotal & _).
  - vm_compute. reflexivity.
  - vm_compute. reflexivity.
  - lia.
  - exact may_days_distinct.
  - exists r. split; [exact Hr|]. rewrite Hdates, Htotal.
    split; vm_compute; reflexivity.
Defined.


(** *** The findNearbyRecreation tool *)





Section NearbyTool.
Variable svc : Nearby.Services.


(** X21.  The order of the checks of [findNearbyRecreation].  Without
    a forecast for the location the answer is that the location was
    not found.  Without facilities the answer says so even when there
    is no weather for today.  With facilities but an empty detailed
    forecast, reading today's condition throws and the tool answers
    with the error text; so it does when the detailed forecast cannot
    be fetched, whatever the facility search would give. *)
Theorem nearby_checks_in_order
        (location : string) (distance : Q) (activityType : option string) :
  let response := Nearby.findNearbyRecreation svc location distance activityType in
  let facilities :=
    Nearby.getFacilitiesByLocation svc (377749 # 10000) (Qmake (-1224194) 10000) distance in
  (Nearby.get7DayForecastByLocation svc location = Ok None \/
   Nearby.get7DayForecastByLocation svc location = Ok (Some []) ->
   response = [Lit "Could not find location: "; Str location]) /\
  (forall day days,
      Nearby.get7DayForecastByLocation svc location = Ok (Some (day :: days)) ->
      (forall detailed,
          Nearby.getDetailedForecast svc location 1 = Ok detailed ->
          facilities = Ok None \/ facilities = Ok (Some []) ->
          response = [Lit "No recreation facilities found within "; Num distance;
                      Lit " miles of "; Str location]) /\
      (forall facility others,
          Nearby.getDetailedForecast svc location 1 = Ok [] ->
          facilities = Ok (Some (facility :: others)) ->
          response = [Lit "Error finding nearby recreation: ";
                      Str (message Nearby.undefinedCondition)]) /\
      (forall e,
          Nearby.getDetailedForecast svc location 1 = Throw e ->
          response = [Lit "Error finding nearby recreation: "; Str (message e)])).
Proof.
  cbv zeta. unfold Nearby.findNearbyRecreation, Nearby.findNearbyRecreation_try.
  split; [|intros day days Hforecast; split; [|split]].
  - intros [-> | ->]; reflexivity.
  - intros detailed Hdetailed Hnone. rewrite Hforecast. cbn [bind].
    rewrite Hdetailed. cbn [bind]. cbv zeta. destruct Hnone as [-> | ->]; reflexivity.
  - intros facility others Hdetailed Hsome. rewrite Hforecast. cbn [bind].
    rewrite Hdetailed. cbn [bind]. cbv zeta. rewrite Hsome. reflexivity.
  - intros e Hdetailed. rewrite Hforecast. cbn [bind]. rewrite Hdetailed. reflexivity.
Qed.
End NearbyTool.


Lemma nearby_without_today_example :
  Nearby.findNearbyRecreation (nearbyServices [] tenPlaces) "San Francisco" 50 None
  = [Lit "Error finding nearby recreation: ";
     Str "Cannot read properties of undefined (reading 'condition')"] /\
  Nearby.findNearbyRecreation (nearbyServices [] []) "San Francisco" 50 None
  = [Lit "No recreation facilities found within "; Num 50; Lit " miles of ";
     Str "San Francisco"].
Proof.
  destruct (nearby_checks_in_order (nearbyServices [] tenPlaces) "San Francisco" 50 None)
    as [_ Hten].
  destruct (Hten (mildDay "2024-05-03")
                 (map mildDay ["2024-05-04"; "2024-05-05"; "2024-05-06"; "2024-05-07";
                               "2024-05-08"; "2024-05-09"; "2024-05-10"])
                 eq_refl) as (_ & Herror & _).
  destruct (nearby_checks_in_order (nearbyServices [] []) "San Francisco" 50 None)
    as [_ Hnone].
  destruct (Hnone (mildDay "2024-05-03")
                  (map mildDay ["2024-05-04"; "2024-05-05"; "2024-05-06"; "2024-05-07";
                                "2024-05-08"; "2024-05-09"; "2024-05-10"])
                  eq_refl) as (Hempty & _).
  split.
  - exact (Herror (place "Kirby Cove Campground")
                  (map place ["Bicentennial Campground"; "Haypress Campground";
                              "Hawk Campground"; "Rob Hill Campground"; "Muir Woods Trail";
                              "Alcatraz Tour"; "Fort Point"; "Angel Island Camp";
                              "Presidio Trail"])
                  eq_refl eq_refl).
  - exact (Hempty [] eq_refl (or_intror eq_refl)).
Defined.

(** *** Sites and their facility *)

Section Campsite.
Context `{Host} `{IsoDates}.

(** X22.  The site numbers of the simulated availability lead back to
    their facility: [checkCampsiteAvailability] on the number of any
    simulated entry gives one entry, for that site and for the
    facility the entry was made for, dated with the start date as it
    was passed, with a price from 20 to 49. *)
Theorem campsite_leads_back_to_facility
        (random again : nat -> Q) (facilityId : Z) (startDate endDate from to : string)
        (a : Camp.Availability) :
  (forall n, (0 <= random n)%Q /\ (random n < 1)%Q) ->
  (forall n, (0 <= again n)%Q /\ (again n < 1)%Q) ->
  In a (Camp.mockAvailabilityCheck random facilityId startDate endDate) ->
  exists b,
    Camp.checkCampsiteAvailability again (Camp.campSiteID a) from to = [b] /\
    Camp.availFacilityID b = facilityId /\
    Camp.campSiteID b = Camp.campSiteID a /\
    Camp.availableDate b = from /\
    Camp.siteType b = Camp.siteType a /\
    20 <= Camp.price b <= 49 /\
    Camp.availableStatus b <> Camp.NotAvailable.
Proof.
  intros Hrandom Hagain Hin.
  assert (Hsite : 1 <= Camp.campSiteID a - facilityId * 1000 <= 3 /\
                  Camp.siteType a = "campsite").
  { unfold Camp.mockAvailabilityCheck in Hin.
    destruct (Date_parse startDate) as [s|]; [|destruct Hin].
    destruct (Date_parse endDate) as [e|]; [|destruct Hin].
    destruct (mockDays_shape random Hrandom facilityId s
                             (Z.to_nat (Camp.ceil_div (e - s) Camp.msPerDay)) 0 0%nat 0
                             (Z.le_refl 0)) as [_ Hall].
    rewrite Forall_forall in Hall. destruct (Hall a Hin) as (_ & Hid & _ & Htype & _).
    now split. }
  destruct Hsite as [Hid Htype].
  eexists. split; [reflexivity|].
  cbn [Camp.availFacilityID Camp.campSiteID Camp.availableDate Camp.siteType Camp.price
       Camp.availableStatus].
  split; [|split; [reflexivity|split; [reflexivity|split; [now rewrite Htype|split]]]].
  - replace (Camp.campSiteID a)
      with (facilityId * 1000 + (Camp.campSiteID a - facilityId * 1000)) by ring.
    rewrite Z.div_add_l by lia. rewrite Z.div_small by lia. ring.
  - destruct (Hagain 1%nat) as [Hlo Hhi]. now apply price_range.
  - destruct (negb _); discriminate.
Qed.
End Campsite.

Lemma campsite_example :
  exists b,
    Camp.checkCampsiteAvailability alternating 233002 "2024-06-01" "2024-06-02" = [b] /\
    Camp.availFacilityID b = 233 /\ Camp.availableDate b = "2024-06-01".
Proof.
  destruct (campsite_leads_back_to_facility
              alternating alternating 233 "2024-05-01" "2024-05-02"
              "2024-06-01" "2024-06-02"
              (Camp.mockSite alternating 233 (19844 * 86400000) 0 2 2)
              alternating_unit alternating_unit)
    as (b & Hb & Hfacility & _ & Hdate & _).
  - vm_compute. right; left. reflexivity.
  - exists b. split; [exact Hb|]. split; [exact Hfacility | exact Hdate].
Defined.

(** *** What the overview lists *)

Lemma plusMore_following {A : Type} (n : nat) (what : string) (l : list A) (t : text) :
  String.eqb what "- Plus " = false ->
  following "- Plus " 1 (plusMore n what l ++ t) = remainder n l ++ following "- Plus " 1 t.
Proof.
  intros Hwhat. unfold plusMore, remainder.
  destruct (Nat.ltb n (List.length l)); [|reflexivity].
  cbn [app]. rewrite following_cons. cbn [isMark String.eqb Ascii.eqb Bool.eqb firstn].
  rewrite !following_cons. cbn [isMark]. now rewrite Hwhat.
Qed.

Lemma plusMore_without {A : Type} (n : nat) (what : string) (l : list A) :
  String.eqb what "- **" = false ->
  Forall (fun p => isMark "- **" p = false) (plusMore n what l).
Proof.
  intros Hwhat. unfold plusMore. destruct (Nat.ltb n (List.length l)); [|constructor].
  repeat (apply Forall_cons; [first [reflexivity | exact Hwhat]|]). constructor.
Qed.

Lemma overviewAbout_without (mark : string) (park : Park) :
  existsb (String.eqb mark) ["## About"; "No description available."; "**Location**: "; ", "]
  = false ->
  Forall (fun p => isMark mark p = false) (overviewAbout park).
Proof.
  intros Hmark. cbn [existsb] in Hmark.
  repeat (apply orb_false_iff in Hmark as [?H Hmark]).
  unfold overviewAbout. apply Forall_app. split.
  - destruct (truthy_ostring (parkDescription park)); no_marks.
  - destruct (truthy_oQ (Visit.latitude park) && truthy_oQ (Visit.longitude park));
      [|constructor].
    destruct (Visit.latitude park), (Visit.longitude park); no_marks.
Qed.

Lemma overviewAlerts_items (alerts : list Alert) :
  following "- **" 1 (overviewAlerts alerts)
  = map (fun a => [Str (title a)]) (firstn 3 alerts) /\
  following "- Plus " 1 (overviewAlerts alerts) = remainder 3 alerts /\
  last (overviewAlerts alerts) Nl = Nl.
Proof.
  unfold overviewAlerts. destruct alerts as [|a alerts]; [repeat split|].
  set (l := a :: alerts). split; [|split].
  - rewrite following_skip by (repeat constructor).
    rewrite (following_items "- **" _ (fun a => Str (title a)))
      by (intros x; eexists; split; [reflexivity | repeat constructor]).
    rewrite following_skip by now apply plusMore_without.
    apply app_nil_r.
  - rewrite following_skip by (repeat constructor).
    rewrite following_skip
      by (apply flat_map_without; intros x; repeat constructor).
    rewrite plusMore_following by reflexivity. apply app_nil_r.
  - rewrite !app_assoc. apply last_last.
Qed.

Lemma overviewForecast_items (forecast : option (list ForecastDay)) :
  following "- **" 1 (overviewForecast forecast)
  = map (fun d => [Str (date d)])
        (match forecast with Some days => days | None => [] end) /\
  following "- Plus " 1 (overviewForecast forecast) = [] /\
  last (overviewForecast forecast) Nl = Nl.
Proof.
  unfold overviewForecast. destruct forecast as [[|d days]|]; [repeat split | | repeat split].
  set (l := d :: days). split; [|split].
  - rewrite following_skip by (repeat constructor).
    rewrite (following_items "- **" _ (fun a => Str (date a)))
      by (intros x; eexists; split; [reflexivity | repeat constructor]).
    apply app_nil_r.
  - rewrite following_skip by (repeat constructor).
    rewrite following_skip
      by (apply flat_map_without; intros x; repeat constructor).
    reflexivity.
  - rewrite !app_assoc. apply last_last.
Qed.

Lemma overviewEvents_items (events : list Event.t) :
  following "- **" 1 (overviewEvents events)
  = map (fun e => [Str (Event.title e)]) (firstn 5 events) /\
  following "- Plus " 1 (overviewEvents events) = remainder 5 events /\
  last (overviewEvents events) Nl = Nl.
Proof.
  unfold overviewEvents. destruct events as [|e events]; [repeat split|].
  set (l := e :: events). split; [|split].
  - rewrite following_skip by (repeat constructor).
    rewrite (following_items "- **" _ (fun a => Str (Event.title a)))
      by (intros x; eexists; split; [reflexivity | repeat constructor]).
    rewrite following_skip by now apply plusMore_without.
    apply app_nil_r.
  - rewrite following_skip by (repeat constructor).
    rewrite following_skip
      by (apply flat_map_without; intros x; repeat constructor).
    rewrite plusMore_following by reflexivity. apply app_nil_r.
  - rewrite !app_assoc. apply last_last.
Qed.

Lemma overviewCampgrounds_items (campgrounds : list Campground.t) :
  following "- **" 1 (overviewCampgrounds campgrounds)
  = map (fun c => [Str (Campground.name c)]) (firstn 3 campgrounds) /\
  following "- Plus " 1 (overviewCampgrounds campgrounds) = remainder 3 campgrounds.
Proof.
  assert (Hsites : forall mark (c : Campground.t),
             String.eqb " (" mark = false -> String.eqb " sites)" mark = false ->
             Forall (fun p => isMark mark p = false)
                    (match Campground.totalSites c with
                     | Some n =>
                         if truthy_oQ (Some n) then [Lit " ("; Num n; Lit " sites)"] else []
                     | None => []
                     end ++ [Nl])).
  { intros mark c H1 H2. apply Forall_app. split; [|repeat constructor].
    destruct (Campground.totalSites c) as [n|]; [destruct (truthy_oQ (Some n))|];
      repeat (apply Forall_cons; [first [reflexivity | assumption]|]); constructor. }
  unfold overviewCampgrounds. destruct campgrounds as [|c campgrounds]; [repeat split|].
  set (l := c :: campgrounds). split.
  - rewrite following_skip by (repeat constructor).
    rewrite (following_items "- **" _ (fun a => Str (Campground.name a))).
    2:{ intros x. eexists. split; [reflexivity|].
        repeat (apply Forall_cons; [reflexivity|]). now apply Hsites. }
    rewrite following_none by now apply plusMore_without.
    apply app_nil_r.
  - rewrite following_skip by (repeat constructor).
    rewrite following_skip.
    2:{ apply flat_map_without. intros x.
        repeat (apply Forall_cons; [reflexivity|]). now apply Hsites. }
    rewrite <- (app_nil_r (plusMore 3 _ l)), plusMore_following by reflexivity.
    apply app_nil_r.
Qed.

Section OverviewLists.
Context `{Host}.

(** X23.  What [getParkOverview] writes out when every service
    answers: each item begins a line with "- **"; these are, in order,
    the titles of the first three alerts, the dates of all forecast
    days, the titles of the first five events and the names of the
    first three campgrounds.  What is left out is counted: "- Plus" is
    followed by the number of alerts beyond three, of events beyond
    five and of campgrounds beyond three, each only when there are
    that many. *)
Theorem overview_lists_and_counts
        (svc : Services) (code : string) (park : Park) (alerts : list Alert)
        (forecast : option (list ForecastDay)) (events : list Event.t)
        (campgrounds : list Campground.t) :
  Visit.getParkById svc code = Ok (Some park) ->
  getAlertsByPark svc code = Ok alerts ->
  get7DayForecastByLocation svc (Visit.name park) = Ok forecast ->
  getEventsByPark svc code Date_today Date_in_two_weeks = Ok events ->
  getCampgroundsByPark svc code = Ok campgrounds ->
  following "- **" 1 (getParkOverview svc code)
  = map (fun a => [Str (title a)]) (firstn 3 alerts)
    ++ map (fun d => [Str (date d)]) (match forecast with Some days => days | None => [] end)
    ++ map (fun e => [Str (Event.title e)]) (firstn 5 events)
    ++ map (fun c => [Str (Campground.name c)]) (firstn 3 campgrounds) /\
  following "- Plus " 1 (getParkOverview svc code)
  = remainder 3 alerts ++ remainder 5 events ++ remainder 3 campgrounds.
Proof.
  intros Hpark Halerts Hforecast Hevents Hcamp.
  unfold getParkOverview, getParkOverview_try.
  rewrite Hpark; cbn [bind]. rewrite Halerts; cbn [bind]. rewrite Hforecast; cbn [bind].
  rewrite Hevents; cbn [bind]. rewrite Hcamp; cbn [bind].
  destruct (overviewAlerts_items alerts) as (Ha1 & Ha2 & Ha3).
  destruct (overviewForecast_items forecast) as (Hf1 & Hf2 & Hf3).
  destruct (overviewEvents_items events) as (He1 & He2 & He3).
  destruct (overviewCampgrounds_items campgrounds) as (Hc1 & Hc2).
  split.
  - rewrite following_skip by (repeat constructor).
    rewrite following_skip by (now apply overviewAbout_without).
    rewrite following_app1 by (now rewrite Ha3).
    rewrite following_app1 by (now rewrite Hf3).
    rewrite following_app1 by (now rewrite He3).
    now rewrite Ha1, Hf1, He1, Hc1.
  - rewrite following_skip by (repeat constructor).
    rewrite following_skip by (now apply overviewAbout_without).
    rewrite following_app1 by (now rewrite Ha3).
    rewrite following_app1 by (now rewrite Hf3).
    rewrite following_app1 by (now rewrite He3).
    now rewrite Ha2, Hf2, He2, Hc2.
Qed.
End OverviewLists.

Lemma overview_lists_example :
  let response :=
    getParkOverview
      (servicesWith (map roadAlert ["Tioga Road"; "Glacier Point Road"; "Mariposa Grove Road";
                                    "Hetch Hetchy Road"])
                    (map rangerTalk ["Bears"; "Stars"]) [])
      "yose" in
  following "- **" 1 response
  = [[Str "Tioga Road"]; [Str "Glacier Point Road"]; [Str "Mariposa Grove Road"];
     [Str "Bears"]; [Str "Stars"]] /\
  following "- Plus " 1 response = [[Num 1]].
Proof.
  destruct (overview_lists_and_counts
              (servicesWith (map roadAlert ["Tioga Road"; "Glacier Point Road";
                                            "Mariposa Grove Road"; "Hetch Hetchy Road"])
                            (map rangerTalk ["Bears"; "Stars"]) [])
              "yose" yosemite
              (map roadAlert ["Tioga Road"; "Glacier Point Road"; "Mariposa Grove Road";
                              "Hetch Hetchy Road"])
              None (map rangerTalk ["Bears"; "Stars"]) []
              eq_refl eq_refl eq_refl eq_refl eq_refl) as [Hitems Hplus].
  cbv zeta. split.
  - rewrite Hitems. vm_compute. reflexivity.
  - rewrite Hplus. vm_compute. reflexivity.
Defined.
